(** * nexus-ia: the natural-language task interpreter of [nexus_local.py]

    A shallow embedding of the interpretation pipeline (text normaliser,
    fuzzy concept matcher, classifiers, priority resolver, date resolver
    and the orchestrator [procesar_logica_negocio]) together with the
    parts of the Python runtime it calls: [str] methods, [re], [difflib],
    [datetime], [calendar] and [input]; of [enviar_a_notion], the
    properties of the page it posts.

    What the program takes from its environment is made explicit:
    - the clock: [datetime.now()] is the argument [ahora];
    - standard input: the lines waiting to be read are the argument
      [entrada], and a function that reads returns the lines left;
      [input()] on an empty list raises [EOFError];
    - standard output: an open stream whose encoder accepts a string or
      not ([Stdout]); [print] and the prompt of [input] raise
      [UnicodeEncodeError] on a string it does not accept; what has
      been written is not kept;
    - the [dateparser] library: an arbitrary function ([DateParser]);
    - the Unicode character database: arbitrary tables that obey a few
      laws about ASCII and white space ([Unicode]);
    - exceptions: a function that can raise returns a [res].

    Layout: definitions first (runtime, then the program in source
    order, then what the statements need), properties afterwards. *)

From Stdlib Require Import Ascii String.
From Stdlib Require Import ZArith NArith List Bool Lia QArith.
Import ListNotations.
Local Open Scope Z_scope.

(* ================================================================== *)
(** ** Python strings *)
(* ================================================================== *)

(** A Python [str] is a sequence of Unicode code points. *)
Definition str := list N.

Definition str_eqb (a b : str) : bool :=
  if list_eq_dec N.eq_dec a b then true else false.

(** Source literals are written as Rocq strings (UTF-8 bytes) and
    decoded to code points. *)
Fixpoint bytes_of (s : string) : list N :=
  match s with
  | EmptyString => []
  | String c r => N_of_ascii c :: bytes_of r
  end.

Fixpoint utf8_decode (bs : list N) : str :=
  match bs with
  | [] => []
  | b :: r =>
      if (b <? 128)%N then b :: utf8_decode r
      else if (b <? 224)%N then
        match r with
        | b1 :: r1 => ((b - 192) * 64 + (b1 - 128))%N :: utf8_decode r1
        | _ => []
        end
      else if (b <? 240)%N then
        match r with
        | b1 :: b2 :: r2 =>
            ((b - 224) * 4096 + (b1 - 128) * 64 + (b2 - 128))%N :: utf8_decode r2
        | _ => []
        end
      else
        match r with
        | b1 :: b2 :: b3 :: r3 =>
            ((b - 240) * 262144 + (b1 - 128) * 4096
             + (b2 - 128) * 64 + (b3 - 128))%N :: utf8_decode r3
        | _ => []
        end
  end.

Definition py (s : string) : str := utf8_decode (bytes_of s).

(** [x in xs] for a list or tuple of strings. *)
Definition str_in (x : str) (xs : list str) : bool := existsb (str_eqb x) xs.

(** [string.punctuation] *)
Definition punctuation : str := py "!#$%&'()*+,-./:;<=>?@[\]^_`{|}~" ++ [34%N].

(** [str.isspace] of one character, which is also [\s] of [re] and what
    [str.strip] and [str.split] remove: CPython's complete white-space
    table. *)
Definition isspace (c : N) : bool :=
  ((9 <=? c) && (c <=? 13) || (28 <=? c) && (c <=? 32)
   || (c =? 133) || (c =? 160) || (c =? 5760)
   || (8192 <=? c) && (c <=? 8202)
   || (c =? 8232) || (c =? 8233) || (c =? 8239) || (c =? 8287)
   || (c =? 12288))%N.

Definition is_ascii (c : N) : bool := (c <? 128)%N.

Definition ascii_lower (c : N) : N :=
  if ((65 <=? c) && (c <=? 90))%N then (c + 32)%N else c.

Definition ascii_upper (c : N) : N :=
  if ((97 <=? c) && (c <=? 122))%N then (c - 32)%N else c.

Definition ascii_digit (c : N) : option N :=
  if ((48 <=? c) && (c <=? 57))%N then Some (c - 48)%N else None.

Definition ascii_word (c : N) : bool :=
  ((48 <=? c) && (c <=? 57) || (65 <=? c) && (c <=? 90)
   || (c =? 95) || (97 <=? c) && (c <=? 122))%N.

(** The Unicode character database behind [str.lower],
    [str.capitalize], [\d], [\w], [int] and [re.IGNORECASE].  The
    tables themselves are CPython's; the development only relies on
    what they say about ASCII text, white space and digit values,
    which is stated as the laws below. *)
Class Unicode := {
  (** [s.lower()] *)
  str_lower : str -> str;
  (** [s.capitalize()] *)
  str_capitalize : str -> str;
  (** the digit value of a character of category Nd: [\d], [int] *)
  decimal_value : N -> option N;
  (** [\w]: alphanumeric or underscore *)
  is_word : N -> bool;
  (** a pattern literal against a subject character under
      [re.IGNORECASE] *)
  ieq : N -> N -> bool;

  lower_ascii : forall s, forallb is_ascii s = true ->
      str_lower s = map ascii_lower s;
  lower_space : forall s, forallb isspace s = true -> str_lower s = s;
  capitalize_ascii : forall c s, forallb is_ascii (c :: s) = true ->
      str_capitalize (c :: s) = ascii_upper c :: map ascii_lower s;
  capitalize_nil : str_capitalize [] = [];
  decimal_space : forall c, isspace c = true -> decimal_value c = None;
  decimal_range : forall c v, decimal_value c = Some v -> (v <= 9)%N
}.

(** [int(s)] for the arguments it receives here: a non-empty run of
    decimal digits, white space around it ignored.  Anything else is a
    [ValueError] ([None]). *)
Fixpoint int_digits `{Unicode} (acc : Z) (s : str) : option Z :=
  match s with
  | [] => Some acc
  | c :: r =>
      match decimal_value c with
      | Some v => int_digits (acc * 10 + Z.of_N v) r
      | None => None
      end
  end.

(** [s.strip()] *)
Fixpoint lstrip (s : str) : str :=
  match s with
  | c :: r => if isspace c then lstrip r else s
  | [] => []
  end.

Definition rstrip (s : str) : str := rev (lstrip (rev s)).

Definition strip (s : str) : str := rstrip (lstrip s).

Definition py_int `{Unicode} (s : str) : option Z :=
  match strip s with
  | [] => None
  | t => int_digits 0 t
  end.

(** [s.split()]: the maximal runs of non-space characters. *)
Fixpoint split_go (cur : str) (s : str) : list str :=
  match s with
  | [] => match cur with [] => [] | _ => [rev cur] end
  | c :: r =>
      if isspace c
      then match cur with [] => split_go [] r | _ => rev cur :: split_go [] r end
      else split_go (c :: cur) r
  end.

Definition split (s : str) : list str := split_go [] s.

(** [needle in haystack] for strings. *)
Fixpoint starts_with (p s : str) : bool :=
  match p, s with
  | [], _ => true
  | a :: p', b :: s' => (a =? b)%N && starts_with p' s'
  | _ :: _, [] => false
  end.

Fixpoint contains (needle hay : str) : bool :=
  starts_with needle hay
  || match hay with
     | [] => false
     | _ :: r => contains needle r
     end.

(** [s.translate(str.maketrans('', '', chars))] *)
Definition delete_chars (chars : str) (s : str) : str :=
  filter (fun c => negb (existsb (N.eqb c) chars)) s.

(** [re.sub(r'\s+', ' ', s)] *)
Fixpoint collapse_spaces (in_run : bool) (s : str) : str :=
  match s with
  | [] => []
  | c :: r =>
      if isspace c
      then if in_run then collapse_spaces true r
           else 32%N :: collapse_spaces true r
      else c :: collapse_spaces false r
  end.

(* ================================================================== *)
(** ** Exceptions *)
(* ================================================================== *)

Inductive exn :=
  ValueError | TypeError | OverflowError | EOFError | IllegalMonthError
| UnicodeEncodeError.

Inductive res (A : Type) :=
| Ok (a : A)
| Raise (e : exn).
Arguments Ok {A} a.
Arguments Raise {A} e.

Definition bind {A B} (m : res A) (f : A -> res B) : res B :=
  match m with
  | Ok a => f a
  | Raise e => Raise e
  end.

Notation "x <- m ;; k" := (bind m (fun x => k))
  (at level 61, m at next level, right associativity).

(** [try: m  except: h] *)
Definition try_except {A} (m : res A) (h : res A) : res A :=
  match m with
  | Ok a => Ok a
  | Raise _ => h
  end.

(** a caught exception turned into [None] *)
Definition attempt {A} (m : res A) : option A :=
  match m with
  | Ok a => Some a
  | Raise _ => None
  end.

(* ================================================================== *)
(** ** Standard output *)
(* ================================================================== *)

(** [sys.stdout]: a text stream with an encoding and an error handler.
    Writing a string encodes it first; [stdout_encodes s] tells whether
    that succeeds. *)
Class Stdout := {
  stdout_encodes : str -> bool
}.

(** [print(s)], and the prompt of [input(s)]: the string is written to
    [sys.stdout], which raises [UnicodeEncodeError] when its encoder
    does not take it (the line end [print] adds is taken to be
    encodable) *)
Definition print `{Stdout} (s : str) : res unit :=
  if stdout_encodes s then Ok tt else Raise UnicodeEncodeError.

(* ================================================================== *)
(** ** [re]: a backtracking matcher for the patterns of the program *)
(* ================================================================== *)

(** Every pattern of the program (and the one [strptime] builds) is
    compiled with [re.IGNORECASE]; repetition is only ever applied to a
    single character item, so [Rep] takes a character class. *)

Inductive cclass :=
| CLit (c : N)          (** a literal character *)
| CDigit                (** [\d] *)
| CSpace                (** [\s] *)
| CWord                 (** [\w] *)
| CRange (lo hi : N).   (** [[lo-hi]] *)

Inductive regex :=
| Eps
| Chr (c : cclass)
| Rep (c : cclass) (lo : nat) (hi : option nat)  (** greedy [c{lo,hi}] *)
| Seq (r1 r2 : regex)
| Alt (r1 r2 : regex)
| Group (n : nat) (r : regex)
| WordBoundary.                                    (** [\b] *)

Definition captures := list (nat * str).

Fixpoint group (caps : captures) (n : nat) : option str :=
  match caps with
  | [] => None
  | (i, s) :: r => if Nat.eqb i n then Some s else group r n
  end.

(** [match.groups()] of a pattern with [n] groups *)
Definition groups (n : nat) (caps : captures) : list (option str) :=
  map (fun i => group caps (S i)) (seq 0 n).

Section Matcher.
Context `{Unicode}.

Definition cmatch (c : cclass) (x : N) : bool :=
  match c with
  | CLit a => ieq a x
  | CDigit => match decimal_value x with Some _ => true | None => false end
  | CSpace => isspace x
  | CWord => is_word x
  | CRange lo hi => ((lo <=? x) && (x <=? hi))%N
  end.

Definition word_at (o : option N) : bool :=
  match o with
  | Some x => is_word x
  | None => false
  end.

Context {R : Type}.

(** the rest of the match: previous character, remaining subject,
    groups so far *)
Definition cont := option N -> str -> captures -> option R.

Fixpoint rep (p : N -> bool) (lo : nat) (hi : option nat)
    (prev : option N) (s : str) (caps : captures) (k : cont) : option R :=
  let stop := match lo with O => k prev s caps | S _ => None end in
  match s with
  | x :: r =>
      if p x && match hi with Some O => false | _ => true end
      then match rep p (pred lo) (option_map pred hi) (Some x) r caps k with
           | Some v => Some v
           | None => stop
           end
      else stop
  | [] => stop
  end.

Fixpoint rmatch (r : regex) (prev : option N) (s : str) (caps : captures)
    (k : cont) : option R :=
  match r with
  | Eps => k prev s caps
  | Chr c =>
      match s with
      | x :: s' => if cmatch c x then k (Some x) s' caps else None
      | [] => None
      end
  | Rep c lo hi => rep (cmatch c) lo hi prev s caps k
  | Seq r1 r2 =>
      rmatch r1 prev s caps (fun p' s' c' => rmatch r2 p' s' c' k)
  | Alt r1 r2 =>
      match rmatch r1 prev s caps k with
      | Some v => Some v
      | None => rmatch r2 prev s caps k
      end
  | Group n r1 =>
      rmatch r1 prev s caps
        (fun p' s' c' =>
           k p' s' ((n, firstn (length s - length s') s) :: c'))
  | WordBoundary =>
      if xorb (word_at prev) (word_at (hd_error s))
      then k prev s caps else None
  end.
End Matcher.

(** [re.match(r, s)]: the groups and the unmatched rest of [s] *)
Definition re_match `{Unicode} (r : regex) (s : str) : option (captures * str) :=
  rmatch r None s [] (fun _ s' c => Some (c, s')).

(** [re.search(r, s)]: the leftmost start position that matches *)
Fixpoint search_from `{Unicode} (r : regex) (prev : option N) (s : str)
    : option captures :=
  match rmatch r prev s [] (fun _ _ c => Some c) with
  | Some c => Some c
  | None =>
      match s with
      | [] => None
      | x :: s' => search_from r (Some x) s'
      end
  end.

Definition re_search `{Unicode} (r : regex) (s : str) : option captures :=
  search_from r None s.

Definition lit (s : string) : regex :=
  fold_right (fun c r => Seq (Chr (CLit c)) r) Eps (py s).

Fixpoint alts (rs : list regex) : regex :=
  match rs with
  | [] => Eps
  | [r] => r
  | r :: rest => Alt r (alts rest)
  end.

Definition seqs (rs : list regex) : regex := fold_right Seq Eps rs.

Definition star (c : cclass) : regex := Rep c 0 None.
Definition plus (c : cclass) : regex := Rep c 1 None.
Definition opt (c : cclass) : regex := Rep c 0 (Some 1%nat).

(* ================================================================== *)
(** ** [datetime] and [calendar] *)
(* ================================================================== *)

(** A naive [datetime]: the calendar date and the time of day (in
    microseconds since midnight).  The program never reads the time of
    day; it is carried along unchanged. *)
Record datetime := mkdt { year : Z; month : Z; day : Z; tod : Z }.

Definition MINYEAR : Z := 1.
Definition MAXYEAR : Z := 9999.
Definition _MAXORDINAL : Z := 3652059.

Definition _is_leap (y : Z) : bool :=
  (y mod 4 =? 0) && (negb (y mod 100 =? 0) || (y mod 400 =? 0)).

Definition _DAYS_IN_MONTH (m : Z) : Z :=
  match m with
  | 1 => 31 | 2 => 28 | 3 => 31 | 4 => 30 | 5 => 31 | 6 => 30
  | 7 => 31 | 8 => 31 | 9 => 30 | 10 => 31 | 11 => 30 | 12 => 31
  | _ => -1
  end.

Definition _DAYS_BEFORE_MONTH (m : Z) : Z :=
  match m with
  | 1 => 0 | 2 => 31 | 3 => 59 | 4 => 90 | 5 => 120 | 6 => 151
  | 7 => 181 | 8 => 212 | 9 => 243 | 10 => 273 | 11 => 304 | 12 => 334
  | _ => -1
  end.

Definition _days_before_year (y : Z) : Z :=
  let y := y - 1 in y * 365 + y / 4 - y / 100 + y / 400.

Definition _days_in_month (y m : Z) : Z :=
  if (m =? 2) && _is_leap y then 29 else _DAYS_IN_MONTH m.

Definition _days_before_month (y m : Z) : Z :=
  _DAYS_BEFORE_MONTH m + (if (2 <? m) && _is_leap y then 1 else 0).

Definition _ymd2ord (y m d : Z) : Z :=
  _days_before_year y + _days_before_month y m + d.

Definition _DI400Y : Z := 146097.
Definition _DI100Y : Z := 36524.
Definition _DI4Y : Z := 1461.

Definition _ord2ymd (n : Z) : Z * Z * Z :=
  let n := n - 1 in
  let n400 := n / _DI400Y in
  let n := n mod _DI400Y in
  let y := n400 * 400 + 1 in
  let n100 := n / _DI100Y in
  let n := n mod _DI100Y in
  let n4 := n / _DI4Y in
  let n := n mod _DI4Y in
  let n1 := n / 365 in
  let n := n mod 365 in
  let y := y + n100 * 100 + n4 * 4 + n1 in
  if (n1 =? 4) || (n100 =? 4) then (y - 1, 12, 31)
  else
    let leapyear := (n1 =? 3) && (negb (n4 =? 24) || (n100 =? 3)) in
    let m := Z.shiftr (n + 50) 5 in
    let preceding :=
      _DAYS_BEFORE_MONTH m + (if (2 <? m) && leapyear then 1 else 0) in
    if n <? preceding then
      let m := m - 1 in
      let preceding :=
        preceding - (_DAYS_IN_MONTH m + (if (m =? 2) && leapyear then 1 else 0)) in
      (y, m, n - preceding + 1)
    else (y, m, n - preceding + 1).

(** what [datetime(...)] checks of its date fields *)
Definition valid_ymd (y m d : Z) : bool :=
  (MINYEAR <=? y) && (y <=? MAXYEAR) && (1 <=? m) && (m <=? 12)
  && (1 <=? d) && (d <=? _days_in_month y m).

Definition valid_datetime (t : datetime) : bool :=
  valid_ymd (year t) (month t) (day t).

(** an argument that is converted to a C [int] *)
Definition c_int (x : Z) : bool := (- 2 ^ 31 <=? x) && (x <? 2 ^ 31).

(** [datetime(year, month, day)]: the arguments are converted to C
    [int]s ([OverflowError] when one does not fit), then checked
    ([ValueError]) *)
Definition datetime_new (y m d : Z) : res datetime :=
  if negb (c_int y && c_int m && c_int d) then Raise OverflowError
  else if valid_ymd y m d then Ok (mkdt y m d 0) else Raise ValueError.

Definition toordinal (t : datetime) : Z := _ymd2ord (year t) (month t) (day t).

(** [t.weekday()]: Monday is 0 *)
Definition weekday (t : datetime) : Z := (toordinal t + 6) mod 7.

(** [t + timedelta(days=n)] *)
Definition add_days (t : datetime) (n : Z) : res datetime :=
  let o := toordinal t + n in
  if (0 <? o) && (o <=? _MAXORDINAL)
  then let '(y, m, d) := _ord2ymd o in Ok (mkdt y m d (tod t))
  else Raise OverflowError.

(** [a.date() < b.date()] *)
Definition date_lt (a b : datetime) : bool :=
  (year a <? year b)
  || (year a =? year b)
     && ((month a <? month b) || (month a =? month b) && (day a <? day b)).

(** [a.date() >= b.date()] *)
Definition date_ge (a b : datetime) : bool := negb (date_lt a b).

Definition digit (n : Z) : N := (48 + Z.to_N n)%N.

(** [%Y] as the C library's [strftime] writes it (glibc) for the years
    of a [datetime], 1 to 9999: the decimal digits of the year, not
    padded, so a year below 1000 takes fewer than four characters *)
Definition strftime_Y (y : Z) : str :=
  if y <? 10 then [digit y]
  else if y <? 100 then [digit (y / 10); digit (y mod 10)]
  else if y <? 1000 then
    [digit (y / 100); digit (y / 10 mod 10); digit (y mod 10)]
  else
    [digit (y / 1000); digit (y / 100 mod 10); digit (y / 10 mod 10);
     digit (y mod 10)].

(** [t.strftime("%Y-%m-%d")]: [%m] and [%d] are two digits each *)
Definition strftime_ymd (t : datetime) : str :=
  strftime_Y (year t)
  ++ [45%N; digit (month t / 10); digit (month t mod 10); 45%N;
      digit (day t / 10); digit (day t mod 10)].

(** [calendar.monthrange(year, month)[1]] *)
Definition mdays (m : Z) : Z :=
  match m with
  | 1 => 31 | 2 => 28 | 3 => 31 | 4 => 30 | 5 => 31 | 6 => 30
  | 7 => 31 | 8 => 31 | 9 => 30 | 10 => 31 | 11 => 30 | 12 => 31
  | _ => 0
  end.

Definition monthrange_ndays (y m : Z) : res Z :=
  if (1 <=? m) && (m <=? 12)
  then Ok (mdays m + (if (m =? 2) && _is_leap y then 1 else 0))
  else Raise IllegalMonthError.

(** [datetime.strptime(s, "%Y-%m-%d")]: the pattern [_strptime] builds
    for this format,
    [(\d\d\d\d)-(1[0-2]|0[1-9]|[1-9])-(3[01]|[12]\d|0[1-9]|[1-9]| [1-9])],
    matched at the start; unconverted data or field values that are no
    date raise [ValueError]. *)
Definition d19 : cclass := CRange 49 57.

Definition strptime_re : regex :=
  seqs [ Group 1 (seqs [Chr CDigit; Chr CDigit; Chr CDigit; Chr CDigit]);
         lit "-";
         Group 2 (alts [ Seq (lit "1") (Chr (CRange 48 50));
                         Seq (lit "0") (Chr d19);
                         Chr d19 ]);
         lit "-";
         Group 3 (alts [ Seq (lit "3") (Chr (CRange 48 49));
                         Seq (Chr (CRange 49 50)) (Chr CDigit);
                         Seq (lit "0") (Chr d19);
                         Chr d19;
                         Seq (lit " ") (Chr d19) ]) ].

Definition strptime_ymd `{Unicode} (s : str) : res datetime :=
  match re_match strptime_re s with
  | Some (caps, []) =>
      match group caps 1, group caps 2, group caps 3 with
      | Some gy, Some gm, Some gd =>
          match py_int gy, py_int gm, py_int gd with
          | Some y, Some m, Some d => datetime_new y m d
          | _, _, _ => Raise ValueError
          end
      | _, _, _ => Raise ValueError
      end
  | _ => Raise ValueError
  end.

(** The [dateparser] library: [dateparser.parse(text, languages=['es'],
    settings={..., 'RELATIVE_BASE': base})].  [prefer_future] tells the
    two settings the program uses apart.  A returned [datetime] is a
    real one. *)
Class DateParser := {
  dateparser_parse : forall (prefer_future : bool) (text : str) (base : datetime),
      option datetime;
  dateparser_valid : forall pf text base t,
      dateparser_parse pf text base = Some t -> valid_datetime t = true
}.

(* ================================================================== *)
(** ** [difflib.SequenceMatcher(None, a, b).ratio()] *)
(* ================================================================== *)

Local Open Scope nat_scope.

(** [autojunk]: in a [b] of 200 elements or more, an element that
    occurs more than [len(b) // 100 + 1] times is dropped from [b2j]. *)
Definition popular (b : str) (y : N) : bool :=
  (200 <=? length b) && (length b / 100 + 1 <? count_occ N.eq_dec b y).

(** One pass of the inner loop of [find_longest_match] for [a[i] = x]:
    [prev] is [j2len] as a row over the positions of [b] (0 where the
    dict has no entry), [pm1] its value at [j - 1]; returns the new
    row and the best block so far. *)
Fixpoint lm_row (b0 : str) (x : N) (i blo bhi j : nat) (bs : str)
    (prev : list nat) (pm1 : nat) (best : nat * nat * nat)
    : list nat * (nat * nat * nat) :=
  match bs with
  | [] => ([], best)
  | y :: bs' =>
      let pj := hd 0 prev in
      if (y =? x)%N && negb (popular b0 y) && (blo <=? j) && (j <? bhi) then
        let k := pm1 + 1 in
        let best' :=
          let '(_, _, bestsize) := best in
          if bestsize <? k then (i + 1 - k, j + 1 - k, k) else best in
        let '(row, out) := lm_row b0 x i blo bhi (S j) bs' (tl prev) pj best' in
        (k :: row, out)
      else
        let '(row, out) := lm_row b0 x i blo bhi (S j) bs' (tl prev) pj best in
        (0 :: row, out)
  end.

(** the outer loop, over [i] in [range(alo, ahi)]; [as_] is [a[i:]] *)
Fixpoint lm_rows (b : str) (blo bhi : nat) (i : nat) (n : nat) (as_ : str)
    (prev : list nat) (best : nat * nat * nat) : nat * nat * nat :=
  match n, as_ with
  | S n', x :: as' =>
      let '(row, best') := lm_row b x i blo bhi 0 b prev 0 best in
      lm_rows b blo bhi (S i) n' as' row best'
  | _, _ => best
  end.

(** the first [while]: extend the block to the left *)
Fixpoint extend_left (a b : str) (alo blo besti bestj bestsize : nat)
    {struct besti} : nat * nat * nat :=
  match besti, bestj with
  | S i', S j' =>
      if (alo <? besti) && (blo <? bestj) && (nth i' a 0 =? nth j' b 0)%N
      then extend_left a b alo blo i' j' (S bestsize)
      else (besti, bestj, bestsize)
  | _, _ => (besti, bestj, bestsize)
  end.

(** the second [while]: extend it to the right; [fuel] is
    [ahi - (besti + bestsize)], the number of times its guard can hold *)
Fixpoint extend_right (a b : str) (ahi bhi besti bestj bestsize fuel : nat)
    : nat :=
  match fuel with
  | O => bestsize
  | S f =>
      if (besti + bestsize <? ahi) && (bestj + bestsize <? bhi)
         && (nth (besti + bestsize) a 0 =? nth (bestj + bestsize) b 0)%N
      then extend_right a b ahi bhi besti bestj (S bestsize) f
      else bestsize
  end.

(** [find_longest_match(alo, ahi, blo, bhi)] with no junk predicate *)
Definition find_longest_match (a b : str) (alo ahi blo bhi : nat)
    : nat * nat * nat :=
  let '(besti, bestj, bestsize) :=
    lm_rows b blo bhi alo (ahi - alo) (skipn alo a) [] (alo, blo, 0) in
  let '(besti, bestj, bestsize) :=
    extend_left a b alo blo besti bestj bestsize in
  (besti, bestj,
   extend_right a b ahi bhi besti bestj bestsize (ahi - (besti + bestsize))).

(** The sum of the sizes of [get_matching_blocks()]: the longest block
    of the range, then the ranges to its left and to its right.  (The
    source works through a queue of ranges; the sum does not depend on
    the order.)  One unit of [fuel] per nesting level. *)
Fixpoint matching_size (fuel : nat) (a b : str) (alo ahi blo bhi : nat) : nat :=
  match fuel with
  | O => 0
  | S f =>
      let '(i, j, k) := find_longest_match a b alo ahi blo bhi in
      if k =? 0 then 0
      else k
           + (if (alo <? i) && (blo <? j)
              then matching_size f a b alo i blo j else 0)
           + (if (i + k <? ahi) && (j + k <? bhi)
              then matching_size f a b (i + k) ahi (j + k) bhi else 0)
  end.

Definition matches (a b : str) : nat :=
  matching_size (length a) a b 0 (length a) 0 (length b).

(** [ratio()]: [2.0 * matches / length], or [1.0] for two empty
    sequences.  The float is the correctly rounded value of this
    rational, and comparing two such floats, or one with 0.75, agrees
    with comparing the rationals for sequences shorter than 2^26. *)
Definition ratio (a b : str) : Q :=
  let len := length a + length b in
  match len with
  | O => 1%Q
  | S _ => (Z.of_nat (2 * matches a b) # Pos.of_nat len)%Q
  end.

Local Close Scope nat_scope.

(* ================================================================== *)
(** ** [nexus_local.py] *)
(* ================================================================== *)

Definition STOPWORDS_ES : list str := map py
  [ "el"; "la"; "de"; "que"; "y"; "a"; "en"; "un"; "ser"; "se";
    "no"; "haber"; "por"; "con"; "su"; "para"; "es"; "o"; "como";
    "estar"; "tener"; "le"; "lo"; "todo"; "pero"; "más"; "hacer";
    "poder"; "decir"; "este"; "ir"; "otro"; "ese"; "esta"; "son";
    "los"; "las"; "del"; "al"; "desde"; "hasta"; "me"; "te"; "nos" ]%string.

(** key, then ["nombre"] and ["variantes"], in declaration order *)
Definition DICCIONARIO_MATERIAS_MEJORADO : list (str * (str * list str)) :=
  [ (py "web", (py "Aplicaciones Web y Móviles", map py
       [ "web"; "móvil"; "mobile"; "app"; "webapp"; "aplicación";
         "frontend"; "backend"; "react"; "angular" ]%string));
    (py "bi", (py "Inteligencia de negocios", map py
       [ "bi"; "negocios"; "inteligencia"; "analytics"; "datos"; "data";
         "tableau"; "powerbi"; "business" ]%string));
    (py "realidad", (py "Realidad Nacional", map py
       [ "realidad"; "nacional"; "sociedad"; "contexto" ]%string));
    (py "distribuidas", (py "Aplicaciones distribuidas", map py
       [ "distribuidas"; "distribuido"; "microservicios"; "cloud";
         "kubernetes"; "docker" ]%string));
    (py "gestión", (py "Gestión de prueba e implantación", map py
       [ "gestión"; "gestion"; "prueba"; "qa"; "testing"; "implantación";
         "deployment" ]%string));
    (py "inglés", (py "Inglés B1+", map py
       [ "inglés"; "ingles"; "english"; "b1" ]%string)) ].

(** a [str] in a condition: true unless empty *)
Definition truthy (s : str) : bool :=
  match s with [] => false | _ => true end.

Fixpoint assoc {V} (k : str) (d : list (str * V)) : option V :=
  match d with
  | [] => None
  | (k', v) :: r => if str_eqb k k' then Some v else assoc k r
  end.

(** [tokens.index(palabra)] *)
Fixpoint index_of (x : str) (l : list str) : option nat :=
  match l with
  | [] => None
  | y :: r => if str_eqb y x then Some O else option_map S (index_of x r)
  end.

(** [range(lo, hi)] *)
Definition range (lo hi : Z) : list Z :=
  map (fun k => lo + Z.of_nat k) (seq 0 (Z.to_nat (hi - lo))).

Definition Qgt_bool (a b : Q) : bool := negb (Qle_bool a b).

(** [max(m :: ms, key=lambda x: x[1])]: the first of the largest *)
Fixpoint max_by_snd {A} (best : A * Q) (l : list (A * Q)) : A * Q :=
  match l with
  | [] => best
  | x :: r => if Qgt_bool (snd x) (snd best) then max_by_snd x r
              else max_by_snd best r
  end.

Section Lenguaje.
Context `{Unicode}.

Definition normalizar_texto (texto : str) : str :=
  let texto := delete_chars punctuation texto in
  let texto := strip (collapse_spaces false texto) in
  str_lower texto.

Definition tokenizar (texto : str) : list str :=
  let texto_limpio := normalizar_texto texto in
  split texto_limpio.

Definition remover_stopwords (tokens : list str) : list str :=
  filter (fun t => negb (str_in t STOPWORDS_ES)) tokens.

Definition negaciones : list str :=
  map py [ "no"; "nunca"; "jamás"; "nada"; "ni" ]%string.

Definition tiene_negacion (tokens : list str) (palabra : str) (ventana : Z)
    : bool :=
  match index_of palabra tokens with
  | None => false
  | Some idx =>
      let idx := Z.of_nat idx in
      let inicio := Z.max 0 (idx - ventana) in
      let fin := Z.min (Z.of_nat (length tokens)) (idx + ventana) in
      existsb (fun i => str_in (nth (Z.to_nat i) tokens []) negaciones)
              (range inicio fin)
  end.

Definition similitud (entrada_norm opcion : str) : Q :=
  ratio entrada_norm (normalizar_texto opcion).

Definition buscar_concepto_fuzzy (entrada : str) (opciones : list str)
    (umbral : Q) : option str :=
  let entrada_norm := normalizar_texto entrada in
  let mejores :=
    filter (fun m => Qle_bool umbral (snd m))
           (map (fun opcion => (opcion, similitud entrada_norm opcion))
                opciones) in
  match mejores with
  | m :: ms => Some (fst (max_by_snd m ms))
  | [] => None
  end.
End Lenguaje.

(** *** Dates *)

Definition _clamp_day (y m d : Z) : res Z :=
  last <- monthrange_ndays y m ;;
  Ok (Z.min d last).

Definition _safe_date (y m d : Z) : res datetime :=
  d <- _clamp_day y m d ;;
  datetime_new y m d.

(** the local [dias_es] of [_obtener_proximo_dia_semana] *)
Definition dias_es_indice : list (str * Z) :=
  [ (py "lunes", 0); (py "martes", 1); (py "miercoles", 2);
    (py "miércoles", 2); (py "jueves", 3); (py "viernes", 4);
    (py "sabado", 5); (py "sábado", 5); (py "domingo", 6) ].

Definition dias_adelante_de (dia_objetivo dia_actual : Z) (proxima_semana : bool)
    : Z :=
  let dias_adelante := (dia_objetivo - dia_actual) mod 7 in
  if proxima_semana then
    if dias_adelante =? 0 then 7 else dias_adelante + 7
  else
    if dias_adelante =? 0 then 0 else dias_adelante.

Definition _obtener_proximo_dia_semana (nombre_dia : str) (ahora : datetime)
    (proxima_semana : bool) : res (option datetime) :=
  match assoc nombre_dia dias_es_indice with
  | None => Ok None
  | Some dia_objetivo =>
      let dia_actual := weekday ahora in
      t <- add_days ahora (dias_adelante_de dia_objetivo dia_actual proxima_semana) ;;
      Ok (Some t)
  end.

Inductive tipo_patron := explicita | relativa | dia_semana.

Definition patron_explicita : regex :=
  seqs [ Group 1 (Rep CDigit 1 (Some 2%nat)); star CSpace; lit "de";
         plus CSpace; Group 2 (plus CWord) ].

Definition patron_relativa_en : regex :=
  seqs [ lit "en"; plus CSpace; Group 1 (plus CDigit); plus CSpace;
         Group 2 (alts [ Seq (lit "semana") (opt (CLit 115));
                         Seq (lit "día") (opt (CLit 115));
                         Seq (lit "hora") (opt (CLit 115));
                         Seq (lit "mese") (opt (CLit 115)) ]) ].

Definition patron_relativa_dia : regex :=
  seqs [ WordBoundary;
         Group 1 (alts [ lit "mañana"; lit "hoy";
                         seqs [lit "pasado"; plus CSpace; lit "mañana"];
                         lit "ayer" ]);
         WordBoundary ].

Definition patron_dia_semana : regex :=
  seqs [ Group 1 (alts [ lit "próximo"; lit "proximo"; lit "siguiente";
                         lit "este" ]);
         plus CSpace;
         Group 2 (alts [ lit "lunes"; lit "martes"; lit "miercoles";
                         lit "miércoles"; lit "jueves"; lit "viernes";
                         lit "sabado"; lit "sábado"; lit "domingo" ]) ].

(** each pattern with its number of groups and its kind *)
Definition patrones : list (regex * nat * tipo_patron) :=
  [ (patron_explicita, 2%nat, explicita);
    (patron_relativa_en, 2%nat, relativa);
    (patron_relativa_dia, 1%nat, relativa);
    (patron_dia_semana, 2%nat, dia_semana) ].

Definition meses_es : list (str * Z) :=
  [ (py "enero", 1); (py "febrero", 2); (py "marzo", 3); (py "abril", 4);
    (py "mayo", 5); (py "junio", 6); (py "julio", 7); (py "agosto", 8);
    (py "septiembre", 9); (py "octubre", 10); (py "noviembre", 11);
    (py "diciembre", 12) ].

Definition dias_es : list str := map py
  [ "lunes"; "martes"; "miercoles"; "miércoles"; "jueves"; "viernes";
    "sabado"; "sábado"; "domingo" ]%string.

(** the output dict *)
Record tarea := mk_tarea {
  nombre : str; fecha : str; tipo : str; prioridad : str; materia : str
}.

Definition umbral_defecto : Q := 3 # 4.

Section Fechas.
Context `{Unicode} `{DateParser} `{Stdout}.

(** The candidates of [_pedir_confirmacion_fecha]. *)
Definition fecha_este_de (fecha_actual ahora : datetime) : option datetime :=
  attempt (_safe_date (year ahora) (month ahora) (day fecha_actual)).

Definition fecha_proximo_de (fecha_actual ahora : datetime) : res datetime :=
  let next_month := month ahora + 1 in
  let next_year := year ahora in
  if next_month =? 13
  then _safe_date (next_year + 1) 1 (day fecha_actual)
  else _safe_date next_year next_month (day fecha_actual).

(** [fmt = lambda d: d.strftime("%Y-%m-%d") if d else "N/A"] *)
Definition fmt (d : option datetime) : str :=
  match d with
  | Some d => strftime_ymd d
  | None => py "N/A"
  end.

(** the texts [_pedir_confirmacion_fecha] writes: the three lines it
    prints first, the prompt of [input] and the two lines it prints
    before it asks again *)
Definition msg_confirmacion (texto_original : str) : str :=
  py "Confirmación necesaria para: '" ++ texto_original ++ py "'".

Definition msg_opciones (fecha_este : option datetime) (fecha_proximo : datetime)
    : str :=
  py "Opciones: 1) este mes -> " ++ fmt fecha_este
  ++ py "   2) próximo mes -> " ++ fmt (Some fecha_proximo).

Definition msg_responde : str :=
  py "Responde: 'este' / 'próximo' / o escribe otra fecha en formato YYYY-MM-DD".

Definition msg_eleccion : str := py "Tu elección: ".

Definition msg_no_posible : str :=
  py "No es posible usar esa fecha. Elige otra opción.".

Definition msg_no_entendi : str :=
  py "No entendí la respuesta. Responde 'este', 'próximo' o YYYY-MM-DD.".

(** The [while True] loop: one line of standard input per round.
    [input(prompt)] writes the prompt and reads a line; it raises
    [EOFError] when there is none left. *)
Fixpoint preguntar (fecha_este : option datetime) (fecha_proximo ahora : datetime)
    (entrada : list str) : res (datetime * list str) :=
  _ <- print msg_eleccion ;;
  match entrada with
  | [] => Raise EOFError
  | linea :: entrada =>
      let resp := str_lower (strip linea) in
      if str_in resp [py "este"; py "este mes"] then
        match fecha_este with
        | Some f =>
            if date_ge f ahora then Ok (f, entrada)
            else
              _ <- print msg_no_posible ;;
              preguntar fecha_este fecha_proximo ahora entrada
        | None =>
            _ <- print msg_no_posible ;;
            preguntar fecha_este fecha_proximo ahora entrada
        end
      else if str_in resp [py "próximo"; py "proximo"; py "siguiente";
                           py "próximo mes"] then
        Ok (fecha_proximo, entrada)
      else
        match strptime_ymd resp with
        | Ok fecha_usuario => Ok (fecha_usuario, entrada)
        | Raise _ =>
            match dateparser_parse false resp ahora with
            | Some fecha_parse => Ok (fecha_parse, entrada)
            | None =>
                _ <- print msg_no_entendi ;;
                preguntar fecha_este fecha_proximo ahora entrada
            end
        end
  end.

Definition _pedir_confirmacion_fecha (texto_original : str)
    (fecha_actual ahora : datetime) (entrada : list str)
    : res (datetime * list str) :=
  let fecha_este := fecha_este_de fecha_actual ahora in
  fecha_proximo <- fecha_proximo_de fecha_actual ahora ;;
  _ <- print (msg_confirmacion texto_original) ;;
  _ <- print (msg_opciones fecha_este fecha_proximo) ;;
  _ <- print msg_responde ;;
  preguntar fecha_este fecha_proximo ahora entrada.

Fixpoint primer_patron (ps : list (regex * nat * tipo_patron)) (texto_min : str)
    : option (list (option str) * tipo_patron) :=
  match ps with
  | [] => None
  | (patron, n, tipo) :: ps' =>
      match re_search patron texto_min with
      | Some caps => Some (groups n caps, tipo)
      | None => primer_patron ps' texto_min
      end
  end.

Definition extraer_fechas_mejorado (texto : str)
    : option (list (option str) * tipo_patron) :=
  let texto_min := str_lower texto in
  primer_patron patrones texto_min.

(** [PATRÓN 1] of [procesar_logica_negocio] *)
Definition fecha_explicita (texto : str) (ahora : datetime)
    : res (option datetime) :=
  match extraer_fechas_mejorado texto with
  | Some (grupos, explicita) =>
      match nth 0 grupos None, nth 1 grupos None with
      | Some g0, Some mes_nombre =>
          match py_int g0 with
          | None => Raise ValueError
          | Some dia_num =>
              match assoc mes_nombre meses_es with
              | Some mes_num =>
                  let anio := year ahora in
                  let anio :=
                    if (mes_num <? month ahora)
                       || (mes_num =? month ahora) && (dia_num <? day ahora)
                    then anio + 1 else anio in
                  Ok (attempt (_safe_date anio mes_num dia_num))
              | None => Ok None
              end
          end
      | _, _ => Raise TypeError
      end
  | _ => Ok None
  end.

(** the [for dia in dias_es: if dia in texto_min: ... break] of
    [PATRÓN 2] and [PATRÓN 3] *)
Definition fecha_dia_semana (fecha_dt : option datetime) (claves : list str)
    (texto_min : str) (ahora : datetime) (proxima_semana : bool)
    : res (option datetime) :=
  match fecha_dt with
  | Some _ => Ok fecha_dt
  | None =>
      if existsb (fun kw => contains kw texto_min) claves then
        match find (fun dia => contains dia texto_min) dias_es with
        | Some dia => _obtener_proximo_dia_semana dia ahora proxima_semana
        | None => Ok None
        end
      else Ok None
  end.

(** section 4 of [procesar_logica_negocio], up to the default *)
Definition resolver_fecha (texto : str) (ahora : datetime) : res datetime :=
  let texto_min := str_lower texto in
  fecha_dt <- fecha_explicita texto ahora ;;
  fecha_dt <- fecha_dia_semana fecha_dt
                [py "próximo"; py "proximo"; py "siguiente"]
                texto_min ahora true ;;
  fecha_dt <- fecha_dia_semana fecha_dt [py "este"; py "este semana"]
                texto_min ahora false ;;
  let fecha_dt :=
    match fecha_dt with
    | Some _ => fecha_dt
    | None => dateparser_parse true texto_min ahora
    end in
  match fecha_dt with
  | Some f => Ok f
  | None => add_days ahora 1
  end.
End Fechas.

(** *** The interpreter *)

Definition tipos_disponibles : list str :=
  map py [ "examen"; "proyecto"; "deber"; "entrega"; "taller" ]%string.

Definition tipos_palabras_clave : list (str * list str) :=
  [ (py "examen", map py [ "examen"; "prueba"; "test"; "parcial"; "final";
                           "evaluación"; "quiz"; "exam" ]%string);
    (py "proyecto", map py [ "proyecto"; "trabajo"; "investigación"; "paper";
                             "trabajo final" ]%string);
    (py "entrega", map py [ "entrega"; "foro"; "submission"; "entregar" ]%string);
    (py "taller", map py [ "taller"; "workshop"; "práctica" ]%string) ].

Definition palabras_urgentes : list str := map py
  [ "urgente"; "importante"; "prioridad"; "crítico"; "critico"; "urge";
    "asap" ]%string.

Definition palabras_bajas : list str := map py
  [ "suave"; "bajo"; "fácil"; "facil"; "simple"; "fácilmente";
    "facilmente" ]%string.

(** [any(p in tokens for p in palabras)] *)
Definition alguna_en (palabras tokens : list str) : bool :=
  existsb (fun p => str_in p tokens) palabras.

Section Interprete.
Context `{Unicode} `{DateParser} `{Stdout}.

(** 1. MATERIAS, exact phase *)
Fixpoint materia_exacta (dic : list (str * (str * list str)))
    (tokens_clean : list str) : str :=
  match dic with
  | [] => []
  | (_, (nombre, variantes)) :: dic' =>
      if alguna_en variantes tokens_clean then nombre
      else materia_exacta dic' tokens_clean
  end.

Definition todas_variantes : list str :=
  flat_map (fun e => snd (snd e)) DICCIONARIO_MATERIAS_MEJORADO.

(** the subject whose variants hold [encontrado] *)
Fixpoint materia_de_variante (dic : list (str * (str * list str)))
    (encontrado : str) : str :=
  match dic with
  | [] => []
  | (_, (nombre, variantes)) :: dic' =>
      if str_in encontrado variantes then nombre
      else materia_de_variante dic' encontrado
  end.

(** 1. MATERIAS, fuzzy phase *)
Fixpoint materia_fuzzy (tokens_clean : list str) : str :=
  match tokens_clean with
  | [] => []
  | token :: resto =>
      let materia_final :=
        match buscar_concepto_fuzzy token todas_variantes umbral_defecto with
        | Some encontrado =>
            if truthy encontrado
            then materia_de_variante DICCIONARIO_MATERIAS_MEJORADO encontrado
            else []
        | None => []
        end in
      if truthy materia_final then materia_final else materia_fuzzy resto
  end.

Definition materia_de (tokens_clean : list str) : str :=
  let materia_final :=
    materia_exacta DICCIONARIO_MATERIAS_MEJORADO tokens_clean in
  if negb (truthy materia_final) then materia_fuzzy tokens_clean
  else materia_final.

(** 2. TIPOS, keyword phase *)
Fixpoint tipo_clave (claves : list (str * list str)) (tokens_clean : list str)
    : str :=
  match claves with
  | [] => py "Deber"
  | (tipo_nombre, palabras) :: claves' =>
      if alguna_en palabras tokens_clean then str_capitalize tipo_nombre
      else tipo_clave claves' tokens_clean
  end.

(** 2. TIPOS, fuzzy phase *)
Fixpoint tipo_fuzzy (tokens_clean : list str) : str :=
  match tokens_clean with
  | [] => py "Deber"
  | token :: resto =>
      match buscar_concepto_fuzzy token tipos_disponibles umbral_defecto with
      | Some encontrado =>
          if truthy encontrado then str_capitalize encontrado
          else tipo_fuzzy resto
      | None => tipo_fuzzy resto
      end
  end.

Definition tipo_de (tokens_clean : list str) : str :=
  let tipo := tipo_clave tipos_palabras_clave tokens_clean in
  if str_eqb tipo (py "Deber") then tipo_fuzzy tokens_clean else tipo.

(** 3. PRIORIDAD *)
Definition prioridad_de (tokens tokens_clean : list str) : str :=
  let prioridad := py "Media" in
  let prioridad :=
    if alguna_en palabras_urgentes tokens_clean then
      if negb (tiene_negacion tokens (py "urgente") 3)
         && negb (tiene_negacion tokens (py "importante") 3)
      then py "Alta" else prioridad
    else prioridad in
  if str_eqb prioridad (py "Media") && alguna_en palabras_bajas tokens_clean
  then py "Baja" else prioridad.

(** [procesar_logica_negocio(texto)], with the clock reading [ahora]
    of [datetime.now()] and the lines [entrada] waiting on standard
    input; it returns the dict and the lines left unread. *)
Definition procesar_logica_negocio (texto : str) (ahora : datetime)
    (entrada : list str) : res (tarea * list str) :=
  let tokens := tokenizar texto in
  let tokens_clean := remover_stopwords tokens in
  let materia_final := materia_de tokens_clean in
  let tipo := tipo_de tokens_clean in
  let prioridad := prioridad_de tokens tokens_clean in
  fecha_dt <- resolver_fecha texto ahora ;;
  r <- (if date_lt fecha_dt ahora
        then _pedir_confirmacion_fecha texto fecha_dt ahora entrada
        else Ok (fecha_dt, entrada)) ;;
  let '(fecha_dt, entrada) := r in
  Ok ({| nombre := str_capitalize texto;
         fecha := strftime_ymd fecha_dt;
         tipo := tipo;
         prioridad := prioridad;
         materia := materia_final |}, entrada).
End Interprete.

(** *** The page sent to Notion *)

(** the values of the [propiedades] dict of [enviar_a_notion] *)
Inductive propiedad :=
| title (content : str)    (** [{"title": [{"text": {"content": _}}]}] *)
| date (start : str)       (** [{"date": {"start": _}}] *)
| select (name : str).     (** [{"select": {"name": _}}] *)

(** the [propiedades] dict [enviar_a_notion] posts, in insertion order *)
Definition propiedades (datos : tarea) : list (str * propiedad) :=
  let propiedades :=
    [ (py "Nombre", title (nombre datos));
      (py "Fecha de Entrega", date (fecha datos));
      (py "Prioridad", select (prioridad datos));
      (py "Tipo", select (tipo datos)) ] in
  if truthy (materia datos)
  then propiedades ++ [ (py "Materia", select (materia datos)) ]
  else propiedades.

(* ================================================================== *)
(** ** Definitions used in the statements and proofs *)
(* ================================================================== *)

(** CPython's character tables on U+0000 to U+00FF, which hold all the
    characters of the program's own tables; code points beyond are left
    alone. *)
Definition latin1_lower (c : N) : N :=
  if ((65 <=? c) && (c <=? 90)
      || (192 <=? c) && (c <=? 222) && negb (c =? 215))%N
  then (c + 32)%N else c.

Definition latin1_title (c : N) : str :=
  if ((97 <=? c) && (c <=? 122)
      || (224 <=? c) && (c <=? 254) && negb (c =? 247))%N
  then [(c - 32)%N]
  else if (c =? 255)%N then [376%N]
  else if (c =? 181)%N then [924%N]
  else if (c =? 223)%N then [83%N; 115%N]
  else [c].

Definition latin1_capitalize (s : str) : str :=
  match s with
  | [] => []
  | c :: r => latin1_title c ++ map latin1_lower r
  end.

Definition latin1_word (c : N) : bool :=
  (ascii_word c || (c =? 170) || (c =? 178) || (c =? 179) || (c =? 181)
   || (c =? 185) || (c =? 186) || (188 <=? c) && (c <=? 190)
   || (192 <=? c) && (c <=? 255) && negb (c =? 215) && negb (c =? 247))%N.

(** equality of strings is decidable *)
Definition str_dec : forall a b : str, {a = b} + {a <> b} := list_eq_dec N.eq_dec.

(** The window as the specification words it: a negation word within
    [ventana] positions before or after the first occurrence. *)
Definition negacion_cerca_spec (tokens : list str) (palabra : str) (ventana : Z)
    : bool :=
  match index_of palabra tokens with
  | None => false
  | Some idx =>
      existsb (fun i => (Z.abs (i - Z.of_nat idx) <=? ventana)
                        && str_in (nth (Z.to_nat i) tokens []) negaciones)
              (range 0 (Z.of_nat (length tokens)))
  end.

(** a clock reading for the examples: Sunday 1 March 2026, 10:00 *)
Definition domingo_1_marzo : datetime := mkdt 2026 3 1 36000000000.

(** a block [(i, j, k)] inside [a[alo:ahi]] and [b[blo:bhi]] *)
Definition block_in (alo ahi blo bhi : nat) (blk : nat * nat * nat) : Prop :=
  let '(i, j, k) := blk in
  (alo <= i /\ i + k <= ahi /\ blo <= j /\ j + k <= bhi)%nat.

(** a row of [j2len], from position [j] on, after [d] elements of [a] *)
Definition row_in (blo d j : nat) (row : list nat) : Prop :=
  forall t, (nth t row 0 <= d /\ nth t row 0 <= j + t + 1 - blo)%nat.

(** the part of [normalizar_texto] before [lower()] *)
Definition limpiar (texto : str) : str :=
  strip (collapse_spaces false (delete_chars punctuation texto)).

(** the second half of [_ord2ymd]: month and day of the [n]-th day
    (from 0) of a year *)
Definition md_of_yday (leapyear : bool) (n : Z) : Z * Z :=
  let m := Z.shiftr (n + 50) 5 in
  let preceding :=
    _DAYS_BEFORE_MONTH m + (if (2 <? m) && leapyear then 1 else 0) in
  if n <? preceding then
    let m := m - 1 in
    let preceding :=
      preceding - (_DAYS_IN_MONTH m + (if (m =? 2) && leapyear then 1 else 0)) in
    (m, n - preceding + 1)
  else (m, n - preceding + 1).

(** [_days_in_month] with the leap flag as an argument *)
Definition dim_l (l : bool) (m : Z) : Z :=
  if (m =? 2) && l then 29 else _DAYS_IN_MONTH m.

(** [_days_before_month] with the leap flag as an argument *)
Definition dbm_l (l : bool) (m : Z) : Z :=
  _DAYS_BEFORE_MONTH m + (if (2 <? m) && l then 1 else 0).

(** what [md_of_yday] has to satisfy on the [n]-th day of a year *)
Definition md_ok (l : bool) (n : Z) : bool :=
  let '(m, d) := md_of_yday l n in
  (1 <=? m) && (m <=? 12) && (1 <=? d) && (d <=? dim_l l m)
  && (dbm_l l m + d =? n + 1).

(** [ymd] is a date of ordinal [n] *)
Definition ymd_ok (n : Z) (ymd : Z * Z * Z) : Prop :=
  let '(y, m, d) := ymd in
  1 <= y /\ 1 <= m <= 12 /\ 1 <= d <= _days_in_month y m /\ _ymd2ord y m d = n.

Definition months : list Z := range 1 13.

(** a date of the proleptic Gregorian calendar, year range aside *)
Definition civil (y m d : Z) : Prop :=
  1 <= m <= 12 /\ 1 <= d <= _days_in_month y m.

(** the order of [date] objects *)
Definition lex_lt (y1 m1 d1 y2 m2 d2 : Z) : Prop :=
  y1 < y2 \/ y1 = y2 /\ (m1 < m2 \/ m1 = m2 /\ d1 < d2).

(** [None] or a real [datetime] *)
Definition valid_opt (o : option datetime) : Prop :=
  forall f, o = Some f -> valid_datetime f = true.

(** the month after the one of [ahora], as [_pedir_confirmacion_fecha]
    computes it *)
Definition mes_siguiente (ahora : datetime) : Z * Z :=
  if month ahora =? 12 then (year ahora + 1, 1)
  else (year ahora, month ahora + 1).

Definition is_digit_char (c : N) : bool := ((48 <=? c) && (c <=? 57))%N.

(** [YYYY-MM-DD]: ten characters, digits around two hyphens *)
Definition formato_iso (s : str) : bool :=
  match s with
  | [y1; y2; y3; y4; h1; m1; m2; h2; d1; d2] =>
      forallb is_digit_char [y1; y2; y3; y4; m1; m2; d1; d2]
      && (h1 =? 45)%N && (h2 =? 45)%N
  | _ => false
  end.

Definition valor (c : N) : Z := Z.of_N c - 48.

(** the year, month and day a [YYYY-MM-DD] string shows *)
Definition campos_iso (s : str) : Z * Z * Z :=
  match s with
  | [y1; y2; y3; y4; _; m1; m2; _; d1; d2] =>
      (valor y1 * 1000 + valor y2 * 100 + valor y3 * 10 + valor y4,
       valor m1 * 10 + valor m2, valor d1 * 10 + valor d2)
  | _ => (0, 0, 0)
  end.

(** a surrogate code point, which UTF-8 does not encode *)
Definition es_surrogate (c : N) : bool := ((55296 <=? c) && (c <=? 57343))%N.

(** [sys.stdout] with the encoding UTF-8 and with the encoding ASCII,
    both with the error handler [strict] *)
Definition utf8_encodes (s : str) : bool :=
  forallb (fun c => negb (es_surrogate c)) s.


(** what [_pedir_confirmacion_fecha] writes before it reads the first
    line *)
Definition avisos (texto_original : str) (fecha_actual ahora : datetime)
    : list str :=
  match fecha_proximo_de fecha_actual ahora with
  | Ok fecha_proximo =>
      [ msg_confirmacion texto_original;
        msg_opciones (fecha_este_de fecha_actual ahora) fecha_proximo;
        msg_responde; msg_eleccion ]
  | Raise _ => []
  end.

(** A [dateparser] that reads "ayer" as the 28th of February 2026 and
    finds no date in any other text. *)
Definition ayer_2026 (pf : bool) (text : str) (base : datetime)
    : option datetime :=
  if str_eqb text (py "ayer") then Some (mkdt 2026 2 28 0) else None.

(** [c in string.punctuation], by code point *)
Definition is_punct (c : N) : bool :=
  ((33 <=? c) && (c <=? 47) || (58 <=? c) && (c <=? 64)
   || (91 <=? c) && (c <=? 96) || (123 <=? c) && (c <=? 126))%N.

(** an ASCII capital letter *)
Definition is_upper (c : N) : bool := ((65 <=? c) && (c <=? 90))%N.

(** [s.rstrip()], from the left *)
Fixpoint rstrip_rec (s : str) : str :=
  match s with
  | [] => []
  | c :: r =>
      match rstrip_rec r with
      | [] => if isspace c then [] else [c]
      | r' => c :: r'
      end
  end.

(** what [re.sub(r'\s+', ' ', s)] leaves: the only white space is
    single spaces ([b]: the text follows a space) *)
Fixpoint colapsado (b : bool) (s : str) : bool :=
  match s with
  | [] => true
  | c :: r =>
      if isspace c then negb b && (c =? 32)%N && colapsado true r
      else colapsado false r
  end.

(** a token: not empty and free of white space *)
Definition es_token (t : str) : bool :=
  negb (str_eqb t []) && forallb (fun c => negb (isspace c)) t.

(** a character of a token of ASCII text *)
Definition es_limpio (c : N) : bool :=
  is_ascii c && negb (is_punct c) && negb (is_upper c).

(* ================================================================== *)
(** * Properties *)
(* ================================================================== *)

(** ** The environments the examples run in

    [latin1] gives the character tables on U+0000 to U+00FF,
    [sin_fechas] a [dateparser] that never finds a date and [utf8] a
    standard output that writes every string without a lone
    surrogate. *)

Lemma andb_leb_N (a b c : N) :
  ((a <=? c) && (c <=? b))%N = true <-> (a <= c <= b)%N.
Proof. rewrite andb_true_iff, !N.leb_le. tauto. Qed.

Lemma latin1_lower_ascii c : is_ascii c = true -> latin1_lower c = ascii_lower c.
Proof.
  unfold is_ascii, latin1_lower, ascii_lower. intros Hc.
  apply N.ltb_lt in Hc.
  destruct ((65 <=? c) && (c <=? 90))%N eqn:E; [reflexivity|].
  replace (192 <=? c)%N with false; [reflexivity|].
  symmetry. apply N.leb_gt. lia.
Qed.

Lemma isspace_cases c :
  isspace c = true ->
  ((9 <= c <= 13) \/ (28 <= c <= 32) \/ c = 133 \/ c = 160 \/ c = 5760
   \/ (8192 <= c <= 8202) \/ c = 8232 \/ c = 8233 \/ c = 8239 \/ c = 8287
   \/ c = 12288)%N.
Proof.
  unfold isspace. rewrite !orb_true_iff, !andb_leb_N, !N.eqb_eq. tauto.
Qed.

Lemma latin1_lower_space c : isspace c = true -> latin1_lower c = c.
Proof.
  intros Hc. apply isspace_cases in Hc. unfold latin1_lower.
  destruct ((65 <=? c) && (c <=? 90)
            || (192 <=? c) && (c <=? 222) && negb (c =? 215))%N eqn:E;
    [|reflexivity].
  rewrite orb_true_iff, !andb_true_iff, !N.leb_le in E. lia.
Qed.

Lemma latin1_title_ascii c : is_ascii c = true -> latin1_title c = [ascii_upper c].
Proof.
  unfold is_ascii, latin1_title, ascii_upper. intros Hc.
  apply N.ltb_lt in Hc.
  destruct ((97 <=? c) && (c <=? 122))%N eqn:E; [reflexivity|].
  replace (224 <=? c)%N with false by (symmetry; apply N.leb_gt; lia).
  replace (c =? 255)%N with false by (symmetry; apply N.eqb_neq; lia).
  replace (c =? 181)%N with false by (symmetry; apply N.eqb_neq; lia).
  replace (c =? 223)%N with false by (symmetry; apply N.eqb_neq; lia).
  reflexivity.
Qed.

Lemma ascii_digit_range c v : ascii_digit c = Some v -> (v <= 9)%N.
Proof.
  unfold ascii_digit.
  destruct ((48 <=? c) && (c <=? 57))%N eqn:E; [|discriminate].
  apply andb_leb_N in E. intros [= <-]. lia.
Qed.

Lemma ascii_digit_space c : isspace c = true -> ascii_digit c = None.
Proof.
  intros Hc. apply isspace_cases in Hc. unfold ascii_digit.
  destruct ((48 <=? c) && (c <=? 57))%N eqn:E; [|reflexivity].
  apply andb_leb_N in E. lia.
Qed.

Lemma latin1_lower_ascii_str s :
  forallb is_ascii s = true -> map latin1_lower s = map ascii_lower s.
Proof.
  intros Hs. apply map_ext_in. intros c Hc. apply latin1_lower_ascii.
  rewrite forallb_forall in Hs. now apply Hs.
Qed.

Lemma latin1_lower_space_str s :
  forallb isspace s = true -> map latin1_lower s = s.
Proof.
  intros Hs. rewrite <- (map_id s) at 2. apply map_ext_in. intros c Hc.
  apply latin1_lower_space. rewrite forallb_forall in Hs. now apply Hs.
Qed.

Lemma latin1_capitalize_ascii c s :
  forallb is_ascii (c :: s) = true ->
  latin1_capitalize (c :: s) = ascii_upper c :: map ascii_lower s.
Proof.
  intros Hs. cbn in Hs. apply andb_true_iff in Hs as [Hc Hs]. cbn.
  rewrite (latin1_title_ascii c Hc). cbn. f_equal.
  now apply latin1_lower_ascii_str.
Qed.

#[export] Instance latin1 : Unicode := {|
  str_lower := map latin1_lower;
  str_capitalize := latin1_capitalize;
  decimal_value := ascii_digit;
  is_word := latin1_word;
  ieq := fun a c => (latin1_lower a =? latin1_lower c)%N;
  lower_ascii := latin1_lower_ascii_str;
  lower_space := latin1_lower_space_str;
  capitalize_ascii := latin1_capitalize_ascii;
  capitalize_nil := eq_refl;
  decimal_space := ascii_digit_space;
  decimal_range := ascii_digit_range
|}.

(** A [dateparser] that finds no date in any text. *)
#[export] Instance utf8 : Stdout := {| stdout_encodes := utf8_encodes |}.


Lemma sin_fechas_valid (pf : bool) (text : str) (base t : datetime) :
  @None datetime = Some t -> valid_datetime t = true.
Proof. discriminate. Qed.

#[export] Instance sin_fechas : DateParser := {|
  dateparser_parse := fun _ _ _ => None;
  dateparser_valid := sin_fechas_valid
|}.

(** ** Strings and tokens *)

Lemma str_eqb_eq (a b : str) : str_eqb a b = true <-> a = b.
Proof.
  unfold str_eqb. destruct (list_eq_dec N.eq_dec a b); split; congruence.
Qed.

Lemma str_eqb_refl (a : str) : str_eqb a a = true.
Proof. now apply str_eqb_eq. Qed.

Lemma str_in_In (x : str) (xs : list str) : str_in x xs = true <-> In x xs.
Proof.
  unfold str_in. rewrite existsb_exists. split.
  - intros (y & Hy & E). apply str_eqb_eq in E. now subst.
  - intros Hx. exists x. split; [assumption | apply str_eqb_refl].
Qed.

Lemma str_in_false (x : str) (xs : list str) : str_in x xs = false <-> ~ In x xs.
Proof.
  rewrite <- str_in_In. destruct (str_in x xs); split; congruence.
Qed.

(** [remover_stopwords] keeps exactly the tokens outside the set, each
    as often as it occurs. *)
Lemma remover_stopwords_count (tokens : list str) (w : str) :
  count_occ str_dec (remover_stopwords tokens) w =
  if str_in w STOPWORDS_ES then O else count_occ str_dec tokens w.
Proof.
  unfold remover_stopwords.
  induction tokens as [|t tokens IH]; cbn [filter count_occ].
  - now destruct (str_in w STOPWORDS_ES).
  - destruct (str_dec t w) as [->|Hne].
    + destruct (str_in w STOPWORDS_ES) eqn:E; cbn [negb].
      * exact IH.
      * cbn [count_occ]. destruct (str_dec w w); [|congruence]. now rewrite IH.
    + destruct (negb (str_in t STOPWORDS_ES)).
      * cbn [count_occ]. destruct (str_dec t w); [congruence|]. exact IH.
      * exact IH.
Qed.

(** C4, as the code has it: of the five negation words, ["nunca"],
    ["jamás"], ["nada"] and ["ni"] are outside [STOPWORDS_ES] and
    [remover_stopwords] keeps every occurrence of them, while ["no"]
    is a stopword and every occurrence of it is removed. *)
Theorem negaciones_y_stopwords :
  forall w : str,
    In w negaciones ->
    (w <> py "no" ->
       str_in w STOPWORDS_ES = false
       /\ forall tokens,
            count_occ str_dec (remover_stopwords tokens) w
            = count_occ str_dec tokens w)
    /\ (w = py "no" ->
          str_in w STOPWORDS_ES = true
          /\ forall tokens, ~ In w (remover_stopwords tokens)).
Proof.
  intros w Hw. split.
  - intros Hno.
    assert (E : str_in w STOPWORDS_ES = false).
    { cbn in Hw.
      destruct Hw as [<-|[<-|[<-|[<-|[<-|[]]]]]]; try reflexivity.
      now elim Hno. }
    split; [exact E|]. intros tokens.
    now rewrite remover_stopwords_count, E.
  - intros ->. split; [reflexivity|]. intros tokens Hin.
    apply (count_occ_In str_dec) in Hin.
    rewrite remover_stopwords_count in Hin.
    assert (E : str_in (py "no") STOPWORDS_ES = true) by reflexivity.
    rewrite E in Hin. lia.
Qed.

Lemma negaciones_y_stopwords_witness :
  str_in (py "nunca") STOPWORDS_ES = false
  /\ count_occ str_dec
       (remover_stopwords (map py ["no"; "lo"; "hare"; "nunca"]%string))
       (py "nunca") = 1%nat.
Proof.
  assert (Hin : In (py "nunca") negaciones) by (cbn; tauto).
  assert (Hne : py "nunca" <> py "no") by discriminate.
  destruct (negaciones_y_stopwords (py "nunca") Hin) as [H1 _].
  destruct (H1 Hne) as [E C]. split; [exact E|].
  rewrite C. reflexivity.
Defined.

(** C4 as stated fails: ["no"] is one of the negation words, it is in
    the stopword set, and [remover_stopwords] drops it. *)
Lemma no_es_stopword :
  In (py "no") negaciones
  /\ In (py "no") STOPWORDS_ES
  /\ remover_stopwords (map py ["no"; "es"; "urgente"]%string) = [py "urgente"].
Proof.
  split; [cbn; tauto|]. split; [|reflexivity].
  apply str_in_In. reflexivity.
Qed.

(** ** Negation window *)

Lemma In_range (lo hi i : Z) : In i (range lo hi) <-> lo <= i < hi.
Proof.
  unfold range. rewrite in_map_iff. split.
  - intros (k & <- & Hk). apply in_seq in Hk. lia.
  - intros Hi. exists (Z.to_nat (i - lo)). split; [lia|].
    apply in_seq. lia.
Qed.

(** What the code computes: a negation word at one of the positions
    [idx - ventana], ..., [idx + ventana - 1] around the first
    occurrence [idx] of the word. *)
Lemma tiene_negacion_spec (tokens : list str) (palabra : str) (ventana : Z) :
  tiene_negacion tokens palabra ventana = true <->
  exists idx i,
    index_of palabra tokens = Some idx
    /\ Z.of_nat idx - ventana <= Z.of_nat i < Z.of_nat idx + ventana
    /\ (i < length tokens)%nat
    /\ In (nth i tokens []) negaciones.
Proof.
  unfold tiene_negacion. destruct (index_of palabra tokens) as [idx|].
  - rewrite existsb_exists. split.
    + intros (z & Hz & Hneg). apply In_range in Hz. apply str_in_In in Hneg.
      exists idx, (Z.to_nat z). rewrite Z2Nat.id by lia.
      repeat split; try lia; assumption.
    + intros (idx' & i & [= <-] & Hi & Hlen & Hneg).
      exists (Z.of_nat i). split.
      * apply In_range. lia.
      * rewrite Nat2Z.id. now apply str_in_In.
  - split; [discriminate|]. intros (? & ? & ? & _). discriminate.
Qed.

(** C5: on the tokens of "urgente para hoy no" the negation stands three
    positions after the word; the specification's window holds it, the
    code's window [range(idx - 3, idx + 3)] stops one position short. *)
Theorem tiene_negacion_ventana_corta :
  let tokens := tokenizar (py "urgente para hoy no") in
  tokens = map py ["urgente"; "para"; "hoy"; "no"]%string
  /\ index_of (py "urgente") tokens = Some 0%nat
  /\ nth 3 tokens [] = py "no"
  /\ negacion_cerca_spec tokens (py "urgente") 3 = true
  /\ tiene_negacion tokens (py "urgente") 3 = false
  /\ tiene_negacion (rev tokens) (py "urgente") 3 = true.
Proof. vm_compute. repeat split. Qed.

(** ** Title *)

Section Titulo.
Context `{Unicode} `{DateParser} `{Stdout}.

Lemma procesar_nombre (texto : str) (ahora : datetime) (entrada : list str)
    (t : tarea) (resto : list str) :
  procesar_logica_negocio texto ahora entrada = Ok (t, resto) ->
  nombre t = str_capitalize texto.
Proof.
  unfold procesar_logica_negocio, bind.
  destruct (resolver_fecha texto ahora) as [f|e]; [|discriminate].
  destruct (if date_lt f ahora then _ else _) as [[f' e']|e]; [|discriminate].
  intros [= <- _]. reflexivity.
Qed.

(** C3, as the code has it: the title is [texto.capitalize()], which
    upper-cases the first character and lower-cases every later one;
    on ASCII text the first letter becomes a capital and every later
    capital becomes a small letter. *)
Theorem nombre_capitalize (texto : str) (ahora : datetime) (entrada : list str)
    (t : tarea) (resto : list str) :
  procesar_logica_negocio texto ahora entrada = Ok (t, resto) ->
  nombre t = str_capitalize texto
  /\ (forallb is_ascii texto = true ->
      nombre t = match texto with
                 | [] => []
                 | c :: r => ascii_upper c :: map ascii_lower r
                 end).
Proof.
  intros Hp. apply procesar_nombre in Hp. split; [exact Hp|].
  intros Ha. rewrite Hp. destruct texto as [|c r].
  - apply capitalize_nil.
  - now apply capitalize_ascii.
Qed.
End Titulo.

Lemma nombre_capitalize_witness :
  exists t,
    procesar_logica_negocio (py "examen de Web") domingo_1_marzo []
      = Ok (t, [])
    /\ nombre t = py "Examen de web".
Proof.
  eexists. split; [vm_compute; reflexivity|].
  refine (proj1 (nombre_capitalize (py "examen de Web") domingo_1_marzo [] _ []
                   _)).
  vm_compute. reflexivity.
Defined.

(** C3 as stated fails: the capital W of "examen de Web" does not
    survive in the title. *)
Lemma nombre_no_conserva_mayusculas :
  exists t,
    procesar_logica_negocio (py "examen de Web") domingo_1_marzo []
      = Ok (t, [])
    /\ nombre t = py "Examen de web"
    /\ nombre t <> py "Examen de Web"
    /\ nth 10 (py "examen de Web") 0%N = 87%N
    /\ nth 10 (nombre t) 0%N = 119%N.
Proof.
  eexists. split; [vm_compute; reflexivity|].
  cbn [nombre]. vm_compute. repeat split. discriminate.
Qed.

(** ** [SequenceMatcher]: blocks stay inside their range *)

Local Open Scope nat_scope.

Lemma row_in_nil blo d j : row_in blo d j [].
Proof. intros t. destruct t; cbn; lia. Qed.

Lemma row_in_tl blo d j row : row_in blo d j row -> row_in blo d (S j) (tl row).
Proof.
  intros Hr t. destruct row as [|x row]; cbn [tl].
  - destruct t; cbn; lia.
  - specialize (Hr (S t)). cbn [nth] in Hr. lia.
Qed.

Lemma row_in_cons blo d j k row :
  k <= d -> k <= j + 1 - blo -> row_in blo d (S j) row ->
  row_in blo d j (k :: row).
Proof.
  intros Hd Hj Hr t. destruct t as [|t]; cbn [nth].
  - lia.
  - specialize (Hr t). lia.
Qed.

Lemma lm_row_inv (b0 : str) (x : N) (alo ahi blo bhi i : nat) :
  alo <= i -> i < ahi ->
  forall (bs : str) (j : nat) (prev : list nat) (pm1 : nat) best,
    row_in blo (i - alo) j prev ->
    pm1 <= i - alo -> pm1 <= j - blo ->
    block_in alo ahi blo bhi best ->
    row_in blo (i + 1 - alo) j (fst (lm_row b0 x i blo bhi j bs prev pm1 best))
    /\ block_in alo ahi blo bhi (snd (lm_row b0 x i blo bhi j bs prev pm1 best)).
Proof.
  intros Hlo Hhi. induction bs as [|y bs IH]; intros j prev pm1 best Hp H1 H2 Hb.
  - cbn. split; [apply row_in_nil | exact Hb].
  - cbn [lm_row].
    assert (Hpj : hd 0 prev <= i - alo /\ hd 0 prev <= S j - blo).
    { specialize (Hp 0). destruct prev; cbn [hd nth] in *; lia. }
    destruct ((y =? x)%N && negb (popular b0 y) && (blo <=? j) && (j <? bhi))
      eqn:E.
    + apply andb_true_iff in E as [E Ej2]. apply andb_true_iff in E as [_ Ej1].
      apply Nat.leb_le in Ej1. apply Nat.ltb_lt in Ej2.
      match goal with
      | |- context [lm_row b0 x i blo bhi (S j) bs (tl prev) (hd 0 prev) ?B] =>
          specialize (IH (S j) (tl prev) (hd 0 prev) B)
      end.
      destruct (lm_row b0 x i blo bhi (S j) bs (tl prev) (hd 0 prev) _)
        as [row out]. cbn [fst snd] in *.
      destruct IH as [IH1 IH2]; try tauto.
      * now apply row_in_tl.
      * destruct best as [[bi bj] bk].
        destruct (bk <? pm1 + 1); [|exact Hb]. cbn. lia.
      * split; [|exact IH2]. apply row_in_cons; try lia.
        intros t. specialize (IH1 t). lia.
    + specialize (IH (S j) (tl prev) (hd 0 prev) best).
      destruct (lm_row b0 x i blo bhi (S j) bs (tl prev) (hd 0 prev) best)
        as [row out]. cbn [fst snd] in *.
      destruct IH as [IH1 IH2]; try tauto.
      * now apply row_in_tl.
      * split; [|exact IH2]. apply row_in_cons; try lia.
        intros t. specialize (IH1 t). lia.
Qed.

Lemma lm_rows_inv (b : str) (alo ahi blo bhi : nat) :
  forall (n i : nat) (as_ : str) (prev : list nat) best,
    alo <= i -> i + n <= ahi ->
    row_in blo (i - alo) 0 prev ->
    block_in alo ahi blo bhi best ->
    block_in alo ahi blo bhi (lm_rows b blo bhi i n as_ prev best).
Proof.
  induction n as [|n IH]; intros i as_ prev best Hlo Hhi Hp Hb.
  - exact Hb.
  - cbn [lm_rows]. destruct as_ as [|x as_]; [exact Hb|].
    pose proof (lm_row_inv b x alo ahi blo bhi i Hlo ltac:(lia) b 0 prev 0 best
                  Hp ltac:(lia) ltac:(lia) Hb) as [H1 H2].
    destruct (lm_row b x i blo bhi 0 b prev 0 best) as [row out].
    cbn [fst snd] in *. apply IH; try lia; try assumption.
    replace (S i - alo) with (i + 1 - alo) by lia. exact H1.
Qed.

Lemma extend_left_inv (a b : str) (alo ahi blo bhi : nat) :
  forall besti bestj bestsize,
    block_in alo ahi blo bhi (besti, bestj, bestsize) ->
    block_in alo ahi blo bhi (extend_left a b alo blo besti bestj bestsize).
Proof.
  induction besti as [|i IH]; intros bestj bestsize Hb; [exact Hb|].
  cbn [extend_left]. destruct bestj as [|j]; [exact Hb|].
  destruct ((alo <? S i) && (blo <? S j) && (nth i a 0 =? nth j b 0)%N) eqn:E;
    [|exact Hb].
  apply andb_true_iff in E as [E _]. apply andb_true_iff in E as [E1 E2].
  apply Nat.ltb_lt in E1, E2. apply IH. cbn in *. lia.
Qed.

Lemma extend_right_inv (a b : str) (ahi bhi besti bestj : nat) :
  forall fuel bestsize,
    besti + bestsize <= ahi -> bestj + bestsize <= bhi ->
    besti + extend_right a b ahi bhi besti bestj bestsize fuel <= ahi
    /\ bestj + extend_right a b ahi bhi besti bestj bestsize fuel <= bhi.
Proof.
  induction fuel as [|f IH]; intros bestsize H1 H2; [cbn; lia|].
  cbn [extend_right].
  destruct ((besti + bestsize <? ahi) && (bestj + bestsize <? bhi)
            && (nth (besti + bestsize) a 0 =? nth (bestj + bestsize) b 0)%N)
    eqn:E; [|lia].
  apply andb_true_iff in E as [E _]. apply andb_true_iff in E as [E1 E2].
  apply Nat.ltb_lt in E1, E2. apply IH; lia.
Qed.

Lemma find_longest_match_in (a b : str) (alo ahi blo bhi : nat) :
  alo <= ahi -> blo <= bhi ->
  block_in alo ahi blo bhi (find_longest_match a b alo ahi blo bhi).
Proof.
  intros Ha Hb. unfold find_longest_match.
  pose proof (lm_rows_inv b alo ahi blo bhi (ahi - alo) alo (skipn alo a) []
                (alo, blo, 0) (Nat.le_refl _) ltac:(lia)
                (row_in_nil _ _ _) ltac:(cbn; lia)) as H1.
  destruct (lm_rows b blo bhi alo (ahi - alo) (skipn alo a) [] (alo, blo, 0))
    as [[i j] k].
  apply (extend_left_inv a b) in H1.
  destruct (extend_left a b alo blo i j k) as [[i' j'] k'].
  cbn in H1.
  pose proof (extend_right_inv a b ahi bhi i' j' (ahi - (i' + k')) k'
                ltac:(lia) ltac:(lia)).
  cbn. lia.
Qed.

Lemma matching_size_le (a b : str) :
  forall fuel alo ahi blo bhi,
    alo <= ahi -> blo <= bhi ->
    matching_size fuel a b alo ahi blo bhi <= Nat.min (ahi - alo) (bhi - blo).
Proof.
  induction fuel as [|f IH]; intros alo ahi blo bhi Ha Hb; [cbn; lia|].
  cbn [matching_size].
  pose proof (find_longest_match_in a b alo ahi blo bhi Ha Hb) as Hin.
  destruct (find_longest_match a b alo ahi blo bhi) as [[i j] k].
  cbn in Hin. destruct (k =? 0); [lia|].
  assert (L : (if (alo <? i) && (blo <? j)
               then matching_size f a b alo i blo j else 0)
              <= Nat.min (i - alo) (j - blo)).
  { destruct ((alo <? i) && (blo <? j)); [apply IH; lia | lia]. }
  assert (R : (if (i + k <? ahi) && (j + k <? bhi)
               then matching_size f a b (i + k) ahi (j + k) bhi else 0)
              <= Nat.min (ahi - (i + k)) (bhi - (j + k))).
  { destruct ((i + k <? ahi) && (j + k <? bhi)); [apply IH; lia | lia]. }
  lia.
Qed.

(** The recursion ends by itself: any fuel of at least [ahi - alo]
    gives the same sum. *)
Lemma matching_size_fuel (a b : str) :
  forall f1 f2 alo ahi blo bhi,
    alo <= ahi -> blo <= bhi -> ahi - alo <= f1 -> ahi - alo <= f2 ->
    matching_size f1 a b alo ahi blo bhi = matching_size f2 a b alo ahi blo bhi.
Proof.
  assert (Z0 : forall f alo ahi blo bhi,
             alo <= ahi -> blo <= bhi -> ahi - alo = 0 ->
             matching_size f a b alo ahi blo bhi = 0).
  { intros [|f] alo ahi blo bhi Ha Hb Hz; [reflexivity|].
    cbn [matching_size].
    pose proof (find_longest_match_in a b alo ahi blo bhi Ha Hb) as Hin.
    destruct (find_longest_match a b alo ahi blo bhi) as [[i j] k].
    cbn in Hin. assert (k = 0) as -> by lia. reflexivity. }
  induction f1 as [|f1 IH]; intros f2 alo ahi blo bhi Ha Hb H1 H2.
  - rewrite (Z0 f2) by lia. reflexivity.
  - destruct f2 as [|f2]; [rewrite (Z0 (S f1)) by lia; reflexivity|].
    cbn [matching_size].
    pose proof (find_longest_match_in a b alo ahi blo bhi Ha Hb) as Hin.
    destruct (find_longest_match a b alo ahi blo bhi) as [[i j] k].
    cbn in Hin. destruct (k =? 0) eqn:Ek; [reflexivity|].
    apply Nat.eqb_neq in Ek. f_equal; [f_equal|].
    + destruct ((alo <? i) && (blo <? j)); [apply IH; lia | reflexivity].
    + destruct ((i + k <? ahi) && (j + k <? bhi)); [apply IH; lia | reflexivity].
Qed.

Lemma matches_fuel (a b : str) (fuel : nat) :
  length a <= fuel ->
  matching_size fuel a b 0 (length a) 0 (length b) = matches a b.
Proof.
  intros Hf. unfold matches. apply matching_size_fuel; lia.
Qed.

Lemma matches_le (a b : str) :
  matches a b <= length a /\ matches a b <= length b.
Proof.
  pose proof (matching_size_le a b (length a) 0 (length a) 0 (length b)
                (Nat.le_0_l _) (Nat.le_0_l _)) as Hm.
  unfold matches. lia.
Qed.

Local Close Scope nat_scope.

(** The ratio lies between 0 and 1. *)
Lemma ratio_range (a b : str) : (0 <= ratio a b /\ ratio a b <= 1)%Q.
Proof.
  unfold ratio. destruct (length a + length b)%nat as [|n] eqn:E.
  - split; unfold Qle; cbn; lia.
  - pose proof (matches_le a b) as [Ha Hb].
    unfold Qle. cbn [Qnum Qden]. split; [lia|].
    rewrite Z.mul_1_r, Z.mul_1_l.
    rewrite <- (Nat2Pos.id (S n)) in E by discriminate.
    assert (Hp : Z.pos (Pos.of_nat (S n)) = Z.of_nat (length a + length b)).
    { rewrite E. now rewrite positive_nat_Z. }
    rewrite Hp. lia.
Qed.

(** ** Fuzzy matching *)


Lemma Qgt_bool_iff (a b : Q) : Qgt_bool a b = true <-> (b < a)%Q.
Proof.
  unfold Qgt_bool. rewrite negb_true_iff. split.
  - intros E. apply Qnot_le_lt. intros Hle.
    apply Qle_bool_iff in Hle. congruence.
  - intros Hlt. destruct (Qle_bool a b) eqn:E; [|reflexivity].
    apply Qle_bool_iff in E. exfalso. exact (Qlt_not_le _ _ Hlt E).
Qed.

Lemma Qgt_bool_false (a b : Q) : Qgt_bool a b = false <-> (a <= b)%Q.
Proof.
  unfold Qgt_bool. rewrite negb_false_iff. apply Qle_bool_iff.
Qed.

(** [max] with a key returns the first of the largest elements. *)
Lemma max_by_snd_first {A} (l : list (A * Q)) :
  forall best,
  exists pre post,
    best :: l = pre ++ max_by_snd best l :: post
    /\ (forall x, In x pre -> (snd x < snd (max_by_snd best l))%Q)
    /\ (forall x, In x post -> (snd x <= snd (max_by_snd best l))%Q).
Proof.
  induction l as [|x r IH]; intros best.
  - exists [], []. cbn. repeat split; intros ? [].
  - cbn [max_by_snd]. destruct (Qgt_bool (snd x) (snd best)) eqn:E.
    + apply Qgt_bool_iff in E.
      destruct (IH x) as (pre & post & Heq & Hpre & Hpost).
      exists (best :: pre), post. split; [cbn; now rewrite Heq|].
      split; [|exact Hpost].
      intros y [<-|Hy]; [|now apply Hpre].
      apply Qlt_le_trans with (snd x); [exact E|].
      destruct pre as [|p pre].
      * cbn in Heq. injection Heq as <- _. apply Qle_refl.
      * cbn in Heq. injection Heq as <- _. apply Qlt_le_weak, Hpre. now left.
    + apply Qgt_bool_false in E.
      destruct (IH best) as (pre & post & Heq & Hpre & Hpost).
      destruct pre as [|p pre].
      * cbn in Heq. injection Heq as Hb Hr.
        exists [], (x :: post). split; [cbn; rewrite <- Hb, <- Hr; reflexivity|].
        split; [intros ? []|].
        intros y [<-|Hy]; [now rewrite <- Hb | now apply Hpost].
      * cbn in Heq. injection Heq as <- Hr.
        exists (best :: x :: pre), post. split; [cbn; do 2 f_equal; exact Hr|].
        split; [|exact Hpost].
        intros y [<-|[<-|Hy]].
        -- apply Hpre. now left.
        -- apply Qle_lt_trans with (snd best); [exact E|]. apply Hpre. now left.
        -- apply Hpre. now right.
Qed.

Lemma filter_map_split {A B} (P : B -> bool) (F : A -> B) (ops : list A) :
  forall pre' m post',
    filter P (map F ops) = pre' ++ m :: post' ->
    exists pre o post,
      ops = pre ++ o :: post /\ F o = m /\ P m = true
      /\ filter P (map F pre) = pre' /\ filter P (map F post) = post'.
Proof.
  induction ops as [|o ops IH]; intros pre' m post' Heq.
  - cbn in Heq. destruct pre'; discriminate.
  - cbn [map filter] in Heq. destruct (P (F o)) eqn:E.
    + destruct pre' as [|p pre'].
      * cbn in Heq. injection Heq as Hm Hpost.
        exists [], o, ops. cbn. rewrite <- Hm. auto.
      * cbn in Heq. injection Heq as Hp Hrest.
        destruct (IH _ _ _ Hrest) as (pre & o' & post & -> & Ho & HP & H1 & H2).
        exists (o :: pre), o', post. cbn [map filter app]. rewrite E, H1, Hp.
        auto.
    + destruct (IH _ _ _ Heq) as (pre & o' & post & -> & Ho & HP & H1 & H2).
      exists (o :: pre), o', post. cbn [map filter app]. rewrite E. auto.
Qed.

Section Fuzzy.
Context `{Unicode}.

Lemma buscar_None (entrada : str) (opciones : list str) (umbral : Q) :
  buscar_concepto_fuzzy entrada opciones umbral = None <->
  forall o, In o opciones ->
            (similitud (normalizar_texto entrada) o < umbral)%Q.
Proof.
  unfold buscar_concepto_fuzzy.
  set (F := fun opcion => (opcion, similitud (normalizar_texto entrada) opcion)).
  set (P := fun m : str * Q => Qle_bool umbral (snd m)).
  split.
  - intros Hn o Ho.
    destruct (filter P (map F opciones)) as [|m ms] eqn:E; [|discriminate].
    apply Qnot_le_lt. intros Hle.
    assert (Hin : In (F o) (filter P (map F opciones))).
    { apply filter_In. split; [now apply in_map|].
      unfold P, F. cbn. now apply Qle_bool_iff. }
    rewrite E in Hin. exact Hin.
  - intros Hall.
    destruct (filter P (map F opciones)) as [|m ms] eqn:E; [reflexivity|].
    exfalso.
    assert (Hin : In m (filter P (map F opciones))) by (rewrite E; now left).
    apply filter_In in Hin as [Hin HP]. apply in_map_iff in Hin as (o & <- & Ho).
    unfold P, F in HP. cbn in HP. apply Qle_bool_iff in HP.
    exact (Qlt_not_le _ _ (Hall o Ho) HP).
Qed.

Lemma buscar_Some (entrada : str) (opciones : list str) (umbral : Q) (o : str) :
  buscar_concepto_fuzzy entrada opciones umbral = Some o ->
  exists pre post,
    opciones = pre ++ o :: post
    /\ (umbral <= similitud (normalizar_texto entrada) o)%Q
    /\ (forall x, In x pre ->
          (similitud (normalizar_texto entrada) x
           < similitud (normalizar_texto entrada) o)%Q)
    /\ (forall x, In x post ->
          (similitud (normalizar_texto entrada) x
           <= similitud (normalizar_texto entrada) o)%Q).
Proof.
  unfold buscar_concepto_fuzzy. intros Hs.
  set (sim := similitud (normalizar_texto entrada)) in *.
  set (F := fun opcion => (opcion, sim opcion)) in *.
  set (P := fun m : str * Q => Qle_bool umbral (snd m)) in *.
  destruct (filter P (map F opciones)) as [|m ms] eqn:E; [discriminate|].
  injection Hs as Hs.
  destruct (max_by_snd_first ms m) as (pre' & post' & Heq & Hpre & Hpost).
  rewrite <- E in Heq.
  destruct (filter_map_split P F opciones _ _ _ Heq)
    as (pre & o' & post & -> & Ho & HP & H1 & H2).
  assert (o' = o) as -> by (rewrite <- Hs, <- Ho; reflexivity).
  assert (Hu : (umbral <= sim o)%Q).
  { rewrite <- Ho in HP. unfold P, F in HP. cbn in HP.
    now apply Qle_bool_iff. }
  exists pre, post. split; [reflexivity|]. split; [exact Hu|].
  rewrite <- Ho in Hpre, Hpost. cbn [snd F] in Hpre, Hpost. split.
  - intros x Hx. destruct (Qle_bool umbral (sim x)) eqn:Ex.
    + apply (Hpre (F x)). rewrite <- H1. apply filter_In. split.
      * now apply in_map.
      * exact Ex.
    + apply Qlt_le_trans with umbral; [|exact Hu].
      apply Qnot_le_lt. intros Hle. apply Qle_bool_iff in Hle. congruence.
  - intros x Hx. destruct (Qle_bool umbral (sim x)) eqn:Ex.
    + apply (Hpost (F x)). rewrite <- H2. apply filter_In. split.
      * now apply in_map.
      * exact Ex.
    + apply Qlt_le_weak. apply Qlt_le_trans with umbral; [|exact Hu].
      apply Qnot_le_lt. intros Hle. apply Qle_bool_iff in Hle. congruence.
Qed.
End Fuzzy.

Section FuzzyTeoremas.
Context `{Unicode}.

Lemma normalizar_ascii (texto : str) :
  forallb is_ascii (limpiar texto) = true ->
  normalizar_texto texto = map ascii_lower (limpiar texto).
Proof. intros Ha. unfold normalizar_texto. now apply lower_ascii. Qed.


(** C10: the result is none or one of the candidates, as it was given
    (a candidate is returned unnormalised). *)
Theorem buscar_concepto_fuzzy_en_opciones (entrada : str) (opciones : list str)
    (umbral : Q) :
  match buscar_concepto_fuzzy entrada opciones umbral with
  | None => True
  | Some o => In o opciones
  end
  /\ buscar_concepto_fuzzy (py "EXAMEN!") (map py ["Proyecto"; "Examen."]%string)
       umbral_defecto = Some (py "Examen.").
Proof.
  split.
  - destruct (buscar_concepto_fuzzy entrada opciones umbral) as [o|] eqn:E;
      [|exact I].
    destruct (buscar_Some _ _ _ _ E) as (pre & post & -> & _).
    apply in_or_app. right. now left.
  - unfold buscar_concepto_fuzzy, similitud. cbn [map].
    rewrite !normalizar_ascii by reflexivity. vm_compute. reflexivity.
Qed.
End FuzzyTeoremas.

(** ** Calendar arithmetic *)

Lemma md_ok_all (l : bool) (n : Z) :
  0 <= n < 365 + (if l then 1 else 0) -> md_ok l n = true.
Proof.
  intros Hn.
  assert (Hin : In n (range 0 (365 + (if l then 1 else 0)))) by (apply In_range; lia).
  clear Hn. revert n Hin. apply forallb_forall. destruct l; vm_compute; reflexivity.
Qed.

Lemma dby_decomp (n400 n100 n4 n1 : Z) :
  0 <= n100 <= 3 -> 0 <= n4 <= 24 -> 0 <= n1 <= 3 ->
  _days_before_year (n400 * 400 + 1 + n100 * 100 + n4 * 4 + n1)
  = n400 * 146097 + n100 * 36524 + n4 * 1461 + n1 * 365.
Proof.
  intros H100 H4 H1. unfold _days_before_year.
  Z.div_mod_to_equations. lia.
Qed.

Lemma leap_decomp (n400 n100 n4 n1 : Z) :
  0 <= n100 <= 3 -> 0 <= n4 <= 24 -> 0 <= n1 <= 3 ->
  _is_leap (n400 * 400 + 1 + n100 * 100 + n4 * 4 + n1)
  = (n1 =? 3) && (negb (n4 =? 24) || (n100 =? 3)).
Proof.
  intros H100 H4 H1. unfold _is_leap.
  set (y := n400 * 400 + 1 + n100 * 100 + n4 * 4 + n1).
  destruct (n1 =? 3) eqn:E1; destruct (n4 =? 24) eqn:E4;
    destruct (n100 =? 3) eqn:E100;
    destruct (y mod 4 =? 0) eqn:M4; destruct (y mod 100 =? 0) eqn:M100;
    destruct (y mod 400 =? 0) eqn:M400; cbn; try reflexivity; exfalso;
    subst y;
    rewrite ?Z.eqb_eq, ?Z.eqb_neq in *; Z.div_mod_to_equations; lia.
Qed.

Lemma ord2ymd_unfold (n : Z) :
  _ord2ymd n =
  let n0 := n - 1 in
  let n400 := n0 / 146097 in
  let r400 := n0 mod 146097 in
  let n100 := r400 / 36524 in
  let r100 := r400 mod 36524 in
  let n4 := r100 / 1461 in
  let r4 := r100 mod 1461 in
  let n1 := r4 / 365 in
  let r := r4 mod 365 in
  let y := n400 * 400 + 1 + n100 * 100 + n4 * 4 + n1 in
  if (n1 =? 4) || (n100 =? 4) then (y - 1, 12, 31)
  else let '(m, d) :=
         md_of_yday ((n1 =? 3) && (negb (n4 =? 24) || (n100 =? 3))) r in
       (y, m, d).
Proof.
  unfold _ord2ymd, md_of_yday, _DI400Y, _DI100Y, _DI4Y. cbv zeta.
  destruct (_ || _); [reflexivity|].
  destruct (_ <? _); reflexivity.
Qed.

Lemma ord2ymd_ok (n : Z) : 1 <= n -> ymd_ok n (_ord2ymd n).
Proof.
  intros Hn. rewrite ord2ymd_unfold. cbv zeta.
  pose proof (Z.div_mod (n - 1) 146097 ltac:(lia)) as E400.
  pose proof (Z.mod_pos_bound (n - 1) 146097 ltac:(lia)) as B400.
  set (n400 := (n - 1) / 146097) in *. set (r400 := (n - 1) mod 146097) in *.
  pose proof (Z.div_mod r400 36524 ltac:(lia)) as E100.
  pose proof (Z.mod_pos_bound r400 36524 ltac:(lia)) as B100.
  set (n100 := r400 / 36524) in *. set (r100 := r400 mod 36524) in *.
  pose proof (Z.div_mod r100 1461 ltac:(lia)) as E4.
  pose proof (Z.mod_pos_bound r100 1461 ltac:(lia)) as B4.
  set (n4 := r100 / 1461) in *. set (r4 := r100 mod 1461) in *.
  pose proof (Z.div_mod r4 365 ltac:(lia)) as E1.
  pose proof (Z.mod_pos_bound r4 365 ltac:(lia)) as B1.
  set (n1 := r4 / 365) in *. set (r := r4 mod 365) in *.
  assert (H400 : 0 <= n400) by lia.
  assert (H100 : 0 <= n100 <= 4) by lia.
  assert (H4 : 0 <= n4 <= 24) by lia.
  assert (H1 : 0 <= n1 <= 4) by lia.
  destruct ((n1 =? 4) || (n100 =? 4)) eqn:Esp.
  - apply orb_true_iff in Esp. rewrite !Z.eqb_eq in Esp.
    unfold ymd_ok, _days_in_month, _ymd2ord, _days_before_month. cbn [_DAYS_IN_MONTH _DAYS_BEFORE_MONTH].
    replace (12 =? 2) with false by reflexivity. replace (2 <? 12) with true by reflexivity.
    cbn [andb].
    assert (Hl : _is_leap (n400 * 400 + 1 + n100 * 100 + n4 * 4 + n1 - 1) = true).
    { unfold _is_leap. rewrite andb_true_iff, orb_true_iff, negb_true_iff, !Z.eqb_eq, Z.eqb_neq.
      Z.div_mod_to_equations. lia. }
    rewrite Hl. unfold _days_before_year.
    repeat split; try lia. Z.div_mod_to_equations. lia.
  - apply orb_false_iff in Esp. rewrite !Z.eqb_neq in Esp.
    assert (H100' : 0 <= n100 <= 3) by lia. assert (H1' : 0 <= n1 <= 3) by lia.
    pose proof (leap_decomp n400 n100 n4 n1 H100' H4 H1') as Hl.
    pose proof (dby_decomp n400 n100 n4 n1 H100' H4 H1') as Hd.
    set (l := (n1 =? 3) && (negb (n4 =? 24) || (n100 =? 3))) in *.
    pose proof (md_ok_all l r ltac:(destruct l; lia)) as Hmd.
    unfold md_ok in Hmd. destruct (md_of_yday l r) as [m d].
    rewrite !andb_true_iff, !Z.leb_le, Z.eqb_eq in Hmd.
    unfold ymd_ok, _days_in_month, _ymd2ord, _days_before_month.
    rewrite Hl, Hd. unfold dim_l, dbm_l in Hmd.
    repeat split; try lia.
Qed.

Lemma dby_succ (y : Z) :
  _days_before_year (y + 1)
  = _days_before_year y + 365 + (if _is_leap y then 1 else 0).
Proof.
  unfold _days_before_year, _is_leap.
  destruct (y mod 4 =? 0) eqn:M4; destruct (y mod 100 =? 0) eqn:M100;
    destruct (y mod 400 =? 0) eqn:M400; cbn [andb orb negb];
    rewrite ?Z.eqb_eq, ?Z.eqb_neq in *; Z.div_mod_to_equations; lia.
Qed.

Lemma dby_mono (a b : Z) : a <= b -> _days_before_year a <= _days_before_year b.
Proof.
  intros Hab. unfold _days_before_year. Z.div_mod_to_equations. lia.
Qed.

Lemma month_tables (l : bool) (m : Z) :
  1 <= m <= 12 ->
  0 <= dbm_l l m /\ 28 <= dim_l l m <= 31
  /\ dbm_l l m + dim_l l m <= 365 + (if l then 1 else 0)
  /\ forall m2, m < m2 <= 12 -> dbm_l l m + dim_l l m <= dbm_l l m2.
Proof.
  intros Hm.
  assert (Hc : forallb (fun m =>
            (0 <=? dbm_l l m) && (28 <=? dim_l l m) && (dim_l l m <=? 31)
            && (dbm_l l m + dim_l l m <=? 365 + (if l then 1 else 0))
            && forallb (fun m2 => implb (m <? m2)
                                    (dbm_l l m + dim_l l m <=? dbm_l l m2))
                       months) months = true)
    by (destruct l; vm_compute; reflexivity).
  rewrite forallb_forall in Hc. specialize (Hc m ltac:(apply In_range; lia)).
  rewrite !andb_true_iff, !Z.leb_le, forallb_forall in Hc.
  destruct Hc as ((((H1 & H2) & H3) & H4) & H5). repeat split; try lia.
  intros m2 Hm2. specialize (H5 m2 ltac:(apply In_range; lia)).
  replace (m <? m2) with true in H5 by (symmetry; apply Z.ltb_lt; lia).
  cbn in H5. now apply Z.leb_le.
Qed.

Lemma ymd2ord_bounds (y m d : Z) :
  civil y m d ->
  _days_before_year y < _ymd2ord y m d <= _days_before_year (y + 1).
Proof.
  intros [Hm Hd]. rewrite dby_succ. unfold _ymd2ord.
  pose proof (month_tables (_is_leap y) m Hm) as (H0 & _ & H1 & _).
  unfold dbm_l, dim_l in *. unfold _days_before_month, _days_in_month in *. lia.
Qed.

Lemma ymd2ord_lt (y1 m1 d1 y2 m2 d2 : Z) :
  civil y1 m1 d1 -> civil y2 m2 d2 ->
  lex_lt y1 m1 d1 y2 m2 d2 -> _ymd2ord y1 m1 d1 < _ymd2ord y2 m2 d2.
Proof.
  intros C1 C2 [Hy|[-> [Hm|[-> Hd]]]].
  - pose proof (ymd2ord_bounds _ _ _ C1). pose proof (ymd2ord_bounds _ _ _ C2).
    pose proof (dby_mono (y1 + 1) y2 ltac:(lia)). lia.
  - destruct C1 as [Hm1 Hd1], C2 as [Hm2 Hd2].
    pose proof (month_tables (_is_leap y2) m1 Hm1) as (_ & _ & _ & H).
    specialize (H m2 ltac:(lia)). unfold _ymd2ord.
    unfold dbm_l, dim_l in *. unfold _days_before_month, _days_in_month in *. lia.
  - unfold _ymd2ord. lia.
Qed.

Lemma lex_trichotomy (y1 m1 d1 y2 m2 d2 : Z) :
  lex_lt y1 m1 d1 y2 m2 d2 \/ (y1 = y2 /\ m1 = m2 /\ d1 = d2)
  \/ lex_lt y2 m2 d2 y1 m1 d1.
Proof. unfold lex_lt. lia. Qed.

Lemma ymd2ord_le_inv (y1 m1 d1 y2 m2 d2 : Z) :
  civil y1 m1 d1 -> civil y2 m2 d2 ->
  _ymd2ord y1 m1 d1 <= _ymd2ord y2 m2 d2 ->
  ~ lex_lt y2 m2 d2 y1 m1 d1.
Proof.
  intros C1 C2 Hle Hlt. pose proof (ymd2ord_lt _ _ _ _ _ _ C2 C1 Hlt). lia.
Qed.

Lemma ymd2ord_lt_inv (y1 m1 d1 y2 m2 d2 : Z) :
  civil y1 m1 d1 -> civil y2 m2 d2 ->
  _ymd2ord y1 m1 d1 < _ymd2ord y2 m2 d2 ->
  lex_lt y1 m1 d1 y2 m2 d2.
Proof.
  intros C1 C2 Hlt.
  destruct (lex_trichotomy y1 m1 d1 y2 m2 d2) as [H|[(-> & -> & ->)|H]].
  - exact H.
  - lia.
  - pose proof (ymd2ord_lt _ _ _ _ _ _ C2 C1 H). lia.
Qed.

Lemma date_lt_iff (a b : datetime) :
  date_lt a b = true <->
  lex_lt (year a) (month a) (day a) (year b) (month b) (day b).
Proof.
  unfold date_lt, lex_lt.
  rewrite !orb_true_iff, !andb_true_iff, !orb_true_iff, !andb_true_iff,
    !Z.ltb_lt, !Z.eqb_eq. tauto.
Qed.

Lemma valid_datetime_iff (t : datetime) :
  valid_datetime t = true <->
  1 <= year t <= 9999 /\ civil (year t) (month t) (day t).
Proof.
  unfold valid_datetime, valid_ymd, civil, MINYEAR, MAXYEAR.
  rewrite !andb_true_iff, !Z.leb_le. tauto.
Qed.

Lemma toordinal_range (t : datetime) :
  valid_datetime t = true -> 1 <= toordinal t <= _MAXORDINAL.
Proof.
  intros Hv. apply valid_datetime_iff in Hv as [Hy Hc].
  pose proof (ymd2ord_bounds _ _ _ Hc) as Hb. unfold toordinal.
  pose proof (dby_mono 1 (year t) ltac:(lia)).
  pose proof (dby_mono (year t + 1) 10000 ltac:(lia)).
  change (_days_before_year 1) with 0 in *.
  change (_days_before_year 10000) with 3652059 in *.
  unfold _MAXORDINAL. lia.
Qed.

Lemma toordinal_year_bound (t : datetime) :
  valid_datetime t = true -> year t <= 9998 ->
  toordinal t + 365 <= _MAXORDINAL.
Proof.
  intros Hv Hy. apply valid_datetime_iff in Hv as [_ Hc].
  pose proof (ymd2ord_bounds _ _ _ Hc) as Hb. unfold toordinal.
  pose proof (dby_mono (year t + 1) 9999 ltac:(lia)).
  change (_days_before_year 9999) with 3651694 in *.
  unfold _MAXORDINAL. lia.
Qed.

(** [t + timedelta(days=n)] inside the supported range. *)
Lemma add_days_ok (t : datetime) (n : Z) :
  valid_datetime t = true -> 0 <= n -> toordinal t + n <= _MAXORDINAL ->
  exists t', add_days t n = Ok t'
             /\ valid_datetime t' = true
             /\ toordinal t' = toordinal t + n
             /\ tod t' = tod t.
Proof.
  intros Hv Hn Hmax. pose proof (toordinal_range t Hv) as Hr.
  unfold add_days.
  replace ((0 <? toordinal t + n) && (toordinal t + n <=? _MAXORDINAL))
    with true
    by (symmetry; apply andb_true_iff; rewrite Z.ltb_lt, Z.leb_le; lia).
  pose proof (ord2ymd_ok (toordinal t + n) ltac:(lia)) as Hok.
  destruct (_ord2ymd (toordinal t + n)) as [[y m] d].
  destruct Hok as (Hy & Hm & Hd & Ho).
  eexists. split; [reflexivity|]. cbn [toordinal year month day tod].
  split; [|split; [exact Ho | reflexivity]].
  apply valid_datetime_iff. cbn [year month day]. split; [|split; assumption].
  split; [assumption|].
  destruct (Z_le_gt_dec y 9999) as [|Hbig]; [assumption|exfalso].
  pose proof (ymd2ord_bounds y m d (conj Hm Hd)) as Hb.
  pose proof (dby_mono 10000 y ltac:(lia)).
  change (_days_before_year 10000) with 3652059 in *.
  unfold _MAXORDINAL in *. lia.
Qed.

Lemma date_lt_toordinal (a b : datetime) :
  valid_datetime a = true -> valid_datetime b = true ->
  date_lt a b = true <-> toordinal a < toordinal b.
Proof.
  intros Ha Hb. apply valid_datetime_iff in Ha as [_ Ca], Hb as [_ Cb].
  rewrite date_lt_iff. unfold toordinal. split.
  - now apply ymd2ord_lt.
  - now apply ymd2ord_lt_inv.
Qed.

(** ** Patterns and white space *)

Section Regex.
Context `{Unicode}.

(** A successful greedy repetition consumed [n] characters of the
    class, [lo <= n <= hi], and the rest of the match went on from
    there with the groups unchanged. *)
Lemma rep_sound {R} (p : N -> bool) :
  forall (s : str) (lo : nat) (hi : option nat) (prev : option N)
         (caps : captures) (k : @cont R) (v : R),
    rep p lo hi prev s caps k = Some v ->
    exists (n : nat) (prev' : option N),
      (lo <= n)%nat /\ (n <= List.length s)%nat
      /\ (forall h, hi = Some h -> n <= h)%nat
      /\ forallb p (firstn n s) = true
      /\ k prev' (skipn n s) caps = Some v.
Proof.
  induction s as [|x r IH]; intros lo hi prev caps k v Hm.
  - cbn in Hm. destruct lo; [|discriminate].
    exists 0%nat, prev. cbn. repeat split; try lia; auto.
  - cbn [rep] in Hm.
    assert (Hstop : match lo with O => k prev (x :: r) caps | S _ => None end
                    = Some v ->
                    exists (n : nat) (prev' : option N),
                      (lo <= n)%nat /\ (n <= List.length (x :: r))%nat
                      /\ (forall h, hi = Some h -> n <= h)%nat
                      /\ forallb p (firstn n (x :: r)) = true
                      /\ k prev' (skipn n (x :: r)) caps = Some v).
    { destruct lo; [|discriminate]. intros Hk.
      exists 0%nat, prev. cbn. repeat split; try lia; auto. }
    destruct (p x && match hi with Some O => false | _ => true end) eqn:E;
      [|now apply Hstop].
    destruct (rep p (pred lo) (option_map pred hi) (Some x) r caps k) as [v'|]
      eqn:Er; [|now apply Hstop].
    injection Hm as ->. apply andb_true_iff in E as [Ep Eh].
    destruct (IH _ _ _ _ _ _ Er) as (n & prev' & H1 & H2 & H3 & H4 & H5).
    exists (S n), prev'. cbn [firstn skipn forallb List.length].
    rewrite Ep, H4. repeat split; try lia; auto.
    intros h ->. destruct h as [|h]; [discriminate|].
    specialize (H3 h eq_refl). lia.
Qed.

Lemma chr_sound {R} (c : cclass) (prev : option N) (s : str) (caps : captures)
    (k : @cont R) (v : R) :
  rmatch (Chr c) prev s caps k = Some v ->
  exists x s', s = x :: s' /\ cmatch c x = true /\ k (Some x) s' caps = Some v.
Proof.
  cbn. destruct s as [|x s']; [discriminate|].
  destruct (cmatch c x) eqn:E; [|discriminate]. intros Hk.
  exists x, s'. auto.
Qed.

Lemma search_from_sound (r : regex) :
  forall (s : str) (prev : option N) (caps : captures),
    search_from r prev s = Some caps ->
    exists prev' pre s',
      s = pre ++ s'
      /\ rmatch r prev' s' [] (fun _ _ c => Some c) = Some caps.
Proof.
  induction s as [|x s IH]; intros prev caps Hs; cbn [search_from] in Hs.
  - destruct (rmatch r prev [] [] _) eqn:E; [|discriminate].
    injection Hs as ->. exists prev, [], []. auto.
  - destruct (rmatch r prev (x :: s) [] _) eqn:E.
    + injection Hs as ->. exists prev, [], (x :: s). auto.
    + destruct (IH _ _ Hs) as (prev' & pre & s' & -> & Hm).
      exists prev', (x :: pre), s'. auto.
Qed.

Lemma firstn_consumed {A} (s : list A) (n : nat) :
  (n <= List.length s)%nat ->
  firstn (List.length s - List.length (skipn n s)) s = firstn n s.
Proof.
  intros Hn. rewrite length_skipn. f_equal. lia.
Qed.

(** A match of the explicit pattern binds both groups, the first to one
    or two decimal digits. *)
Lemma explicita_groups (s : str) (caps : captures) :
  re_search patron_explicita s = Some caps ->
  exists g0 g1,
    groups 2 caps = [Some g0; Some g1]
    /\ (1 <= List.length g0 <= 2)%nat
    /\ forallb (cmatch CDigit) g0 = true.
Proof.
  intros Hs. apply search_from_sound in Hs as (prev & pre & s0 & _ & Hm).
  assert (E : patron_explicita =
              Seq (Group 1 (Rep CDigit 1 (Some 2%nat)))
                (Seq (Rep CSpace 0 None)
                   (Seq (Seq (Chr (CLit 100)) (Seq (Chr (CLit 101)) Eps))
                      (Seq (Rep CSpace 1 None)
                         (Seq (Group 2 (Rep CWord 1 None)) Eps)))))
    by reflexivity.
  rewrite E in Hm. clear E. cbn [rmatch] in Hm.
  apply rep_sound in Hm as (n & p1 & Hn1 & Hn2 & Hn3 & Hd & Hm).
  rewrite firstn_consumed in Hm by assumption.
  apply rep_sound in Hm as (n2 & p2 & _ & _ & _ & _ & Hm).
  destruct (skipn n2 (skipn n s0)) as [|x1 [|x2 s2]]; try discriminate.
  { destruct (cmatch (CLit 100) x1); discriminate. }
  destruct (cmatch (CLit 100) x1); [|discriminate].
  destruct (cmatch (CLit 101) x2); [|discriminate].
  apply rep_sound in Hm as (n3 & p3 & _ & _ & _ & _ & Hm).
  apply rep_sound in Hm as (n4 & p4 & _ & _ & _ & _ & Hm).
  injection Hm as <-.
  eexists _, _. split; [reflexivity|]. split; [|exact Hd].
  rewrite length_firstn. specialize (Hn3 _ eq_refl). lia.
Qed.

Lemma explicita_first_digit (s : str) (caps : captures) :
  re_search patron_explicita s = Some caps ->
  exists x, In x s /\ cmatch CDigit x = true.
Proof.
  intros Hs. apply search_from_sound in Hs as (prev & pre & s0 & -> & Hm).
  unfold patron_explicita, seqs in Hm. cbn [fold_right rmatch] in Hm.
  apply rep_sound in Hm as (n & p1 & Hn1 & Hn2 & _ & Hd & _).
  destruct s0 as [|x s0]; [cbn in Hn2; lia|].
  destruct n as [|n]; [lia|]. cbn in Hd. apply andb_true_iff in Hd as [Hx _].
  exists x. split; [|exact Hx]. apply in_or_app. right. now left.
Qed.

Lemma explicita_no_match_space (s : str) :
  forallb isspace s = true -> re_search patron_explicita s = None.
Proof.
  intros Hs. destruct (re_search patron_explicita s) as [caps|] eqn:E;
    [|reflexivity].
  apply explicita_first_digit in E as (x & Hx & Hd).
  rewrite forallb_forall in Hs. specialize (Hs x Hx).
  cbn in Hd. now rewrite (decimal_space x Hs) in Hd.
Qed.

Lemma primer_patron_no_explicita (s : str) :
  re_search patron_explicita s = None ->
  forall g, primer_patron patrones s <> Some (g, explicita).
Proof.
  intros Hn g. unfold patrones. cbn [primer_patron]. rewrite Hn.
  destruct (re_search patron_relativa_en s); [discriminate|].
  destruct (re_search patron_relativa_dia s); [discriminate|].
  destruct (re_search patron_dia_semana s); discriminate.
Qed.

Lemma primer_patron_explicita (s : str) (g : list (option str)) :
  primer_patron patrones s = Some (g, explicita) ->
  exists caps, re_search patron_explicita s = Some caps /\ g = groups 2 caps.
Proof.
  unfold patrones. cbn [primer_patron].
  destruct (re_search patron_explicita s) as [caps|].
  - intros [= <-]. eauto.
  - destruct (re_search patron_relativa_en s); [discriminate|].
    destruct (re_search patron_relativa_dia s); [discriminate|].
    destruct (re_search patron_dia_semana s); discriminate.
Qed.

(** strings *)

Lemma lstrip_space (s : str) : forallb isspace s = true -> lstrip s = [].
Proof.
  induction s as [|c s IH]; [reflexivity|]. cbn. intros Hs.
  apply andb_true_iff in Hs as [-> Hs]. now apply IH.
Qed.

Lemma strip_space (s : str) : forallb isspace s = true -> strip s = [].
Proof. intros Hs. unfold strip. now rewrite lstrip_space. Qed.

Lemma collapse_space (s : str) (b : bool) :
  forallb isspace s = true -> forallb isspace (collapse_spaces b s) = true.
Proof.
  revert b. induction s as [|c s IH]; intros b Hs; [reflexivity|].
  cbn in *. apply andb_true_iff in Hs as [Hc Hs]. rewrite Hc.
  destruct b; [now apply IH|]. cbn. now apply IH.
Qed.

Lemma filter_space (f : N -> bool) (s : str) :
  forallb isspace s = true -> forallb isspace (filter f s) = true.
Proof.
  induction s as [|c s IH]; [reflexivity|]. cbn. intros Hs.
  apply andb_true_iff in Hs as [Hc Hs]. destruct (f c); cbn; [rewrite Hc|];
    now apply IH.
Qed.

Lemma tokenizar_space (texto : str) :
  forallb isspace texto = true -> tokenizar texto = [].
Proof.
  intros Hs. unfold tokenizar, normalizar_texto.
  rewrite strip_space.
  - now rewrite (lower_space [] eq_refl).
  - apply collapse_space. unfold delete_chars. now apply filter_space.
Qed.

Lemma contains_space (needle hay : str) :
  forallb isspace hay = true ->
  match needle with c :: _ => isspace c = false | [] => False end ->
  contains needle hay = false.
Proof.
  destruct needle as [|c p]; [tauto|]. intros Hs Hc.
  induction hay as [|x hay IH]; [reflexivity|].
  cbn in Hs. apply andb_true_iff in Hs as [Hx Hs].
  cbn [contains starts_with]. rewrite (IH Hs).
  destruct (N.eqb_spec c x) as [->|Hne]; [congruence|reflexivity].
Qed.
End Regex.

(** ** The date resolver *)

Lemma monthrange_dim (y m : Z) :
  1 <= m <= 12 -> monthrange_ndays y m = Ok (_days_in_month y m).
Proof.
  intros Hm. unfold monthrange_ndays, _days_in_month.
  replace ((1 <=? m) && (m <=? 12)) with true
    by (symmetry; apply andb_true_iff; rewrite !Z.leb_le; lia).
  assert (Hc : m = 1 \/ m = 2 \/ m = 3 \/ m = 4 \/ m = 5 \/ m = 6 \/ m = 7
               \/ m = 8 \/ m = 9 \/ m = 10 \/ m = 11 \/ m = 12) by lia.
  destruct Hc as [->|[->|[->|[->|[->|[->|[->|[->|[->|[->|[->| ->]]]]]]]]]]];
    cbn; try reflexivity.
  destruct (_is_leap y); reflexivity.
Qed.

Lemma datetime_new_Ok (y m d : Z) (f : datetime) :
  datetime_new y m d = Ok f -> f = mkdt y m d 0 /\ valid_datetime f = true.
Proof.
  unfold datetime_new. destruct (negb _); [discriminate|].
  destruct (valid_ymd y m d) eqn:E; [|discriminate].
  intros [= <-]. split; [reflexivity | exact E].
Qed.

Lemma safe_date_Ok (y m d : Z) (f : datetime) :
  _safe_date y m d = Ok f ->
  1 <= m <= 12
  /\ f = mkdt y m (Z.min d (_days_in_month y m)) 0
  /\ valid_datetime f = true.
Proof.
  unfold _safe_date, _clamp_day, bind, monthrange_ndays.
  destruct ((1 <=? m) && (m <=? 12)) eqn:Em; [|discriminate].
  apply andb_true_iff in Em. rewrite !Z.leb_le in Em.
  pose proof (monthrange_dim y m ltac:(lia)) as Hd.
  unfold monthrange_ndays in Hd.
  replace ((1 <=? m) && (m <=? 12)) with true in Hd
    by (symmetry; apply andb_true_iff; rewrite !Z.leb_le; lia).
  injection Hd as Hd. rewrite Hd. intros Hn.
  apply datetime_new_Ok in Hn as [-> Hv]. repeat split; (lia || assumption).
Qed.

(** [_safe_date] succeeds on a day of at least 1 in a month of a
    supported year. *)
Lemma safe_date_ok (y m d : Z) :
  1 <= y <= 9999 -> 1 <= m <= 12 -> 1 <= d ->
  _safe_date y m d = Ok (mkdt y m (Z.min d (_days_in_month y m)) 0).
Proof.
  intros Hy Hm Hd. unfold _safe_date, _clamp_day, bind.
  rewrite monthrange_dim by assumption. unfold datetime_new.
  pose proof (month_tables (_is_leap y) m Hm) as (_ & Hdim & _).
  unfold dim_l in Hdim. fold (_days_in_month y m) in Hdim.
  replace (c_int y && c_int m && c_int (Z.min d (_days_in_month y m)))
    with true
    by (symmetry; unfold c_int;
        rewrite !andb_true_iff, !Z.leb_le, !Z.ltb_lt; lia).
  replace (valid_ymd y m (Z.min d (_days_in_month y m))) with true;
    [reflexivity|].
  symmetry. unfold valid_ymd, MINYEAR, MAXYEAR.
  rewrite !andb_true_iff, !Z.leb_le. lia.
Qed.

(** when [print] returns, the string has been written *)
Lemma print_Ok `{Stdout} {A} (s : str) (k : unit -> res A) (r : A) :
  (x <- print s ;; k x) = Ok r -> stdout_encodes s = true /\ k tt = Ok r.
Proof. unfold print. destruct (stdout_encodes s); [auto | discriminate]. Qed.

Lemma print_true `{Stdout} (s : str) :
  stdout_encodes s = true -> print s = Ok tt.
Proof. unfold print. now intros ->. Qed.


Section Resolver.
Context `{Unicode} `{DateParser} `{Stdout}.

Lemma digit_not_space (x : N) : cmatch CDigit x = true -> isspace x = false.
Proof.
  cbn. intros Hd. destruct (isspace x) eqn:E; [|reflexivity].
  now rewrite (decimal_space x E) in Hd.
Qed.

Lemma digit_value (x : N) :
  cmatch CDigit x = true -> exists v, decimal_value x = Some v /\ (v <= 9)%N.
Proof.
  cbn. destruct (decimal_value x) as [v|] eqn:E; [|discriminate].
  intros _. exists v. split; [reflexivity|]. exact (decimal_range x v E).
Qed.

(** [int] of one or two decimal digits *)
Lemma py_int_digits (g : str) :
  (1 <= List.length g <= 2)%nat -> forallb (cmatch CDigit) g = true ->
  exists n, py_int g = Some n /\ 0 <= n <= 99.
Proof.
  intros Hl Hd. destruct g as [|a [|b [|c g]]]; cbn in Hl; try lia.
  - cbn in Hd. rewrite andb_true_r in Hd.
    pose proof (digit_not_space a Hd) as Ea.
    destruct (digit_value a Hd) as (va & Eva & Hva).
    unfold py_int, strip, rstrip. cbn. rewrite Ea. cbn. rewrite Ea. cbn.
    rewrite Eva. eexists. split; [reflexivity|]. lia.
  - cbn in Hd. rewrite andb_true_r in Hd. apply andb_true_iff in Hd as [Ha Hb].
    pose proof (digit_not_space a Ha) as Ea.
    pose proof (digit_not_space b Hb) as Eb.
    destruct (digit_value a Ha) as (va & Eva & Hva).
    destruct (digit_value b Hb) as (vb & Evb & Hvb).
    unfold py_int, strip, rstrip. cbn. rewrite Ea. cbn. rewrite Eb. cbn.
    rewrite Eva, Evb. eexists. split; [reflexivity|]. lia.
Qed.

Lemma fecha_explicita_ok (texto : str) (ahora : datetime) :
  exists o, fecha_explicita texto ahora = Ok o /\ valid_opt o.
Proof.
  unfold fecha_explicita, extraer_fechas_mejorado.
  destruct (primer_patron patrones (str_lower texto)) as [[g t]|] eqn:E;
    [|exists None; split; [reflexivity | intros ? [=]]].
  destruct t; try (exists None; split; [reflexivity | intros ? [=]]).
  apply primer_patron_explicita in E as (caps & Hs & ->).
  apply explicita_groups in Hs as (g0 & g1 & -> & Hl & Hd).
  cbn [nth]. destruct (py_int_digits g0 Hl Hd) as (n & -> & Hn).
  destruct (assoc g1 meses_es) as [mes|];
    [|exists None; split; [reflexivity | intros ? [=]]].
  eexists. split; [reflexivity|]. intros f Hf.
  unfold attempt in Hf.
  destruct (_safe_date _ mes n) as [f'|] eqn:Es; [|discriminate].
  injection Hf as <-. now apply safe_date_Ok in Es.
Qed.

Lemma dias_adelante_range (o w : Z) (b : bool) :
  0 <= dias_adelante_de o w b <= 13.
Proof.
  unfold dias_adelante_de. pose proof (Z.mod_pos_bound (o - w) 7 ltac:(lia)).
  destruct b; destruct ((o - w) mod 7 =? 0); lia.
Qed.

Section Ahora.
Variable ahora : datetime.
Hypothesis ahora_valid : valid_datetime ahora = true.
Hypothesis ahora_year : year ahora <= 9998.

Lemma add_days_ahora (n : Z) :
  0 <= n <= 365 ->
  exists f, add_days ahora n = Ok f
            /\ valid_datetime f = true
            /\ toordinal f = toordinal ahora + n
            /\ tod f = tod ahora.
Proof.
  intros Hn. apply add_days_ok; try lia; try assumption.
  pose proof (toordinal_year_bound ahora ahora_valid ahora_year). lia.
Qed.

Lemma obtener_ok (dia : str) (b : bool) :
  exists o, _obtener_proximo_dia_semana dia ahora b = Ok o /\ valid_opt o.
Proof.
  unfold _obtener_proximo_dia_semana.
  destruct (assoc dia dias_es_indice) as [obj|];
    [|exists None; split; [reflexivity | intros ? [=]]].
  pose proof (dias_adelante_range obj (weekday ahora) b) as Hr.
  destruct (add_days_ahora (dias_adelante_de obj (weekday ahora) b)
              ltac:(lia)) as (f & -> & Hv & _).
  cbn. eexists. split; [reflexivity|]. now intros ? [= <-].
Qed.

Lemma fecha_dia_semana_ok (fecha_dt : option datetime) (claves : list str)
    (texto_min : str) (b : bool) :
  valid_opt fecha_dt ->
  exists o, fecha_dia_semana fecha_dt claves texto_min ahora b = Ok o
            /\ valid_opt o.
Proof.
  intros Hv. unfold fecha_dia_semana.
  destruct fecha_dt as [f|]; [exists (Some f); auto|].
  destruct (existsb _ claves); [|exists None; auto].
  destruct (find _ dias_es) as [dia|]; [apply obtener_ok | exists None; auto].
Qed.

(** The strategies never raise and always produce a calendar date. *)
Lemma resolver_fecha_ok (texto : str) :
  exists f, resolver_fecha texto ahora = Ok f /\ valid_datetime f = true.
Proof.
  unfold resolver_fecha.
  destruct (fecha_explicita_ok texto ahora) as (o1 & -> & V1). cbn [bind].
  destruct (fecha_dia_semana_ok o1 [py "próximo"; py "proximo"; py "siguiente"]
              (str_lower texto) true V1) as (o2 & -> & V2). cbn [bind].
  destruct (fecha_dia_semana_ok o2 [py "este"; py "este semana"]
              (str_lower texto) false V2) as (o3 & -> & V3). cbn [bind].
  destruct o3 as [f|]; [exists f; auto|].
  destruct (dateparser_parse true (str_lower texto) ahora) as [f|] eqn:E.
  - exists f. split; [reflexivity|]. exact (dateparser_valid _ _ _ _ E).
  - destruct (add_days_ahora 1 ltac:(lia)) as (f & -> & Hv & _). eauto.
Qed.

Lemma strptime_valid (s : str) (f : datetime) :
  strptime_ymd s = Ok f -> valid_datetime f = true.
Proof.
  unfold strptime_ymd.
  destruct (re_match strptime_re s) as [[caps [|? ?]]|]; try discriminate.
  destruct (group caps 1) as [gy|], (group caps 2) as [gm|],
    (group caps 3) as [gd|]; try discriminate.
  destruct (py_int gy), (py_int gm), (py_int gd); try discriminate.
  intros Hn. now apply datetime_new_Ok in Hn.
Qed.

Lemma preguntar_valid (fecha_este : option datetime) (fecha_proximo : datetime) :
  valid_opt fecha_este -> valid_datetime fecha_proximo = true ->
  forall entrada f resto,
    preguntar fecha_este fecha_proximo ahora entrada = Ok (f, resto) ->
    valid_datetime f = true.
Proof.
  intros Ve Vp. induction entrada as [|linea entrada IH]; intros f resto Hp;
    cbn [preguntar] in Hp; apply print_Ok in Hp as [_ Hp]; [discriminate|].
  destruct (str_in _ [py "este"; py "este mes"]).
  - destruct fecha_este as [fe|];
      [|apply print_Ok in Hp as [_ Hp]; now apply (IH _ _ Hp)].
    destruct (date_ge fe ahora);
      [|apply print_Ok in Hp as [_ Hp]; now apply (IH _ _ Hp)].
    injection Hp as <- _. now apply Ve.
  - destruct (str_in _ _).
    + now injection Hp as <- _.
    + destruct (strptime_ymd _) as [fu|] eqn:Es.
      * injection Hp as <- _. now apply strptime_valid in Es.
      * destruct (dateparser_parse false _ ahora) as [fp|] eqn:Ed;
          [|apply print_Ok in Hp as [_ Hp]; now apply (IH _ _ Hp)].
        injection Hp as <- _. exact (dateparser_valid _ _ _ _ Ed).
Qed.

Lemma fecha_proximo_ok (fecha_actual : datetime) :
  valid_datetime fecha_actual = true ->
  let '(y, m) := mes_siguiente ahora in
  fecha_proximo_de fecha_actual ahora
  = Ok (mkdt y m (Z.min (day fecha_actual) (_days_in_month y m)) 0).
Proof.
  intros Hv. apply valid_datetime_iff in Hv as [_ [_ Hd]].
  pose proof ahora_valid as Ha. apply valid_datetime_iff in Ha as [Hy [Hm _]].
  unfold mes_siguiente, fecha_proximo_de.
  destruct (Z.eqb_spec (month ahora) 12) as [E|E].
  - rewrite E. change (12 + 1 =? 13) with true. cbv iota.
    apply safe_date_ok; lia.
  - replace (month ahora + 1 =? 13) with false
      by (symmetry; apply Z.eqb_neq; lia).
    apply safe_date_ok; lia.
Qed.

Lemma fecha_este_ok (fecha_actual : datetime) :
  valid_datetime fecha_actual = true ->
  fecha_este_de fecha_actual ahora
  = Some (mkdt (year ahora) (month ahora)
            (Z.min (day fecha_actual)
                   (_days_in_month (year ahora) (month ahora))) 0).
Proof.
  intros Hv. apply valid_datetime_iff in Hv as [_ [_ Hd]].
  pose proof ahora_valid as Ha. apply valid_datetime_iff in Ha as [Hy [Hm _]].
  unfold fecha_este_de. rewrite safe_date_ok by lia. reflexivity.
Qed.

Lemma pedir_valid (texto : str) (fecha_actual : datetime)
    (entrada : list str) (f : datetime) (resto : list str) :
  valid_datetime fecha_actual = true ->
  _pedir_confirmacion_fecha texto fecha_actual ahora entrada = Ok (f, resto) ->
  valid_datetime f = true.
Proof.
  intros Hv. unfold _pedir_confirmacion_fecha.
  pose proof (fecha_proximo_ok fecha_actual Hv) as Hp.
  pose proof (fecha_este_ok fecha_actual Hv) as He.
  destruct (mes_siguiente ahora) as [y m]. rewrite Hp. cbn [bind]. intros Hq.
  do 3 apply print_Ok in Hq as [_ Hq].
  pose proof ahora_valid as Ha. apply valid_datetime_iff in Ha as [Hy [Hm Hd]].
  pose proof Hv as Hv'. apply valid_datetime_iff in Hv' as [_ [_ Hd']].
  assert (Hp' := Hp). unfold fecha_proximo_de in Hp'.
  refine (preguntar_valid _ _ _ _ _ _ _ Hq).
  - rewrite He. intros ? [= <-].
    assert (Hs := safe_date_ok (year ahora) (month ahora) (day fecha_actual)
                    ltac:(lia) Hm ltac:(lia)).
    now apply safe_date_Ok in Hs.
  - destruct (month ahora + 1 =? 13); now apply safe_date_Ok in Hp'.
Qed.

(** once its first lines are written, the confirmation step is the
    loop over the answers *)
Lemma pedir_avisos (texto : str) (fecha_actual : datetime) (entrada : list str) :
  valid_datetime fecha_actual = true ->
  forallb stdout_encodes (avisos texto fecha_actual ahora) = true ->
  exists fecha_proximo,
    fecha_proximo_de fecha_actual ahora = Ok fecha_proximo
    /\ stdout_encodes msg_eleccion = true
    /\ _pedir_confirmacion_fecha texto fecha_actual ahora entrada
       = preguntar (fecha_este_de fecha_actual ahora) fecha_proximo ahora
           entrada.
Proof.
  intros Hv Ha. pose proof (fecha_proximo_ok fecha_actual Hv) as Hp.
  destruct (mes_siguiente ahora) as [y m].
  unfold avisos in Ha. rewrite Hp in Ha. cbn [forallb] in Ha.
  apply andb_true_iff in Ha as [A1 Ha]. apply andb_true_iff in Ha as [A2 Ha].
  apply andb_true_iff in Ha as [A3 Ha]. apply andb_true_iff in Ha as [A4 _].
  eexists. split; [exact Hp|]. split; [exact A4|].
  unfold _pedir_confirmacion_fecha. rewrite Hp. cbn [bind].
  rewrite (print_true _ A1). cbn [bind]. rewrite (print_true _ A2). cbn [bind].
  rewrite (print_true _ A3). reflexivity.
Qed.
End Ahora.

(** writing the prompt twice raises no more than writing it once *)
Lemma preguntar_eleccion (fecha_este : option datetime)
    (fecha_proximo ahora : datetime) (entrada : list str) :
  (x <- print msg_eleccion ;; preguntar fecha_este fecha_proximo ahora entrada)
  = preguntar fecha_este fecha_proximo ahora entrada.
Proof.
  destruct entrada; cbn [preguntar]; unfold print;
    destruct (stdout_encodes msg_eleccion); reflexivity.
Qed.

Lemma procesar_sin_escalada (texto : str) (ahora : datetime)
    (entrada : list str) (f : datetime) :
  resolver_fecha texto ahora = Ok f -> date_lt f ahora = false ->
  procesar_logica_negocio texto ahora entrada
  = Ok ({| nombre := str_capitalize texto;
           fecha := strftime_ymd f;
           tipo := tipo_de (remover_stopwords (tokenizar texto));
           prioridad := prioridad_de (tokenizar texto)
                          (remover_stopwords (tokenizar texto));
           materia := materia_de (remover_stopwords (tokenizar texto)) |},
        entrada).
Proof.
  intros Hr Hl. unfold procesar_logica_negocio. rewrite Hr. cbn [bind].
  rewrite Hl. reflexivity.
Qed.

Lemma procesar_con_escalada (texto : str) (ahora : datetime)
    (entrada : list str) (f f' : datetime) (resto : list str) :
  resolver_fecha texto ahora = Ok f -> date_lt f ahora = true ->
  _pedir_confirmacion_fecha texto f ahora entrada = Ok (f', resto) ->
  procesar_logica_negocio texto ahora entrada
  = Ok ({| nombre := str_capitalize texto;
           fecha := strftime_ymd f';
           tipo := tipo_de (remover_stopwords (tokenizar texto));
           prioridad := prioridad_de (tokenizar texto)
                          (remover_stopwords (tokenizar texto));
           materia := materia_de (remover_stopwords (tokenizar texto)) |},
        resto).
Proof.
  intros Hr Hl Hp. unfold procesar_logica_negocio. rewrite Hr. cbn [bind].
  rewrite Hl, Hp. reflexivity.
Qed.
End Resolver.

(** ** The date format *)

Lemma digit_char (k : Z) :
  0 <= k <= 9 -> is_digit_char (digit k) = true /\ valor (digit k) = k.
Proof.
  intros Hk. unfold is_digit_char, digit, valor. split.
  - apply andb_true_iff. rewrite !N.leb_le. lia.
  - lia.
Qed.

(** from the year 1000 on the year takes four characters *)
Lemma strftime_Y_4 (y : Z) :
  1000 <= y ->
  strftime_Y y = [digit (y / 1000); digit (y / 100 mod 10);
                  digit (y / 10 mod 10); digit (y mod 10)].
Proof.
  intros Hy. unfold strftime_Y.
  destruct (Z.ltb_spec y 10); [lia|]. destruct (Z.ltb_spec y 100); [lia|].
  destruct (Z.ltb_spec y 1000); [lia|]. reflexivity.
Qed.

Lemma strftime_ymd_4 (f : datetime) :
  1000 <= year f ->
  strftime_ymd f
  = [digit (year f / 1000); digit (year f / 100 mod 10);
     digit (year f / 10 mod 10); digit (year f mod 10); 45%N;
     digit (month f / 10); digit (month f mod 10); 45%N;
     digit (day f / 10); digit (day f mod 10)].
Proof.
  intros Hy. unfold strftime_ymd. now rewrite strftime_Y_4.
Qed.

Lemma strftime_formato (f : datetime) :
  valid_datetime f = true -> 1000 <= year f ->
  formato_iso (strftime_ymd f) = true
  /\ campos_iso (strftime_ymd f) = (year f, month f, day f).
Proof.
  intros Hv Hk. rewrite strftime_ymd_4 by assumption.
  apply valid_datetime_iff in Hv as [Hy [Hm Hd]].
  pose proof (month_tables (_is_leap (year f)) (month f) Hm) as (_ & Hdim & _).
  unfold dim_l in Hdim. fold (_days_in_month (year f) (month f)) in Hdim.
  unfold formato_iso, campos_iso. cbn [forallb].
  destruct (digit_char (year f / 1000)) as [-> ->];
    [Z.div_mod_to_equations; lia|].
  destruct (digit_char (year f / 100 mod 10)) as [-> ->];
    [Z.div_mod_to_equations; lia|].
  destruct (digit_char (year f / 10 mod 10)) as [-> ->];
    [Z.div_mod_to_equations; lia|].
  destruct (digit_char (year f mod 10)) as [-> ->];
    [Z.div_mod_to_equations; lia|].
  destruct (digit_char (month f / 10)) as [-> ->];
    [Z.div_mod_to_equations; lia|].
  destruct (digit_char (month f mod 10)) as [-> ->];
    [Z.div_mod_to_equations; lia|].
  destruct (digit_char (day f / 10)) as [-> ->];
    [Z.div_mod_to_equations; lia|].
  destruct (digit_char (day f mod 10)) as [-> ->];
    [Z.div_mod_to_equations; lia|].
  split; [reflexivity|].
  f_equal; [f_equal|]; Z.div_mod_to_equations; lia.
Qed.

(** ** The interpreter *)

Lemma dias_es_en_indice (dia : str) :
  In dia dias_es ->
  exists objetivo, assoc dia dias_es_indice = Some objetivo /\ 0 <= objetivo <= 6.
Proof.
  intros Hin. cbn in Hin.
  destruct Hin as [<-|[<-|[<-|[<-|[<-|[<-|[<-|[<-|[<-|[]]]]]]]]]];
    eexists; (split; [vm_compute; reflexivity | lia]).
Qed.

Lemma meses_es_rango (mes_nombre : str) (mes_num : Z) :
  assoc mes_nombre meses_es = Some mes_num -> 1 <= mes_num <= 12.
Proof.
  unfold meses_es. cbn [assoc].
  repeat match goal with
         | |- (if ?c then _ else _) = _ -> _ =>
             destruct c; [intros [= <-]; lia|]
         end.
  discriminate.
Qed.

Section Teoremas.
Context `{Unicode} `{DateParser} `{Stdout}.

Lemma resolver_explicita (texto : str) (ahora f : datetime) :
  fecha_explicita texto ahora = Ok (Some f) -> resolver_fecha texto ahora = Ok f.
Proof. intros He. unfold resolver_fecha. rewrite He. reflexivity. Qed.
End Teoremas.

(** the explicit strategy gives no date for a day below 1 *)
Lemma safe_date_dia_0 (y m d : Z) : d < 1 -> attempt (_safe_date y m d) = None.
Proof.
  intros Hd. destruct (_safe_date y m d) as [f|e] eqn:E; [|reflexivity].
  exfalso. apply safe_date_Ok in E as (Hm & -> & Hv).
  apply valid_datetime_iff in Hv as (_ & _ & Hday). cbn [day] in Hday. lia.
Qed.

(** C6, as the code has it: when the first match of the explicit
    pattern has a day of at least 1 and a month of the table, the date
    is that day and month, of this year
    or, when the month is earlier than the current one or the same
    with an earlier day, of the next; the day is clamped to the length
    of the month; the date is not in the past and is the one of the
    record.  "27 de febrero" read on a 1st of March is the 27th of
    February of the next year.  When the first match has a day below 1
    or a word that is no month of the table, the strategy gives no
    date, whatever the text and the clock, and the date is the one the
    later strategies give: the weekday after a next-week qualifier,
    the weekday after "este", the fallback parser, tomorrow.  The
    months of the table are the twelve Spanish month names in full. *)
Theorem fecha_explicita_dia_mes :
  (forall (U : Unicode) (P : DateParser) (S : Stdout)
          (texto : str) (ahora : datetime) (entrada : list str)
          (g0 mes_nombre : str) (dia_num mes_num : Z),
      valid_datetime ahora = true -> year ahora <= 9998 ->
      extraer_fechas_mejorado texto
        = Some ([Some g0; Some mes_nombre], explicita) ->
      py_int g0 = Some dia_num -> 1 <= dia_num ->
      assoc mes_nombre meses_es = Some mes_num ->
      let anio :=
        if (mes_num <? month ahora)
           || (mes_num =? month ahora) && (dia_num <? day ahora)
        then year ahora + 1 else year ahora in
      let f := mkdt anio mes_num
                 (Z.min dia_num (_days_in_month anio mes_num)) 0 in
      resolver_fecha texto ahora = Ok f
      /\ valid_datetime f = true
      /\ date_lt f ahora = false
      /\ exists t, procesar_logica_negocio texto ahora entrada = Ok (t, entrada)
                   /\ fecha t = strftime_ymd f)
  /\ (forall (P : DateParser) (S : Stdout) (y hora : Z) (entrada : list str),
        1 <= y <= 9998 ->
        exists t,
          @procesar_logica_negocio latin1 P S (py "27 de febrero")
            (mkdt y 3 1 hora) entrada = Ok (t, entrada)
          /\ fecha t = strftime_ymd (mkdt (y + 1) 2 27 0))
  /\ (forall (U : Unicode) (P : DateParser)
             (texto : str) (ahora : datetime)
             (g0 mes_nombre : str) (dia_num : Z),
        extraer_fechas_mejorado texto
          = Some ([Some g0; Some mes_nombre], explicita) ->
        py_int g0 = Some dia_num ->
        dia_num < 1 \/ assoc mes_nombre meses_es = None ->
        fecha_explicita texto ahora = Ok None
        /\ resolver_fecha texto ahora
           = (fecha_dt <- fecha_dia_semana None
                            [py "próximo"; py "proximo"; py "siguiente"]
                            (str_lower texto) ahora true ;;
              fecha_dt <- fecha_dia_semana fecha_dt
                            [py "este"; py "este semana"]
                            (str_lower texto) ahora false ;;
              match
                match fecha_dt with
                | Some _ => fecha_dt
                | None => dateparser_parse true (str_lower texto) ahora
                end
              with
              | Some f => Ok f
              | None => add_days ahora 1
              end))
  /\ meses_es
     = combine
         (map py [ "enero"; "febrero"; "marzo"; "abril"; "mayo"; "junio";
                   "julio"; "agosto"; "septiembre"; "octubre"; "noviembre";
                   "diciembre" ]%string)
         (range 1 13).
Proof.
  assert (General :
    forall (U : Unicode) (P : DateParser) (S : Stdout)
           (texto : str) (ahora : datetime) (entrada : list str)
           (g0 mes_nombre : str) (dia_num mes_num : Z),
      valid_datetime ahora = true -> year ahora <= 9998 ->
      extraer_fechas_mejorado texto
        = Some ([Some g0; Some mes_nombre], explicita) ->
      py_int g0 = Some dia_num -> 1 <= dia_num ->
      assoc mes_nombre meses_es = Some mes_num ->
      let anio :=
        if (mes_num <? month ahora)
           || (mes_num =? month ahora) && (dia_num <? day ahora)
        then year ahora + 1 else year ahora in
      let f := mkdt anio mes_num
                 (Z.min dia_num (_days_in_month anio mes_num)) 0 in
      resolver_fecha texto ahora = Ok f
      /\ valid_datetime f = true
      /\ date_lt f ahora = false
      /\ exists t, procesar_logica_negocio texto ahora entrada
                   = Ok (t, entrada)
                   /\ fecha t = strftime_ymd f).
  { intros U P S texto ahora entrada g0 mes_nombre dia_num mes_num
           Hv Hy He Hi Hd Hm anio f.
    pose proof (meses_es_rango _ _ Hm) as Hmr.
    pose proof Hv as Hv'. apply valid_datetime_iff in Hv' as [Hya [Hma Hda]].
    assert (Hanio : year ahora <= anio <= 9999)
      by (subst anio; destruct (_ || _); lia).
    assert (Hs : _safe_date anio mes_num dia_num = Ok f)
      by (apply safe_date_ok; lia).
    assert (Hr : resolver_fecha texto ahora = Ok f).
    { apply resolver_explicita. unfold fecha_explicita. rewrite He.
      cbn [nth]. rewrite Hi, Hm. fold anio. rewrite Hs. reflexivity. }
    assert (Hvf : valid_datetime f = true) by now apply safe_date_Ok in Hs.
    assert (Hlt : date_lt f ahora = false).
    { destruct (date_lt f ahora) eqn:E; [|reflexivity]. exfalso.
      apply date_lt_iff in E. unfold lex_lt in E. cbn [year month day f] in E.
      subst anio.
      destruct ((mes_num <? month ahora)
                || (mes_num =? month ahora) && (dia_num <? day ahora)) eqn:Eb.
      - lia.
      - apply orb_false_iff in Eb as [E1 E2]. apply Z.ltb_ge in E1.
        destruct E as [E|[_ [E|[E E']]]]; try lia.
        rewrite E in E2. rewrite Z.eqb_refl in E2. cbn in E2.
        apply Z.ltb_ge in E2. rewrite E in E'. lia. }
    repeat split; try assumption.
    eexists. split; [apply procesar_sin_escalada; eassumption | reflexivity]. }
  split; [apply General|]. split; [|split; [|reflexivity]].
  - intros P S y hora entrada Hy.
    assert (Hmin : Z.min 27 (_days_in_month (y + 1) 2) = 27)
      by (unfold _days_in_month; cbn; destruct (_is_leap (y + 1)); reflexivity).
    assert (G : exists t,
               @procesar_logica_negocio latin1 P S (py "27 de febrero")
                 (mkdt y 3 1 hora) entrada = Ok (t, entrada)
               /\ fecha t = strftime_ymd
                              (mkdt (y + 1) 2
                                 (Z.min 27 (_days_in_month (y + 1) 2)) 0)).
    { refine (proj2 (proj2 (proj2
                (General latin1 P S (py "27 de febrero") (mkdt y 3 1 hora)
                   entrada (py "27") (py "febrero") 27 2 _ _ _ _ _ _)))).
      - unfold valid_datetime, valid_ymd, MINYEAR, MAXYEAR. cbn [year month day].
        change (_days_in_month y 3) with 31.
        rewrite !andb_true_iff, !Z.leb_le. lia.
      - cbn. lia.
      - vm_compute. reflexivity.
      - vm_compute. reflexivity.
      - lia.
      - vm_compute. reflexivity. }
    rewrite Hmin in G. exact G.
  - intros U P texto ahora g0 mes_nombre dia_num He Hi Hc.
    assert (Hn : fecha_explicita texto ahora = Ok None).
    { unfold fecha_explicita. rewrite He. cbn [nth]. rewrite Hi.
      destruct (assoc mes_nombre meses_es) as [mes_num|] eqn:Em;
        [|reflexivity].
      destruct Hc as [Hd|Hc]; [|discriminate].
      now rewrite safe_date_dia_0. }
    split; [exact Hn|]. unfold resolver_fecha. rewrite Hn. reflexivity.
Qed.

Lemma fecha_explicita_dia_mes_witness :
  exists t,
    procesar_logica_negocio (py "Proyecto de BI para el 27 de febrero")
      domingo_1_marzo [] = Ok (t, [])
    /\ fecha t = py "2027-02-27".
Proof.
  destruct (proj1 fecha_explicita_dia_mes latin1 sin_fechas utf8
              (py "Proyecto de BI para el 27 de febrero") domingo_1_marzo []
              (py "27") (py "febrero") 27 2
              eq_refl ltac:(vm_compute; discriminate) eq_refl eq_refl
              ltac:(lia) eq_refl)
    as (_ & _ & _ & t & Ht & Hf).
  exists t. split; [exact Ht|]. rewrite Hf. reflexivity.
Defined.

(** C6 as stated fails on two kinds of text.  "0 de febrero" matches
    the pattern with a month of the table, but day 0 is no day:
    [datetime] raises, the strategy gives no date, and (the fallback
    parser finding nothing) the record carries tomorrow's date, not a
    day of February.  In "3 de web el 27 de febrero" the first match
    is "3 de web", no month, and the strategy gives no date although
    "27 de febrero" follows. *)
Lemma explicita_sin_fecha :
  extraer_fechas_mejorado (py "0 de febrero")
    = Some ([Some (py "0"); Some (py "febrero")], explicita)
  /\ py_int (py "0") = Some 0
  /\ assoc (py "febrero") meses_es = Some 2
  /\ _safe_date 2027 2 0 = Raise ValueError
  /\ fecha_explicita (py "0 de febrero") domingo_1_marzo = Ok None
  /\ @procesar_logica_negocio latin1 sin_fechas utf8 (py "0 de febrero")
       domingo_1_marzo []
     = Ok ({| nombre := py "0 de febrero"; fecha := py "2026-03-02";
              tipo := py "Deber"; prioridad := py "Media"; materia := [] |},
           [])
  /\ extraer_fechas_mejorado (py "3 de web el 27 de febrero")
     = Some ([Some (py "3"); Some (py "web")], explicita)
  /\ assoc (py "web") meses_es = None
  /\ fecha_explicita (py "3 de web el 27 de febrero") domingo_1_marzo = Ok None.
Proof. vm_compute. repeat split. Qed.

(** C7, as the code has it: when the explicit pattern has given no
    date and the text holds a next-week qualifier and a weekday name
    (the first of [dias_es] found in it), the date is [ahora] plus
    7 days if the weekday is today's and plus the days up to it and 7
    more otherwise: 7 to 13 days ahead, on the weekday asked for,
    strictly after today, and it is the date of the record. *)
Theorem proximo_dia_semana (U : Unicode) (P : DateParser) (S : Stdout)
    (texto : str) (ahora : datetime) (entrada : list str) (dia : str) :
  valid_datetime ahora = true -> year ahora <= 9998 ->
  fecha_explicita texto ahora = Ok None ->
  existsb (fun kw => contains kw (str_lower texto))
          [py "próximo"; py "proximo"; py "siguiente"] = true ->
  find (fun dia => contains dia (str_lower texto)) dias_es = Some dia ->
  exists objetivo f t,
    assoc dia dias_es_indice = Some objetivo
    /\ resolver_fecha texto ahora = Ok f
    /\ ((objetivo - weekday ahora) mod 7 = 0 ->
        toordinal f = toordinal ahora + 7)
    /\ ((objetivo - weekday ahora) mod 7 <> 0 ->
        toordinal f = toordinal ahora + (objetivo - weekday ahora) mod 7 + 7)
    /\ 7 <= toordinal f - toordinal ahora <= 13
    /\ weekday f = objetivo
    /\ valid_datetime f = true
    /\ date_lt ahora f = true
    /\ procesar_logica_negocio texto ahora entrada = Ok (t, entrada)
    /\ fecha t = strftime_ymd f.
Proof.
  intros Hv Hy He Hk Hf.
  pose proof (find_some _ _ Hf) as [Hin _].
  destruct (dias_es_en_indice dia Hin) as (objetivo & Ha & Ho).
  pose proof (Z.mod_pos_bound (objetivo - weekday ahora) 7 ltac:(lia)) as Hm.
  set (k := dias_adelante_de objetivo (weekday ahora) true).
  assert (Hkr : 7 <= k <= 13
                /\ ((objetivo - weekday ahora) mod 7 = 0 -> k = 7)
                /\ ((objetivo - weekday ahora) mod 7 <> 0 ->
                    k = (objetivo - weekday ahora) mod 7 + 7)).
  { subst k. unfold dias_adelante_de.
    destruct (Z.eqb_spec ((objetivo - weekday ahora) mod 7) 0); lia. }
  destruct (add_days_ahora ahora Hv Hy k ltac:(lia)) as (f & Hadd & Hvf & Hord & _).
  assert (Hr : resolver_fecha texto ahora = Ok f).
  { unfold resolver_fecha. rewrite He. cbn [bind].
    assert (E : fecha_dia_semana None
                  [py "próximo"; py "proximo"; py "siguiente"]
                  (str_lower texto) ahora true = Ok (Some f)).
    { unfold fecha_dia_semana. rewrite Hk, Hf.
      unfold _obtener_proximo_dia_semana. rewrite Ha. fold k. rewrite Hadd.
      reflexivity. }
    rewrite E. reflexivity. }
  assert (Hw : weekday f = objetivo).
  { unfold weekday in *. rewrite Hord.
    destruct Hkr as (_ & K0 & K1).
    destruct (Z.eq_dec ((objetivo - (toordinal ahora + 6) mod 7) mod 7) 0) as [E|E].
    - rewrite (K0 E). revert E. Z.div_mod_to_equations. lia.
    - rewrite (K1 E). clear K0 K1 E. Z.div_mod_to_equations. lia. }
  assert (Hlt : date_lt ahora f = true)
    by (apply date_lt_toordinal; try assumption; lia).
  assert (Hge : date_lt f ahora = false).
  { destruct (date_lt f ahora) eqn:E; [|reflexivity].
    apply date_lt_toordinal in E; try assumption. lia. }
  exists objetivo, f. eexists.
  split; [exact Ha|]. split; [exact Hr|].
  split; [intros E; rewrite Hord; lia|].
  split; [intros E; rewrite Hord; lia|].
  split; [lia|]. split; [exact Hw|]. split; [exact Hvf|]. split; [exact Hlt|].
  split; [apply procesar_sin_escalada; eassumption | reflexivity].
Qed.

Lemma proximo_dia_semana_witness :
  exists t,
    procesar_logica_negocio
      (py "Taller de aplicaciones distribuidas próximo domingo")
      domingo_1_marzo [] = Ok (t, [])
    /\ fecha t = py "2026-03-08".
Proof.
  destruct (proximo_dia_semana latin1 sin_fechas utf8
              (py "Taller de aplicaciones distribuidas próximo domingo")
              domingo_1_marzo [] (py "domingo")
              eq_refl ltac:(vm_compute; discriminate) eq_refl eq_refl eq_refl)
    as (objetivo & f & t & Ha & Hr & _ & _ & _ & _ & _ & _ & Hp & Hf).
  exists t. split; [exact Hp|]. rewrite Hf.
  assert (E : Ok f = Ok (mkdt 2026 3 8 36000000000))
    by (rewrite <- Hr; reflexivity).
  injection E as ->. reflexivity.
Defined.

(** C7 as stated fails when the text also holds an explicit day and
    month: that strategy runs first, and "27 de febrero próximo lunes"
    read on Sunday 1 March 2026 gives Saturday 27 February 2027, not a
    Monday one to two weeks ahead. *)
Lemma explicita_antes_que_proximo :
  let texto := py "27 de febrero próximo lunes" in
  contains (py "próximo") (str_lower texto) = true
  /\ find (fun dia => contains dia (str_lower texto)) dias_es = Some (py "lunes")
  /\ fecha_explicita texto domingo_1_marzo = Ok (Some (mkdt 2027 2 27 0))
  /\ @procesar_logica_negocio latin1 sin_fechas utf8 texto domingo_1_marzo []
     = Ok ({| nombre := py "27 de febrero próximo lunes";
              fecha := py "2027-02-27";
              tipo := py "Deber"; prioridad := py "Media"; materia := [] |},
           [])
  /\ weekday (mkdt 2027 2 27 0) = 5
  /\ toordinal (mkdt 2027 2 27 0) - toordinal domingo_1_marzo = 363.
Proof. vm_compute. repeat split. Qed.

Lemma existsb_contains_space (claves : list str) (hay : str) :
  forallb isspace hay = true ->
  Forall (fun k => match k with c :: _ => isspace c = false | [] => False end)
         claves ->
  existsb (fun kw => contains kw hay) claves = false.
Proof.
  intros Hs Hc. induction Hc as [|k claves Hk _ IH]; [reflexivity|].
  cbn. rewrite (contains_space k hay Hs Hk). exact IH.
Qed.

(** C9: on empty or white-space text there are no tokens, the subject
    is empty, the type is "Deber", the priority is "Media", and, the
    fallback parser finding no date in the blank text, the date is
    [ahora] plus one day; the record is returned, nothing is raised
    and no line of input is read. *)
Theorem texto_en_blanco (U : Unicode) (P : DateParser) (S : Stdout)
    (texto : str) (ahora : datetime) (entrada : list str) :
  forallb isspace texto = true ->
  valid_datetime ahora = true -> year ahora <= 9998 ->
  dateparser_parse true (str_lower texto) ahora = None ->
  tokenizar texto = []
  /\ materia_de (remover_stopwords (tokenizar texto)) = []
  /\ tipo_de (remover_stopwords (tokenizar texto)) = py "Deber"
  /\ prioridad_de (tokenizar texto) (remover_stopwords (tokenizar texto))
     = py "Media"
  /\ exists f,
       add_days ahora 1 = Ok f
       /\ toordinal f = toordinal ahora + 1
       /\ valid_datetime f = true
       /\ resolver_fecha texto ahora = Ok f
       /\ procesar_logica_negocio texto ahora entrada
          = Ok ({| nombre := str_capitalize texto;
                   fecha := strftime_ymd f;
                   tipo := py "Deber";
                   prioridad := py "Media";
                   materia := [] |}, entrada).
Proof.
  intros Hs Hv Hy Hd.
  pose proof (tokenizar_space texto Hs) as Ht. rewrite Ht.
  assert (Em : materia_de (remover_stopwords []) = []) by reflexivity.
  assert (Et : tipo_de (remover_stopwords []) = py "Deber") by reflexivity.
  assert (Ep : prioridad_de [] (remover_stopwords []) = py "Media")
    by reflexivity.
  split; [reflexivity|]. split; [exact Em|]. split; [exact Et|].
  split; [exact Ep|].
  destruct (add_days_ahora ahora Hv Hy 1 ltac:(lia)) as (f & Hadd & Hvf & Hord & _).
  pose proof (lower_space texto Hs) as Hl.
  assert (He : fecha_explicita texto ahora = Ok None).
  { unfold fecha_explicita, extraer_fechas_mejorado. rewrite Hl.
    pose proof (primer_patron_no_explicita texto
                  (explicita_no_match_space texto Hs)) as Hn.
    destruct (primer_patron patrones texto) as [[g t]|]; [|reflexivity].
    destruct t; try reflexivity. now elim (Hn g). }
  assert (Hr : resolver_fecha texto ahora = Ok f).
  { unfold resolver_fecha. rewrite He. cbn [bind].
    unfold fecha_dia_semana. rewrite Hl.
    rewrite !existsb_contains_space; try assumption;
      try (repeat constructor).
    cbn [bind]. rewrite <- Hl at 1. rewrite Hd. exact Hadd. }
  exists f. repeat split; try assumption.
  rewrite (procesar_sin_escalada texto ahora entrada f Hr).
  - rewrite Ht, Em, Et, Ep. reflexivity.
  - destruct (date_lt f ahora) eqn:E; [|reflexivity].
    apply date_lt_toordinal in E; try assumption. lia.
Qed.

Lemma texto_en_blanco_witness :
  tokenizar (py "   ") = []
  /\ procesar_logica_negocio (py "   ") domingo_1_marzo []
     = Ok ({| nombre := py "   "; fecha := py "2026-03-02";
              tipo := py "Deber"; prioridad := py "Media"; materia := [] |},
           []).
Proof.
  destruct (texto_en_blanco latin1 sin_fechas utf8 (py "   ") domingo_1_marzo []
              eq_refl eq_refl ltac:(vm_compute; discriminate) eq_refl)
    as (Ht & _ & _ & _ & f & Hadd & _ & _ & _ & Hp).
  split; [exact Ht|]. rewrite Hp.
  assert (E : Ok f = Ok (mkdt 2026 3 2 36000000000))
    by (rewrite <- Hadd; reflexivity).
  injection E as ->. reflexivity.
Defined.

Lemma ayer_2026_valid (pf : bool) (text : str) (base t : datetime) :
  ayer_2026 pf text base = Some t -> valid_datetime t = true.
Proof.
  unfold ayer_2026. destruct (str_eqb text (py "ayer")); [|discriminate].
  now intros [= <-].
Qed.

Definition parser_ayer : DateParser := {|
  dateparser_parse := ayer_2026;
  dateparser_valid := ayer_2026_valid
|}.

Lemma date_ge_lt (a b : datetime) : date_ge a b = true <-> date_lt a b = false.
Proof. unfold date_ge. apply negb_true_iff. Qed.

Lemma date_ge_year (a b : datetime) : date_lt a b = false -> year b <= year a.
Proof.
  unfold date_lt. destruct (Z.ltb_spec (year a) (year b)); [discriminate|].
  intros _. lia.
Qed.

(** C1: with a clock reading in a year from 1000 to 9998, and provided
    the confirmation step, whenever the resolved date is in the past,
    hands back a date that is not, the interpreter returns a record
    whose [fecha] is in the format YYYY-MM-DD, shows a valid calendar
    date and is not before today.  In the confirmation step the
    candidate of the next month is in January of the next year when
    this month is December, and (on a standard output that writes what
    the step prints) an answer "este" is taken when the candidate of
    this month is not before today and is refused otherwise, the next
    line being read. *)
Theorem fecha_valida_no_pasada (U : Unicode) (P : DateParser) (S : Stdout)
    (texto : str) (ahora : datetime) (entrada : list str) :
  valid_datetime ahora = true -> 1000 <= year ahora -> year ahora <= 9998 ->
  (forall f,
     resolver_fecha texto ahora = Ok f -> date_lt f ahora = true ->
     exists f' resto,
       _pedir_confirmacion_fecha texto f ahora entrada = Ok (f', resto)
       /\ date_ge f' ahora = true) ->
  (exists t resto f,
     procesar_logica_negocio texto ahora entrada = Ok (t, resto)
     /\ fecha t = strftime_ymd f
     /\ formato_iso (fecha t) = true
     /\ campos_iso (fecha t) = (year f, month f, day f)
     /\ valid_datetime f = true
     /\ date_lt f ahora = false)
  /\ (forall fecha_actual,
        valid_datetime fecha_actual = true ->
        (month ahora = 12 ->
         fecha_proximo_de fecha_actual ahora
         = Ok (mkdt (year ahora + 1) 1
                 (Z.min (day fecha_actual)
                        (_days_in_month (year ahora + 1) 1)) 0))
        /\ (month ahora <> 12 ->
            fecha_proximo_de fecha_actual ahora
            = Ok (mkdt (year ahora) (month ahora + 1)
                    (Z.min (day fecha_actual)
                           (_days_in_month (year ahora) (month ahora + 1)))
                    0)))
  /\ (forall fecha_actual linea resto,
        valid_datetime fecha_actual = true ->
        str_in (str_lower (strip linea)) [py "este"; py "este mes"] = true ->
        let fecha_este :=
          mkdt (year ahora) (month ahora)
            (Z.min (day fecha_actual)
                   (_days_in_month (year ahora) (month ahora))) 0 in
        fecha_este_de fecha_actual ahora = Some fecha_este
        /\ (date_lt fecha_este ahora = false ->
            forallb stdout_encodes (avisos texto fecha_actual ahora) = true ->
            _pedir_confirmacion_fecha texto fecha_actual ahora (linea :: resto)
            = Ok (fecha_este, resto))
        /\ (date_lt fecha_este ahora = true ->
            stdout_encodes msg_no_posible = true ->
            _pedir_confirmacion_fecha texto fecha_actual ahora (linea :: resto)
            = _pedir_confirmacion_fecha texto fecha_actual ahora resto)).
Proof.
  intros Hv Hk Hy Hc. split; [|split].
  - destruct (resolver_fecha_ok ahora Hv Hy texto) as (f & Hr & Hvf).
    destruct (date_lt f ahora) eqn:El.
    + destruct (Hc f Hr El) as (f' & resto & Hp & Hge).
      pose proof (pedir_valid ahora Hv Hy texto f entrada f' resto Hvf Hp) as Hv'.
      apply date_ge_lt in Hge. pose proof (date_ge_year _ _ Hge) as Hyf.
      destruct (strftime_formato f' Hv' ltac:(lia)) as [Hfmt Hcampos].
      eexists _, resto, f'.
      split; [exact (procesar_con_escalada _ _ _ _ _ _ Hr El Hp)|].
      cbn [fecha]. repeat split; assumption.
    + pose proof (date_ge_year _ _ El) as Hyf.
      destruct (strftime_formato f Hvf ltac:(lia)) as [Hfmt Hcampos].
      eexists _, entrada, f.
      split; [exact (procesar_sin_escalada _ _ _ _ Hr El)|].
      cbn [fecha]. repeat split; assumption.
  - intros fa Hfa. pose proof (fecha_proximo_ok ahora Hv Hy fa Hfa) as Hp.
    unfold mes_siguiente in Hp. split; intros Hm.
    + rewrite Hm in Hp. exact Hp.
    + replace (month ahora =? 12) with false in Hp
        by (symmetry; apply Z.eqb_neq; exact Hm).
      exact Hp.
  - intros fa linea resto Hfa Hresp fecha_este.
    pose proof (fecha_este_ok ahora Hv Hy fa Hfa) as He. fold fecha_este in He.
    split; [exact He|]. split.
    + intros Hl Ha.
      destruct (pedir_avisos ahora Hv Hy texto fa (linea :: resto) Hfa Ha)
        as (fp & _ & Hel & ->).
      cbn [preguntar]. rewrite (print_true _ Hel). cbn [bind].
      rewrite Hresp, He. unfold date_ge. rewrite Hl. reflexivity.
    + intros Hl Hno.
      pose proof (fecha_proximo_ok ahora Hv Hy fa Hfa) as Hp.
      destruct (mes_siguiente ahora) as [y m].
      unfold _pedir_confirmacion_fecha. rewrite Hp. cbn [bind].
      destruct (print (msg_confirmacion texto)); [|reflexivity]. cbn [bind].
      destruct (print (msg_opciones _ _)); [|reflexivity]. cbn [bind].
      destruct (print msg_responde); [|reflexivity]. cbn [bind].
      rewrite <- (preguntar_eleccion _ _ _ resto).
      cbn [preguntar]. destruct (print msg_eleccion); [|reflexivity].
      cbn [bind]. rewrite Hresp, He. unfold date_ge. rewrite Hl. cbn [negb].
      rewrite (print_true _ Hno). reflexivity.
Qed.

Lemma fecha_valida_no_pasada_witness :
  exists t,
    @procesar_logica_negocio latin1 parser_ayer utf8 (py "ayer") domingo_1_marzo
      [py "este"] = Ok (t, [])
    /\ fecha t = py "2026-03-28".
Proof.
  destruct (fecha_valida_no_pasada latin1 parser_ayer utf8 (py "ayer")
              domingo_1_marzo [py "este"] eq_refl
              ltac:(vm_compute; discriminate)
              ltac:(vm_compute; discriminate))
    as ((t & resto & f & Hp & Hf & _) & _).
  - intros f Hr _.
    assert (E : Ok f = Ok (mkdt 2026 2 28 0)) by (rewrite <- Hr; reflexivity).
    injection E as ->.
    exists (mkdt 2026 3 28 0), []. split; reflexivity.
  - assert (E : Ok (t, resto)
                = Ok ({| nombre := py "Ayer"; fecha := py "2026-03-28";
                         tipo := py "Deber"; prioridad := py "Media";
                         materia := [] |}, []))
      by (rewrite <- Hp; reflexivity).
    injection E as -> ->. exists {| nombre := py "Ayer"; fecha := py "2026-03-28";
                         tipo := py "Deber"; prioridad := py "Media";
                         materia := [] |}. split; reflexivity.
Defined.

Lemma tokenizar_ascii `{Unicode} (texto : str) :
  forallb is_ascii (limpiar texto) = true ->
  tokenizar texto = split (map ascii_lower (limpiar texto)).
Proof. intros Ha. unfold tokenizar. now rewrite normalizar_ascii. Qed.

Lemma procesar_campos `{Unicode} `{DateParser} `{Stdout} (texto : str) (ahora : datetime)
    (entrada : list str) (t : tarea) (resto : list str) :
  procesar_logica_negocio texto ahora entrada = Ok (t, resto) ->
  tipo t = tipo_de (remover_stopwords (tokenizar texto))
  /\ prioridad t = prioridad_de (tokenizar texto)
                     (remover_stopwords (tokenizar texto))
  /\ materia t = materia_de (remover_stopwords (tokenizar texto)).
Proof.
  unfold procesar_logica_negocio, bind.
  destruct (resolver_fecha texto ahora) as [f|e]; [|discriminate].
  destruct (if date_lt f ahora then _ else _) as [[f' e']|e]; [|discriminate].
  intros [= <- _]. repeat split.
Qed.

(** C2, as the code has it: for "No es urgente pero debo entregar el
    deber de realidad nacional" the urgency word is negated, so the
    priority is not "Alta", and there is no mildness word, so it is
    not "Baja": it stays "Media", the default; the subject is
    "Realidad Nacional". *)
Theorem no_urgente_prioridad_media (U : Unicode) (P : DateParser) (S : Stdout)
    (ahora : datetime) (entrada : list str) :
  let texto :=
    py "No es urgente pero debo entregar el deber de realidad nacional" in
  tokenizar texto
  = map py [ "no"; "es"; "urgente"; "pero"; "debo"; "entregar"; "el";
             "deber"; "de"; "realidad"; "nacional" ]%string
  /\ remover_stopwords (tokenizar texto)
     = map py [ "urgente"; "debo"; "entregar"; "deber"; "realidad";
                "nacional" ]%string
  /\ alguna_en palabras_urgentes (remover_stopwords (tokenizar texto)) = true
  /\ tiene_negacion (tokenizar texto) (py "urgente") 3 = true
  /\ alguna_en palabras_bajas (remover_stopwords (tokenizar texto)) = false
  /\ (forall t resto,
        procesar_logica_negocio texto ahora entrada = Ok (t, resto) ->
        prioridad t = py "Media" /\ materia t = py "Realidad Nacional")
  /\ @procesar_logica_negocio latin1 sin_fechas utf8 texto domingo_1_marzo []
     = Ok ({| nombre :=
                py "No es urgente pero debo entregar el deber de realidad nacional";
              fecha := py "2026-03-02";
              tipo := py "Entrega";
              prioridad := py "Media";
              materia := py "Realidad Nacional" |}, []).
Proof.
  intros texto.
  assert (Ht : tokenizar texto
               = map py [ "no"; "es"; "urgente"; "pero"; "debo"; "entregar";
                          "el"; "deber"; "de"; "realidad"; "nacional" ]%string).
  { subst texto. rewrite tokenizar_ascii by reflexivity. reflexivity. }
  rewrite Ht.
  split; [reflexivity|]. split; [reflexivity|]. split; [reflexivity|].
  split; [reflexivity|]. split; [reflexivity|]. split; [|reflexivity].
  intros t resto Hp. apply procesar_campos in Hp as (_ & Hpr & Hm).
  rewrite Ht in Hpr, Hm. rewrite Hpr, Hm. split; reflexivity.
Qed.

(** C2 as stated fails: for this input the record carries the priority
    "Media", not "Baja".  "Baja" is only given when a mildness word is
    among the tokens, and there is none here. *)
Lemma no_urgente_no_es_baja :
  let texto :=
    py "No es urgente pero debo entregar el deber de realidad nacional" in
  exists t,
    procesar_logica_negocio texto domingo_1_marzo [] = Ok (t, [])
    /\ prioridad t = py "Media"
    /\ prioridad t <> py "Baja"
    /\ materia t = py "Realidad Nacional"
    /\ filter (fun p => str_in p (tokenizar texto)) palabras_bajas = [].
Proof.
  eexists. split; [vm_compute; reflexivity|].
  cbn [prioridad materia]. vm_compute. repeat split. discriminate.
Qed.

(* ================================================================== *)
(** * Further properties of the program *)
(* ================================================================== *)

(** ** Normalised text *)

Lemma is_punct_cases (c : N) :
  is_punct c = true <->
  ((33 <= c <= 47) \/ (58 <= c <= 64) \/ (91 <= c <= 96) \/ (123 <= c <= 126))%N.
Proof.
  unfold is_punct. rewrite !orb_true_iff, !andb_leb_N. tauto.
Qed.

Lemma punctuation_spec (c : N) : existsb (N.eqb c) punctuation = is_punct c.
Proof.
  destruct (existsb (N.eqb c) punctuation) eqn:E; symmetry.
  - apply existsb_exists in E as (x & Hx & E).
    apply N.eqb_eq in E. subst x. vm_compute in Hx.
    repeat (destruct Hx as [Hx|Hx]; [subst c; reflexivity|]). destruct Hx.
  - destruct (is_punct c) eqn:P; [|reflexivity]. exfalso.
    apply is_punct_cases in P.
    assert (Hall : forallb (fun n => implb (is_punct (N.of_nat n))
                                       (existsb (N.eqb (N.of_nat n)) punctuation))
                     (seq 0 127) = true) by (vm_compute; reflexivity).
    rewrite forallb_forall in Hall.
    specialize (Hall (N.to_nat c)). rewrite N2Nat.id in Hall.
    rewrite E in Hall.
    assert (P' : is_punct c = true) by (apply is_punct_cases; exact P).
    rewrite P' in Hall. cbn in Hall.
    assert (Hin : In (N.to_nat c) (seq 0 127)) by (apply in_seq; lia).
    specialize (Hall Hin). discriminate.
Qed.

Lemma isspace_printable (c : N) : (33 <= c <= 126)%N -> isspace c = false.
Proof.
  intros Hc. destruct (isspace c) eqn:E; [|reflexivity].
  apply isspace_cases in E. lia.
Qed.

Lemma ascii_lower_cases (c : N) :
  (ascii_lower c = c /\ is_upper c = false)
  \/ (ascii_lower c = (c + 32)%N /\ (65 <= c <= 90)%N).
Proof.
  unfold ascii_lower, is_upper.
  destruct ((65 <=? c) && (c <=? 90))%N eqn:E; [right|left; auto].
  apply andb_true_iff in E. rewrite !N.leb_le in E. auto.
Qed.

Lemma isspace_lower (c : N) : isspace (ascii_lower c) = isspace c.
Proof.
  destruct (ascii_lower_cases c) as [[-> _]|[-> Hc]]; [reflexivity|].
  rewrite !isspace_printable by lia. reflexivity.
Qed.

Lemma is_punct_false (c : N) :
  ~ ((33 <= c <= 47) \/ (58 <= c <= 64) \/ (91 <= c <= 96) \/ (123 <= c <= 126))%N ->
  is_punct c = false.
Proof.
  intros Hc. destruct (is_punct c) eqn:E; [|reflexivity].
  elim Hc. now apply is_punct_cases.
Qed.

Lemma filter_map_commute (f : N -> bool) (g : N -> N) (s : str) :
  (forall c, f (g c) = f c) -> filter f (map g s) = map g (filter f s).
Proof.
  intros Hf. induction s as [|c s IH]; [reflexivity|]. cbn [map filter].
  rewrite Hf. destruct (f c); cbn [map]; now rewrite IH.
Qed.

Lemma is_punct_lower (c : N) : is_punct (ascii_lower c) = is_punct c.
Proof.
  destruct (ascii_lower_cases c) as [[-> _]|[-> Hc]]; [reflexivity|].
  rewrite !is_punct_false by lia. reflexivity.
Qed.

Lemma is_ascii_lower (c : N) : is_ascii (ascii_lower c) = is_ascii c.
Proof.
  destruct (ascii_lower_cases c) as [[-> _]|[-> Hc]]; [reflexivity|].
  unfold is_ascii. apply eq_trans with true; [|symmetry]; apply N.ltb_lt; lia.
Qed.

Lemma ascii_lower_idem (c : N) : ascii_lower (ascii_lower c) = ascii_lower c.
Proof.
  destruct (ascii_lower_cases c) as [[E _]|[-> Hc]]; [now rewrite !E|].
  unfold ascii_lower.
  replace ((65 <=? c + 32) && (c + 32 <=? 90))%N with false; [reflexivity|].
  symmetry. apply andb_false_iff. right. apply N.leb_gt. lia.
Qed.

Lemma is_upper_lower (c : N) : is_upper (ascii_lower c) = false.
Proof.
  destruct (ascii_lower_cases c) as [[-> E]|[-> Hc]]; [exact E|].
  unfold is_upper. apply andb_false_iff. right. apply N.leb_gt. lia.
Qed.

Lemma ascii_upper_lower (c : N) :
  is_ascii c = true -> ascii_upper (ascii_lower c) = ascii_upper c.
Proof.
  intros Ha. destruct (ascii_lower_cases c) as [[-> _]|[-> Hc]]; [reflexivity|].
  unfold ascii_upper.
  replace ((97 <=? c + 32) && (c + 32 <=? 122))%N with true
    by (symmetry; apply andb_true_iff; rewrite !N.leb_le; lia).
  replace ((97 <=? c) && (c <=? 122))%N with false
    by (symmetry; apply andb_false_iff; left; apply N.leb_gt; lia).
  lia.
Qed.

Lemma forallb_ascii_lower (s : str) :
  forallb is_ascii (map ascii_lower s) = forallb is_ascii s.
Proof.
  induction s as [|c s IH]; [reflexivity|]. cbn.
  now rewrite is_ascii_lower, IH.
Qed.

Lemma map_lower_idem (s : str) :
  map ascii_lower (map ascii_lower s) = map ascii_lower s.
Proof.
  rewrite map_map. apply map_ext. exact ascii_lower_idem.
Qed.

(** [lower()] commutes with each step of the cleaning. *)
Lemma delete_punct_lower (s : str) :
  delete_chars punctuation (map ascii_lower s)
  = map ascii_lower (delete_chars punctuation s).
Proof.
  unfold delete_chars. apply filter_map_commute. intros c.
  now rewrite !punctuation_spec, is_punct_lower.
Qed.

Lemma collapse_lower (s : str) (b : bool) :
  collapse_spaces b (map ascii_lower s) = map ascii_lower (collapse_spaces b s).
Proof.
  revert b. induction s as [|c s IH]; intros b; [reflexivity|].
  cbn [map collapse_spaces]. rewrite isspace_lower.
  destruct (isspace c).
  - destruct b; [apply IH|]. cbn [map]. now rewrite IH.
  - cbn [map]. now rewrite IH.
Qed.

Lemma lstrip_lower (s : str) :
  lstrip (map ascii_lower s) = map ascii_lower (lstrip s).
Proof.
  induction s as [|c s IH]; [reflexivity|]. cbn [map lstrip].
  rewrite isspace_lower. destruct (isspace c); [exact IH | reflexivity].
Qed.

Lemma strip_lower (s : str) :
  strip (map ascii_lower s) = map ascii_lower (strip s).
Proof.
  unfold strip, rstrip. now rewrite lstrip_lower, <- map_rev, lstrip_lower, map_rev.
Qed.

Lemma limpiar_lower (s : str) :
  limpiar (map ascii_lower s) = map ascii_lower (limpiar s).
Proof.
  unfold limpiar. now rewrite delete_punct_lower, collapse_lower, strip_lower.
Qed.

(** the cleaning keeps ASCII text ASCII *)
Lemma forallb_lstrip (p : N -> bool) (s : str) :
  forallb p s = true -> forallb p (lstrip s) = true.
Proof.
  induction s as [|c s IH]; [reflexivity|]. cbn [lstrip]. intros Hs.
  destruct (isspace c); [|exact Hs]. cbn in Hs.
  apply andb_true_iff in Hs as [_ Hs]. now apply IH.
Qed.

Lemma forallb_rev (p : N -> bool) (s : str) :
  forallb p (rev s) = forallb p s.
Proof.
  induction s as [|c s IH]; [reflexivity|]. cbn.
  rewrite forallb_app, IH. cbn. rewrite andb_true_r. apply andb_comm.
Qed.

Lemma forallb_strip (p : N -> bool) (s : str) :
  forallb p s = true -> forallb p (strip s) = true.
Proof.
  intros Hs. unfold strip, rstrip. rewrite forallb_rev.
  apply forallb_lstrip. rewrite forallb_rev. now apply forallb_lstrip.
Qed.

Lemma forallb_collapse (p : N -> bool) (s : str) (b : bool) :
  p 32%N = true -> forallb p s = true ->
  forallb p (collapse_spaces b s) = true.
Proof.
  intros H32. revert b. induction s as [|c s IH]; intros b Hs; [reflexivity|].
  cbn in Hs. apply andb_true_iff in Hs as [Hc Hs]. cbn [collapse_spaces].
  destruct (isspace c).
  - destruct b; [now apply IH|]. cbn. rewrite H32. now apply IH.
  - cbn. rewrite Hc. now apply IH.
Qed.

Lemma forallb_filter (p f : N -> bool) (s : str) :
  forallb p s = true -> forallb p (filter f s) = true.
Proof.
  induction s as [|c s IH]; [reflexivity|]. cbn. intros Hs.
  apply andb_true_iff in Hs as [Hc Hs].
  destruct (f c); cbn; [rewrite Hc|]; now apply IH.
Qed.

Lemma limpiar_ascii (s : str) :
  forallb is_ascii s = true -> forallb is_ascii (limpiar s) = true.
Proof.
  intros Hs. unfold limpiar. apply forallb_strip.
  apply forallb_collapse; [reflexivity|]. unfold delete_chars.
  now apply forallb_filter.
Qed.

(** ** Stripping and collapsing *)

Lemma lstrip_app_one (l : str) (c : N) :
  lstrip (l ++ [c])
  = match lstrip l with
    | [] => if isspace c then [] else [c]
    | l' => l' ++ [c]
    end.
Proof.
  induction l as [|x l IH]; cbn [app lstrip].
  - now destruct (isspace c).
  - destruct (isspace x); [exact IH | reflexivity].
Qed.

Lemma rstrip_rec_eq (s : str) : rstrip s = rstrip_rec s.
Proof.
  unfold rstrip. induction s as [|c r IH]; [reflexivity|].
  cbn [rev rstrip_rec]. rewrite lstrip_app_one, <- IH.
  destruct (lstrip (rev r)) as [|x l]; cbn [rev].
  - now destruct (isspace c).
  - rewrite rev_app_distr. cbn [rev app].
    destruct (rev l ++ [x]) eqn:E; [|reflexivity].
    now destruct (rev l).
Qed.

Lemma rstrip_rec_idem (s : str) : rstrip_rec (rstrip_rec s) = rstrip_rec s.
Proof.
  induction s as [|c r IH]; [reflexivity|]. cbn [rstrip_rec].
  destruct (rstrip_rec r) as [|x r'] eqn:E.
  - destruct (isspace c) eqn:Ec; [reflexivity|]. cbn [rstrip_rec]. now rewrite Ec.
  - cbn [rstrip_rec] in *. now rewrite IH.
Qed.

Lemma lstrip_head (s : str) :
  match lstrip s with [] => True | x :: _ => isspace x = false end.
Proof.
  induction s as [|c r IH]; cbn [lstrip]; [exact I|].
  destruct (isspace c) eqn:E; [exact IH | exact E].
Qed.

Lemma lstrip_id (s : str) :
  match s with [] => True | x :: _ => isspace x = false end -> lstrip s = s.
Proof. destruct s as [|x r]; [reflexivity|]. cbn. now intros ->. Qed.

Lemma rstrip_rec_head (s : str) :
  match s with [] => True | x :: _ => isspace x = false end ->
  match rstrip_rec s with [] => True | x :: _ => isspace x = false end.
Proof.
  destruct s as [|x r]; [trivial|]. cbn [rstrip_rec]. intros Hx.
  destruct (rstrip_rec r); [now rewrite Hx | exact Hx].
Qed.

Lemma strip_idem (s : str) : strip (strip s) = strip s.
Proof.
  unfold strip. rewrite !rstrip_rec_eq.
  rewrite (lstrip_id (rstrip_rec (lstrip s))).
  - apply rstrip_rec_idem.
  - apply rstrip_rec_head, lstrip_head.
Qed.

Lemma colapsado_collapse (s : str) (b : bool) :
  colapsado b (collapse_spaces b s) = true.
Proof.
  revert b. induction s as [|c r IH]; intros b; [reflexivity|].
  cbn [collapse_spaces]. destruct (isspace c) eqn:E.
  - destruct b; [apply IH|]. cbn [colapsado].
    change (isspace 32) with true. cbn. apply IH.
  - cbn [colapsado]. rewrite E. apply IH.
Qed.

Lemma collapse_colapsado (s : str) (b : bool) :
  colapsado b s = true -> collapse_spaces b s = s.
Proof.
  revert b. induction s as [|c r IH]; intros b; [reflexivity|].
  cbn [colapsado collapse_spaces]. destruct (isspace c).
  - rewrite !andb_true_iff. intros [[Hb Hc] Hr].
    apply negb_true_iff in Hb. apply N.eqb_eq in Hc. subst b c.
    now rewrite IH.
  - intros Hr. now rewrite IH.
Qed.

Lemma colapsado_false (s : str) (b : bool) :
  colapsado b s = true -> colapsado false s = true.
Proof.
  destruct s as [|c r]; [reflexivity|]. cbn [colapsado].
  destruct (isspace c); [|trivial]. rewrite !andb_true_iff.
  intros [[_ Hc] Hr]. now rewrite Hc, Hr.
Qed.

Lemma colapsado_lstrip (s : str) (b : bool) :
  colapsado b s = true -> colapsado false (lstrip s) = true.
Proof.
  revert b. induction s as [|c r IH]; intros b; [reflexivity|].
  cbn [lstrip]. destruct (isspace c) eqn:E.
  - cbn [colapsado]. rewrite E, !andb_true_iff. intros [_ Hr]. now apply (IH true).
  - apply colapsado_false.
Qed.

Lemma colapsado_cons (b : bool) (c : N) (r : str) :
  colapsado b (c :: r)
  = if isspace c then negb b && (c =? 32)%N && colapsado true r
    else colapsado false r.
Proof. reflexivity. Qed.

Lemma colapsado_rstrip (s : str) (b : bool) :
  colapsado b s = true -> colapsado b (rstrip_rec s) = true.
Proof.
  revert b. induction s as [|c r IH]; intros b; [reflexivity|].
  rewrite colapsado_cons. cbn [rstrip_rec]. destruct (isspace c) eqn:E.
  - rewrite !andb_true_iff. intros [[Hb Hc] Hr].
    specialize (IH true Hr). destruct (rstrip_rec r); [reflexivity|].
    now rewrite colapsado_cons, E, Hb, Hc, IH.
  - intros Hr. specialize (IH false Hr). destruct (rstrip_rec r).
    + cbn [colapsado]. now rewrite E.
    + now rewrite colapsado_cons, E, IH.
Qed.

Lemma filter_id (f : N -> bool) (s : str) :
  forallb f s = true -> filter f s = s.
Proof.
  induction s as [|c r IH]; [reflexivity|]. cbn. intros Hs.
  apply andb_true_iff in Hs as [-> Hs]. now rewrite IH.
Qed.

Lemma forallb_filter_self (f : N -> bool) (s : str) :
  forallb f (filter f s) = true.
Proof.
  induction s as [|c r IH]; [reflexivity|]. cbn.
  destruct (f c) eqn:E; [cbn; now rewrite E|exact IH].
Qed.

(** the cleaned text holds no punctuation *)
Lemma limpiar_sin_puntuacion (s : str) :
  forallb (fun c => negb (existsb (N.eqb c) punctuation)) (limpiar s) = true.
Proof.
  unfold limpiar, delete_chars. apply forallb_strip.
  apply forallb_collapse; [vm_compute; reflexivity|].
  apply forallb_filter_self.
Qed.

(** The cleaning is idempotent. *)
Lemma limpiar_idem (s : str) : limpiar (limpiar s) = limpiar s.
Proof.
  unfold limpiar at 1. unfold delete_chars.
  rewrite (filter_id _ _ (limpiar_sin_puntuacion s)).
  assert (Hc : colapsado false (limpiar s) = true).
  { unfold limpiar, strip. rewrite rstrip_rec_eq.
    apply colapsado_rstrip. apply (colapsado_lstrip _ false).
    apply colapsado_collapse. }
  rewrite (collapse_colapsado _ _ Hc). unfold limpiar. apply strip_idem.
Qed.

(** ** Tokens *)

Lemma split_go_tokens (cur s : str) :
  forallb (fun c => negb (isspace c)) cur = true ->
  forallb es_token (split_go cur s) = true.
Proof.
  revert cur. induction s as [|c r IH]; intros cur Hcur; cbn [split_go].
  - destruct cur as [|x cur]; [reflexivity|]. cbn [forallb].
    rewrite andb_true_r. unfold es_token. rewrite forallb_rev, Hcur.
    rewrite andb_true_r. apply negb_true_iff.
    destruct (str_eqb (rev (x :: cur)) []) eqn:E; [|reflexivity].
    apply str_eqb_eq in E. cbn [rev] in E. now destruct (rev cur).
  - destruct (isspace c) eqn:E.
    + destruct cur as [|x cur]; [now apply IH|]. cbn [forallb].
      rewrite (IH [] eq_refl), andb_true_r.
      unfold es_token. rewrite forallb_rev, Hcur.
      rewrite andb_true_r. apply negb_true_iff.
      destruct (str_eqb (rev (x :: cur)) []) eqn:E'; [|reflexivity].
      apply str_eqb_eq in E'. cbn [rev] in E'. now destruct (rev cur).
    + apply IH. cbn [forallb]. now rewrite E, Hcur.
Qed.

Lemma split_go_forall (p : N -> bool) (cur s : str) :
  forallb p cur = true -> forallb p s = true ->
  forallb (forallb p) (split_go cur s) = true.
Proof.
  revert cur. induction s as [|c r IH]; intros cur Hcur Hs; cbn [split_go].
  - destruct cur as [|x cur]; [reflexivity|]. cbn [forallb].
    now rewrite forallb_rev, Hcur.
  - cbn [forallb] in Hs. apply andb_true_iff in Hs as [Hc Hs].
    destruct (isspace c).
    + destruct cur as [|x cur]; [now apply IH|]. cbn [forallb].
      rewrite forallb_rev, Hcur. now apply IH.
    + apply IH; [|exact Hs]. cbn [forallb]. now rewrite Hc, Hcur.
Qed.

Lemma forallb_map_lower_limpio (s : str) :
  forallb is_ascii s = true ->
  forallb (fun c => negb (existsb (N.eqb c) punctuation)) s = true ->
  forallb es_limpio (map ascii_lower s) = true.
Proof.
  induction s as [|c r IH]; [reflexivity|]. cbn [forallb map].
  rewrite !andb_true_iff. intros [Hc Hr] [Pc Pr]. split; [|now apply IH].
  unfold es_limpio.
  rewrite is_ascii_lower, Hc, is_punct_lower, <- punctuation_spec, Pc,
    is_upper_lower.
  reflexivity.
Qed.

Section Normal.
Context `{Unicode}.

(** X2: every token of [tokenizar] is a non-empty string without white
    space; the tokens of ASCII text are ASCII and hold no character of
    [string.punctuation] and no capital letter. *)
Theorem tokens_bien_formados (texto : str) :
  forallb es_token (tokenizar texto) = true
  /\ (forallb is_ascii texto = true ->
      forallb (forallb es_limpio) (tokenizar texto) = true)
  /\ (forall c,
        es_limpio c
        = is_ascii c && negb (existsb (N.eqb c) punctuation)
          && negb (is_upper c)).
Proof.
  split; [|split].
  3: { intros c. unfold es_limpio. now rewrite punctuation_spec. }
  - unfold tokenizar, split. now apply split_go_tokens.
  - intros Ha. pose proof (limpiar_ascii texto Ha) as Hl.
    rewrite tokenizar_ascii by exact Hl. unfold split.
    apply split_go_forall; [reflexivity|].
    apply forallb_map_lower_limpio; [exact Hl|].
    apply limpiar_sin_puntuacion.
Qed.

(** X1: on ASCII text [normalizar_texto] is idempotent, and its result
    is the cleaned text with the capitals of A to Z made small. *)
Theorem normalizar_idempotente (texto : str) :
  forallb is_ascii texto = true ->
  normalizar_texto texto = map ascii_lower (limpiar texto)
  /\ forallb is_ascii (normalizar_texto texto) = true
  /\ normalizar_texto (normalizar_texto texto) = normalizar_texto texto.
Proof.
  intros Ha. pose proof (limpiar_ascii texto Ha) as Hl.
  pose proof (normalizar_ascii texto Hl) as Hn.
  assert (Hn' : forallb is_ascii (map ascii_lower (limpiar texto)) = true)
    by now rewrite forallb_ascii_lower.
  split; [exact Hn|]. rewrite Hn. split; [exact Hn'|].
  rewrite normalizar_ascii by (apply limpiar_ascii; exact Hn').
  now rewrite limpiar_lower, limpiar_idem, map_lower_idem.
Qed.
End Normal.

Lemma normalizar_idempotente_witness :
  normalizar_texto (py "  Examen,   de WEB!! ") = py "examen de web"
  /\ normalizar_texto (normalizar_texto (py "  Examen,   de WEB!! "))
     = py "examen de web".
Proof.
  destruct (normalizar_idempotente (py "  Examen,   de WEB!! ") eq_refl)
    as (Hn & _ & Hi).
  rewrite Hi, Hn. split; reflexivity.
Defined.

(** ** Letter case *)

Section Mayusculas.
Context `{Unicode} `{DateParser}.

Lemma capitalize_lower (a b : str) :
  forallb is_ascii a = true -> forallb is_ascii b = true ->
  map ascii_lower a = map ascii_lower b ->
  str_capitalize a = str_capitalize b.
Proof.
  intros Ha Hb E. destruct a as [|x a], b as [|y b]; try discriminate;
    [reflexivity|].
  rewrite !capitalize_ascii by assumption.
  cbn [map] in E. injection E as Ex Er. cbn [forallb] in Ha, Hb.
  apply andb_true_iff in Ha as [Hx _], Hb as [Hy _].
  rewrite <- (ascii_upper_lower x Hx), <- (ascii_upper_lower y Hy), Ex, Er.
  reflexivity.
Qed.

Lemma tokenizar_lower (a b : str) :
  forallb is_ascii a = true -> forallb is_ascii b = true ->
  map ascii_lower a = map ascii_lower b ->
  tokenizar a = tokenizar b.
Proof.
  intros Ha Hb E.
  rewrite !tokenizar_ascii by now apply limpiar_ascii.
  now rewrite <- !limpiar_lower, E.
Qed.

Lemma resolver_lower (a b : str) (ahora : datetime) :
  str_lower a = str_lower b ->
  resolver_fecha a ahora = resolver_fecha b ahora.
Proof.
  intros E. unfold resolver_fecha, fecha_explicita, extraer_fechas_mejorado.
  now rewrite E.
Qed.
End Mayusculas.

(** a UTF-8 standard output writes every ASCII string *)
Lemma utf8_ascii (s : str) : forallb is_ascii s = true -> utf8_encodes s = true.
Proof.
  unfold utf8_encodes. intros Hs. apply forallb_forall. intros c Hc.
  pose proof (proj1 (forallb_forall _ _) Hs c Hc) as Ha.
  unfold is_ascii in Ha. apply N.ltb_lt in Ha. unfold es_surrogate.
  apply negb_true_iff. apply andb_false_iff. left. apply N.leb_gt. lia.
Qed.

Lemma utf8_confirmacion (texto : str) :
  forallb is_ascii texto = true ->
  @stdout_encodes utf8 (msg_confirmacion texto) = true.
Proof.
  intros Ha. cbn [stdout_encodes utf8]. unfold msg_confirmacion, utf8_encodes.
  rewrite !forallb_app. fold (utf8_encodes texto). rewrite (utf8_ascii _ Ha).
  vm_compute. reflexivity.
Qed.

(** X18: two ASCII texts that differ only in the case of their letters
    are interpreted alike: same record (the title included), same
    lines of input read, same exception, on a standard output that
    writes the first line of the confirmation step for both or for
    neither; a UTF-8 standard output is one. *)
Theorem procesar_sin_mayusculas (U : Unicode) (P : DateParser) (S : Stdout)
    (a b : str) (ahora : datetime) (entrada : list str) :
  forallb is_ascii a = true -> forallb is_ascii b = true ->
  map ascii_lower a = map ascii_lower b ->
  tokenizar a = tokenizar b
  /\ (stdout_encodes (msg_confirmacion a) = stdout_encodes (msg_confirmacion b) ->
      procesar_logica_negocio a ahora entrada
      = procesar_logica_negocio b ahora entrada)
  /\ @procesar_logica_negocio U P utf8 a ahora entrada
     = @procesar_logica_negocio U P utf8 b ahora entrada.
Proof.
  intros Ha Hb E.
  pose proof (tokenizar_lower a b Ha Hb E) as Ht. split; [exact Ht|].
  assert (G : forall S' : Stdout,
             @stdout_encodes S' (msg_confirmacion a)
             = @stdout_encodes S' (msg_confirmacion b) ->
             @procesar_logica_negocio U P S' a ahora entrada
             = @procesar_logica_negocio U P S' b ahora entrada).
  { intros S' Hs. unfold procesar_logica_negocio.
    rewrite Ht, (capitalize_lower a b Ha Hb E).
    rewrite (resolver_lower a b ahora)
      by (rewrite !lower_ascii by assumption; exact E).
    destruct (resolver_fecha b ahora) as [f|e]; [|reflexivity]. cbn [bind].
    destruct (date_lt f ahora); [|reflexivity].
    unfold _pedir_confirmacion_fecha, print. now rewrite Hs. }
  split; [apply G|].
  apply G. now rewrite !utf8_confirmacion.
Qed.

Lemma procesar_sin_mayusculas_witness :
  @procesar_logica_negocio latin1 sin_fechas utf8 (py "EXAMEN de Web Este LUNES")
    domingo_1_marzo []
  = @procesar_logica_negocio latin1 sin_fechas utf8 (py "examen DE web este lunes")
      domingo_1_marzo [].
Proof.
  assert (Ha : forallb is_ascii (py "EXAMEN de Web Este LUNES") = true)
    by (vm_compute; reflexivity).
  assert (Hb : forallb is_ascii (py "examen DE web este lunes") = true)
    by (vm_compute; reflexivity).
  assert (E : map ascii_lower (py "EXAMEN de Web Este LUNES")
              = map ascii_lower (py "examen DE web este lunes"))
    by (vm_compute; reflexivity).
  exact (proj2 (proj2 (procesar_sin_mayusculas latin1 sin_fechas utf8 _ _
                         domingo_1_marzo [] Ha Hb E))).
Defined.

(** ** Stopwords *)

(** X3: [remover_stopwords] returns exactly the tokens that are no
    stopwords, in their order: it is idempotent, works through a
    concatenation piece by piece, never lengthens the list and leaves
    a list without stopwords alone. *)
Theorem remover_stopwords_filtro (tokens otros : list str) :
  (forall t, In t (remover_stopwords tokens) <->
             In t tokens /\ str_in t STOPWORDS_ES = false)
  /\ remover_stopwords (remover_stopwords tokens) = remover_stopwords tokens
  /\ remover_stopwords (tokens ++ otros)
     = remover_stopwords tokens ++ remover_stopwords otros
  /\ (length (remover_stopwords tokens) <= length tokens)%nat
  /\ (forallb (fun t => negb (str_in t STOPWORDS_ES)) tokens = true ->
      remover_stopwords tokens = tokens).
Proof.
  unfold remover_stopwords. split; [|split; [|split; [|split]]].
  - intros t. rewrite filter_In, negb_true_iff. tauto.
  - induction tokens as [|t tokens IH]; [reflexivity|]. cbn [filter].
    destruct (negb (str_in t STOPWORDS_ES)) eqn:E; [|exact IH].
    cbn [filter]. now rewrite E, IH.
  - apply filter_app.
  - apply filter_length_le.
  - induction tokens as [|t tokens IH]; [reflexivity|]. cbn [forallb filter].
    intros Hs. apply andb_true_iff in Hs as [-> Hs]. now rewrite IH.
Qed.

(** ** The negation window, exactly *)

(** [tokens.index(palabra)] is the first position of the word. *)
Lemma index_of_None (x : str) (l : list str) :
  index_of x l = None <-> str_in x l = false.
Proof.
  induction l as [|y l IH]; cbn; [tauto|].
  unfold str_eqb at 1 2.
  destruct (list_eq_dec N.eq_dec y x) as [->|Hne].
  - destruct (list_eq_dec N.eq_dec x x); [|congruence]. split; discriminate.
  - destruct (list_eq_dec N.eq_dec x y); [congruence|]. cbn.
    destruct (index_of x l); cbn; rewrite <- IH; split; congruence.
Qed.

Lemma index_of_Some (x : str) (l : list str) (i : nat) :
  index_of x l = Some i ->
  (i < length l)%nat /\ nth i l [] = x
  /\ forall j, (j < i)%nat -> nth j l [] <> x.
Proof.
  revert i. induction l as [|y l IH]; intros i; cbn; [discriminate|].
  destruct (str_eqb y x) eqn:E.
  - intros [= <-]. apply str_eqb_eq in E. repeat split; [lia|exact E|lia].
  - destruct (index_of x l) as [k|]; [|discriminate]. cbn. intros [= <-].
    destruct (IH k eq_refl) as (Hk & Hn & Hf). repeat split; [lia|exact Hn|].
    intros [|j] Hj.
    + intros ->. rewrite str_eqb_refl in E. discriminate.
    + apply Hf. lia.
Qed.

Lemma tiene_negacion_ausente (tokens : list str) (palabra : str) (ventana : Z) :
  str_in palabra tokens = false ->
  tiene_negacion tokens palabra ventana = false.
Proof.
  intros Hn. apply index_of_None in Hn. unfold tiene_negacion. now rewrite Hn.
Qed.

(** X4: [tiene_negacion] is false when the word is not among the
    tokens or the window is empty, and otherwise it is true exactly
    when a negation word stands at one of the positions
    [idx - ventana], ..., [idx + ventana - 1] around the first
    occurrence [idx] of the word: [ventana] positions before it, the
    word itself, and [ventana - 1] positions after it. *)
Theorem tiene_negacion_ventana (tokens : list str) (palabra : str) (ventana : Z) :
  (str_in palabra tokens = false ->
   tiene_negacion tokens palabra ventana = false)
  /\ (ventana <= 0 -> tiene_negacion tokens palabra ventana = false)
  /\ (forall idx,
        index_of palabra tokens = Some idx ->
        nth idx tokens [] = palabra
        /\ (forall j, (j < idx)%nat -> nth j tokens [] <> palabra)
        /\ (tiene_negacion tokens palabra ventana = true <->
            exists i, Z.of_nat idx - ventana <= Z.of_nat i < Z.of_nat idx + ventana
                      /\ (i < length tokens)%nat
                      /\ In (nth i tokens []) negaciones)).
Proof.
  split; [|split].
  - apply tiene_negacion_ausente.
  - intros Hv. destruct (tiene_negacion tokens palabra ventana) eqn:E;
      [|reflexivity].
    apply tiene_negacion_spec in E as (idx & i & _ & Hi & _). lia.
  - intros idx Hidx. destruct (index_of_Some _ _ _ Hidx) as (_ & Hn & Hf).
    split; [exact Hn|]. split; [exact Hf|].
    rewrite tiene_negacion_spec. split.
    + intros (idx' & i & Hidx' & H'). exists i.
      rewrite Hidx in Hidx'. injection Hidx' as <-. exact H'.
    + intros (i & H'). exists idx, i. split; [exact Hidx | exact H'].
Qed.

(** ** [_clamp_day] and [_safe_date] *)

Lemma monthrange_Illegal (y m : Z) :
  m < 1 \/ 12 < m -> monthrange_ndays y m = Raise IllegalMonthError.
Proof.
  intros Hm. unfold monthrange_ndays.
  replace ((1 <=? m) && (m <=? 12)) with false; [reflexivity|].
  symmetry. apply andb_false_iff. rewrite Z.leb_gt, Z.leb_gt. lia.
Qed.

Lemma days_in_month_range (y m : Z) :
  1 <= m <= 12 -> 28 <= _days_in_month y m <= 31.
Proof.
  intros Hm. pose proof (month_tables (_is_leap y) m Hm) as (_ & Hdim & _).
  unfold dim_l in Hdim. fold (_days_in_month y m) in Hdim. exact Hdim.
Qed.

(** X6: [_safe_date(year, month, day)] raises [IllegalMonthError] for a
    month outside 1 to 12 whatever the year and day; for a month of the
    calendar it returns midnight of that month's day [min(day, length
    of the month)] when the year is 1 to 9999 and the day at least 1;
    otherwise it raises [OverflowError] when the year or the day does
    not fit a C [int] and [ValueError] when they do.  [_clamp_day]
    leaves a day of the month alone and is idempotent. *)
Theorem safe_date_casos (y m d : Z) :
  (m < 1 \/ 12 < m ->
   _clamp_day y m d = Raise IllegalMonthError
   /\ _safe_date y m d = Raise IllegalMonthError)
  /\ (1 <= m <= 12 ->
      _clamp_day y m d = Ok (Z.min d (_days_in_month y m))
      /\ (d <= _days_in_month y m -> _clamp_day y m d = Ok d)
      /\ (forall d', _clamp_day y m d = Ok d' -> _clamp_day y m d' = Ok d')
      /\ (1 <= y <= 9999 -> 1 <= d ->
          _safe_date y m d = Ok (mkdt y m (Z.min d (_days_in_month y m)) 0)
          /\ valid_datetime (mkdt y m (Z.min d (_days_in_month y m)) 0) = true)
      /\ (y < 1 \/ 9999 < y \/ d < 1 ->
          - 2 ^ 31 <= y < 2 ^ 31 -> - 2 ^ 31 <= d ->
          _safe_date y m d = Raise ValueError)
      /\ (y < - 2 ^ 31 \/ 2 ^ 31 <= y \/ d < - 2 ^ 31 ->
          _safe_date y m d = Raise OverflowError)).
Proof.
  split.
  - intros Hm. unfold _safe_date, _clamp_day.
    rewrite monthrange_Illegal by exact Hm. split; reflexivity.
  - intros Hm.
    assert (Hc : _clamp_day y m d = Ok (Z.min d (_days_in_month y m)))
      by (unfold _clamp_day; now rewrite monthrange_dim).
    pose proof (days_in_month_range y m Hm) as Hdim.
    split; [exact Hc|]. split; [|split; [|split; [|split]]].
    + intros Hd. rewrite Hc. f_equal. lia.
    + intros d'. rewrite Hc. intros [= <-]. unfold _clamp_day.
      rewrite monthrange_dim by exact Hm. cbn [bind]. f_equal. lia.
    + intros Hy Hd. pose proof (safe_date_ok y m d Hy Hm Hd) as Hs.
      split; [exact Hs|]. now apply safe_date_Ok in Hs.
    + intros Hbad Hy Hd. unfold _safe_date. rewrite Hc. cbn [bind].
      unfold datetime_new.
      replace (c_int y && c_int m && c_int (Z.min d (_days_in_month y m)))
        with true
        by (symmetry; unfold c_int;
            rewrite !andb_true_iff, !Z.leb_le, !Z.ltb_lt; lia).
      cbn [negb].
      replace (valid_ymd y m (Z.min d (_days_in_month y m))) with false;
        [reflexivity|].
      symmetry. unfold valid_ymd, MINYEAR, MAXYEAR.
      rewrite !andb_false_iff, !Z.leb_gt. lia.
    + intros Hbad. unfold _safe_date. rewrite Hc. cbn [bind].
      unfold datetime_new.
      replace (c_int y && c_int m && c_int (Z.min d (_days_in_month y m)))
        with false; [reflexivity|].
      symmetry. unfold c_int.
      rewrite !andb_false_iff, !Z.leb_gt, !Z.ltb_ge. lia.
Qed.

(** ** Weekdays *)

Lemma toordinal_inj (a b : datetime) :
  valid_datetime a = true -> valid_datetime b = true ->
  toordinal a = toordinal b -> tod a = tod b -> a = b.
Proof.
  intros Ha Hb Ho Ht.
  apply valid_datetime_iff in Ha as [_ Ca], Hb as [_ Cb].
  destruct a as [ya ma da ta], b as [yb mb db tb].
  cbn [year month day tod] in *. unfold toordinal in Ho.
  cbn [year month day] in Ho.
  destruct (lex_trichotomy ya ma da yb mb db) as [L|[(-> & -> & ->)|L]].
  - pose proof (ymd2ord_lt _ _ _ _ _ _ Ca Cb L). lia.
  - now rewrite Ht.
  - pose proof (ymd2ord_lt _ _ _ _ _ _ Cb Ca L). lia.
Qed.

Lemma dias_es_indice_rango (nombre_dia : str) (objetivo : Z) :
  assoc nombre_dia dias_es_indice = Some objetivo -> 0 <= objetivo <= 6.
Proof.
  unfold dias_es_indice. cbn [assoc].
  repeat match goal with
         | |- (if ?c then _ else _) = _ -> _ =>
             destruct c; [intros [= <-]; lia|]
         end.
  discriminate.
Qed.

(** the day [_obtener_proximo_dia_semana] returns for a name of its
    table *)
Lemma obtener_dias (nombre_dia : str) (ahora : datetime) (objetivo : Z)
    (proxima_semana : bool) :
  valid_datetime ahora = true -> year ahora <= 9998 ->
  assoc nombre_dia dias_es_indice = Some objetivo ->
  exists f,
    _obtener_proximo_dia_semana nombre_dia ahora proxima_semana = Ok (Some f)
    /\ valid_datetime f = true
    /\ toordinal f = toordinal ahora + (objetivo - weekday ahora) mod 7
                     + (if proxima_semana then 7 else 0)
    /\ tod f = tod ahora
    /\ weekday f = objetivo.
Proof.
  intros Hv Hy Ha. pose proof (dias_es_indice_rango _ _ Ha) as Ho.
  pose proof (Z.mod_pos_bound (objetivo - weekday ahora) 7 ltac:(lia)) as Hm.
  set (k := (objetivo - weekday ahora) mod 7) in *.
  assert (K : dias_adelante_de objetivo (weekday ahora) proxima_semana
              = k + (if proxima_semana then 7 else 0)).
  { unfold dias_adelante_de. fold k.
    destruct proxima_semana, (Z.eqb_spec k 0); lia. }
  destruct (add_days_ahora ahora Hv Hy (k + (if proxima_semana then 7 else 0))
              ltac:(destruct proxima_semana; lia))
    as (f & A & V & O & T).
  exists f. unfold _obtener_proximo_dia_semana. rewrite Ha, K, A. cbn [bind].
  repeat split; try assumption.
  - rewrite O. lia.
  - unfold weekday at 1. rewrite O. subst k. unfold weekday.
    destruct proxima_semana; Z.div_mod_to_equations; lia.
Qed.

(** X7: [_obtener_proximo_dia_semana] returns [None] for a name outside
    its table and raises nothing; for a name of the table it returns,
    without [proxima_semana], the first day from today on that falls
    on that weekday (today itself when today is that weekday) and,
    with [proxima_semana], the day exactly one week after that one; the
    time of day is kept. *)
Theorem obtener_dia_semana (nombre_dia : str) (ahora : datetime) :
  valid_datetime ahora = true -> year ahora <= 9998 ->
  (assoc nombre_dia dias_es_indice = None ->
   forall proxima_semana,
     _obtener_proximo_dia_semana nombre_dia ahora proxima_semana = Ok None)
  /\ (forall objetivo,
        assoc nombre_dia dias_es_indice = Some objetivo ->
        exists este proximo,
          _obtener_proximo_dia_semana nombre_dia ahora false = Ok (Some este)
          /\ _obtener_proximo_dia_semana nombre_dia ahora true = Ok (Some proximo)
          /\ valid_datetime este = true /\ valid_datetime proximo = true
          /\ weekday este = objetivo /\ weekday proximo = objetivo
          /\ toordinal este = toordinal ahora + (objetivo - weekday ahora) mod 7
          /\ 0 <= toordinal este - toordinal ahora <= 6
          /\ toordinal proximo = toordinal este + 7
          /\ tod este = tod ahora /\ tod proximo = tod ahora
          /\ (weekday ahora = objetivo -> este = ahora)).
Proof.
  intros Hv Hy. split.
  - intros Hn b. unfold _obtener_proximo_dia_semana. now rewrite Hn.
  - intros objetivo Ha.
    pose proof (Z.mod_pos_bound (objetivo - weekday ahora) 7 ltac:(lia)) as Hm.
    destruct (obtener_dias nombre_dia ahora objetivo false Hv Hy Ha)
      as (f0 & E0 & V0 & O0 & T0 & W0).
    destruct (obtener_dias nombre_dia ahora objetivo true Hv Hy Ha)
      as (f1 & E1 & V1 & O1 & T1 & W1).
    exists f0, f1. repeat split; try assumption; try lia.
    intros Hw. apply toordinal_inj; try assumption.
    rewrite O0, Hw, Z.sub_diag. cbn. lia.
Qed.

Lemma obtener_dia_semana_witness :
  exists proximo,
    _obtener_proximo_dia_semana (py "domingo") domingo_1_marzo false
      = Ok (Some domingo_1_marzo)
    /\ _obtener_proximo_dia_semana (py "domingo") domingo_1_marzo true
       = Ok (Some proximo)
    /\ toordinal proximo = toordinal domingo_1_marzo + 7.
Proof.
  destruct (proj2 (obtener_dia_semana (py "domingo") domingo_1_marzo
                     eq_refl ltac:(vm_compute; discriminate)) 6 eq_refl)
    as (este & proximo & E0 & E1 & _ & _ & _ & _ & _ & _ & Op & _ & _ & Hs).
  pose proof (Hs eq_refl) as ->. exists proximo. auto.
Defined.

(** ** The date strategies of [procesar_logica_negocio] *)

(** X12: when the explicit pattern has given no date, the text holds no
    next-week qualifier but holds "este" and a weekday name (the first
    of [dias_es] found in it), the date is the first day from today on
    that falls on that weekday: 0 to 6 days ahead, today itself when
    today is that weekday; it is not in the past, no line of input is
    read, and it is the date of the record. *)
Theorem este_dia_semana (U : Unicode) (P : DateParser) (S : Stdout)
    (texto : str) (ahora : datetime) (entrada : list str) (dia : str) :
  valid_datetime ahora = true -> year ahora <= 9998 ->
  fecha_explicita texto ahora = Ok None ->
  existsb (fun kw => contains kw (str_lower texto))
          [py "próximo"; py "proximo"; py "siguiente"] = false ->
  contains (py "este") (str_lower texto) = true ->
  find (fun dia => contains dia (str_lower texto)) dias_es = Some dia ->
  exists objetivo f t,
    assoc dia dias_es_indice = Some objetivo
    /\ resolver_fecha texto ahora = Ok f
    /\ toordinal f = toordinal ahora + (objetivo - weekday ahora) mod 7
    /\ 0 <= toordinal f - toordinal ahora <= 6
    /\ weekday f = objetivo
    /\ (weekday ahora = objetivo -> f = ahora)
    /\ valid_datetime f = true
    /\ date_lt f ahora = false
    /\ procesar_logica_negocio texto ahora entrada = Ok (t, entrada)
    /\ fecha t = strftime_ymd f.
Proof.
  intros Hv Hy He Hk1 Hk2 Hf.
  pose proof (find_some _ _ Hf) as [Hin _].
  destruct (dias_es_en_indice dia Hin) as (objetivo & Ha & _).
  pose proof (Z.mod_pos_bound (objetivo - weekday ahora) 7 ltac:(lia)) as R0.
  destruct (obtener_dias dia ahora objetivo false Hv Hy Ha)
    as (f & E0 & V0 & O0 & T0 & W0).
  rewrite Z.add_0_r in O0.
  assert (S0 : weekday ahora = objetivo -> f = ahora).
  { intros Hw. apply toordinal_inj; try assumption.
    rewrite O0, Hw, Z.sub_diag. cbn. lia. }
  assert (Hr : resolver_fecha texto ahora = Ok f).
  { assert (E1 : fecha_dia_semana None
                   [py "próximo"; py "proximo"; py "siguiente"]
                   (str_lower texto) ahora true = Ok None)
      by (unfold fecha_dia_semana; now rewrite Hk1).
    assert (E2 : fecha_dia_semana None [py "este"; py "este semana"]
                   (str_lower texto) ahora false = Ok (Some f)).
    { unfold fecha_dia_semana. cbn [existsb]. rewrite Hk2, Hf. cbn [orb].
      exact E0. }
    unfold resolver_fecha. rewrite He. cbn [bind]. rewrite E1. cbn [bind].
    rewrite E2. reflexivity. }
  assert (Hge : date_lt f ahora = false).
  { destruct (date_lt f ahora) eqn:E; [|reflexivity].
    apply date_lt_toordinal in E; try assumption. lia. }
  exists objetivo, f. eexists.
  repeat split; try eassumption; try lia.
  - apply procesar_sin_escalada; eassumption.
  - reflexivity.
Qed.

Lemma este_dia_semana_witness :
  exists t,
    procesar_logica_negocio (py "Deber de web este martes")
      domingo_1_marzo [] = Ok (t, [])
    /\ fecha t = py "2026-03-03".
Proof.
  destruct (este_dia_semana latin1 sin_fechas utf8
              (py "Deber de web este martes")
              domingo_1_marzo [] (py "martes")
              eq_refl ltac:(vm_compute; discriminate) eq_refl eq_refl eq_refl
              eq_refl)
    as (objetivo & f & t & Ha & Hr & _ & _ & _ & _ & _ & _ & Hp & Hf).
  exists t. split; [exact Hp|]. rewrite Hf.
  assert (E : Ok f = Ok (mkdt 2026 3 3 36000000000))
    by (rewrite <- Hr; reflexivity).
  injection E as ->. reflexivity.
Defined.

Section Defecto.
Context `{Unicode} `{DateParser}.

(** without a weekday name in the text the weekday strategies give
    nothing *)
Lemma resolver_sin_dia (texto : str) (ahora : datetime) :
  fecha_explicita texto ahora = Ok None ->
  find (fun dia => contains dia (str_lower texto)) dias_es = None ->
  resolver_fecha texto ahora
  = match dateparser_parse true (str_lower texto) ahora with
    | Some g => Ok g
    | None => add_days ahora 1
    end.
Proof.
  intros He Hf.
  assert (Hd : forall claves b,
             fecha_dia_semana None claves (str_lower texto) ahora b = Ok None).
  { intros claves b. unfold fecha_dia_semana. rewrite Hf.
    now destruct (existsb _ claves). }
  unfold resolver_fecha. rewrite He. cbn [bind]. rewrite Hd. cbn [bind].
  rewrite Hd. cbn [bind].
  now destruct (dateparser_parse true (str_lower texto) ahora).
Qed.
End Defecto.

(** X13: when the explicit pattern has given no date and no weekday
    name of [dias_es] occurs in the text, the date is the one the
    fallback parser finds and, when it finds none, [ahora] plus one
    day, with the time of day of [ahora]; in that case no line of
    input is read and tomorrow's date is the date of the record. *)
Theorem fecha_por_defecto (U : Unicode) (P : DateParser) (S : Stdout)
    (texto : str) (ahora : datetime) (entrada : list str) :
  valid_datetime ahora = true -> year ahora <= 9998 ->
  fecha_explicita texto ahora = Ok None ->
  find (fun dia => contains dia (str_lower texto)) dias_es = None ->
  (forall g,
     dateparser_parse true (str_lower texto) ahora = Some g ->
     resolver_fecha texto ahora = Ok g)
  /\ (dateparser_parse true (str_lower texto) ahora = None ->
      exists f t,
        add_days ahora 1 = Ok f
        /\ toordinal f = toordinal ahora + 1
        /\ tod f = tod ahora
        /\ valid_datetime f = true
        /\ resolver_fecha texto ahora = Ok f
        /\ procesar_logica_negocio texto ahora entrada = Ok (t, entrada)
        /\ fecha t = strftime_ymd f).
Proof.
  intros Hv Hy He Hf.
  pose proof (resolver_sin_dia texto ahora He Hf) as Hr.
  split.
  - intros g Hg. now rewrite Hr, Hg.
  - intros Hn. rewrite Hn in Hr.
    destruct (add_days_ahora ahora Hv Hy 1 ltac:(lia)) as (f & Hadd & Hvf & Ho & Ht).
    rewrite Hadd in Hr. exists f. eexists.
    assert (Hge : date_lt f ahora = false).
    { destruct (date_lt f ahora) eqn:E; [|reflexivity].
      apply date_lt_toordinal in E; try assumption. lia. }
    repeat split; try eassumption.
    + apply procesar_sin_escalada; eassumption.
    + reflexivity.
Qed.

Lemma fecha_por_defecto_witness :
  exists t,
    procesar_logica_negocio (py "Estudiar para el quiz de ingles")
      domingo_1_marzo [] = Ok (t, [])
    /\ fecha t = py "2026-03-02".
Proof.
  destruct (proj2 (fecha_por_defecto latin1 sin_fechas utf8
                     (py "Estudiar para el quiz de ingles")
                     domingo_1_marzo []
                     eq_refl ltac:(vm_compute; discriminate) eq_refl eq_refl)
              eq_refl)
    as (f & t & Hadd & _ & _ & _ & _ & Hp & Hf).
  exists t. split; [exact Hp|]. rewrite Hf.
  assert (E : Ok f = Ok (mkdt 2026 3 2 36000000000))
    by (rewrite <- Hadd; reflexivity).
  injection E as ->. reflexivity.
Defined.

(** ** What the interpreter can raise *)


Section Errores.
Context `{Unicode} `{DateParser} `{Stdout}.


(** when one of its first lines cannot be written, the confirmation
    step raises before it reads *)
Lemma pedir_sin_avisos (texto : str) (fecha_actual ahora : datetime)
    (entrada : list str) :
  valid_datetime ahora = true -> year ahora <= 9998 ->
  valid_datetime fecha_actual = true ->
  forallb stdout_encodes (avisos texto fecha_actual ahora) = false ->
  _pedir_confirmacion_fecha texto fecha_actual ahora entrada
  = Raise UnicodeEncodeError.
Proof.
  intros Hv Hy Hvf Ha.
  pose proof (fecha_proximo_ok ahora Hv Hy fecha_actual Hvf) as Hp.
  destruct (mes_siguiente ahora) as [y m].
  unfold avisos in Ha. rewrite Hp in Ha. cbn [forallb] in Ha.
  unfold _pedir_confirmacion_fecha. rewrite Hp. cbn [bind]. unfold print.
  destruct (stdout_encodes (msg_confirmacion texto)); [|reflexivity].
  destruct (stdout_encodes (msg_opciones _ _)); [|reflexivity].
  destruct (stdout_encodes msg_responde); [|reflexivity].
  cbn [andb bind] in *. rewrite andb_true_r in Ha.
  destruct entrada; cbn [preguntar]; unfold print; rewrite Ha; reflexivity.
Qed.
End Errores.



(** ** The answers of the confirmation step *)

(** X8: in [_pedir_confirmacion_fecha] an answer that, stripped and
    lower-cased, is "próximo", "proximo", "siguiente" or "próximo mes"
    is taken at once: the result is the candidate of the next month,
    the day of the rejected date clamped to that month, which is
    after today; one line of input is read.  This is so on a standard
    output that writes the first lines of the step and the prompt; on
    one that does not, the step raises [UnicodeEncodeError]. *)
Theorem pedir_proximo (U : Unicode) (P : DateParser) (S : Stdout)
    (texto : str) (fecha_actual ahora : datetime) (linea : str)
    (resto : list str) :
  valid_datetime ahora = true -> year ahora <= 9998 ->
  valid_datetime fecha_actual = true ->
  str_in (str_lower (strip linea))
         [py "próximo"; py "proximo"; py "siguiente"; py "próximo mes"] = true ->
  exists f,
    fecha_proximo_de fecha_actual ahora = Ok f
    /\ (forallb stdout_encodes (avisos texto fecha_actual ahora) = true ->
        _pedir_confirmacion_fecha texto fecha_actual ahora (linea :: resto)
        = Ok (f, resto))
    /\ (forallb stdout_encodes (avisos texto fecha_actual ahora) = false ->
        _pedir_confirmacion_fecha texto fecha_actual ahora (linea :: resto)
        = Raise UnicodeEncodeError)
    /\ (year f, month f) = mes_siguiente ahora
    /\ day f = Z.min (day fecha_actual) (_days_in_month (year f) (month f))
    /\ tod f = 0
    /\ valid_datetime f = true
    /\ date_lt ahora f = true.
Proof.
  intros Hv Hy Hfa Hresp.
  pose proof (fecha_proximo_ok ahora Hv Hy fecha_actual Hfa) as Hp.
  pose proof (fun Ha => pedir_avisos ahora Hv Hy texto fecha_actual
                          (linea :: resto) Hfa Ha) as Hav.
  pose proof (pedir_sin_avisos texto fecha_actual ahora (linea :: resto)
                Hv Hy Hfa) as Hsin.
  pose proof Hv as Hv'. apply valid_datetime_iff in Hv' as [Hya [Hma Hda]].
  assert (Hms : mes_siguiente ahora
                = (if month ahora =? 12 then (year ahora + 1, 1)
                   else (year ahora, month ahora + 1))) by reflexivity.
  destruct (mes_siguiente ahora) as [y m].
  exists (mkdt y m (Z.min (day fecha_actual) (_days_in_month y m)) 0).
  split; [exact Hp|].
  assert (Hno : str_in (str_lower (strip linea)) [py "este"; py "este mes"]
                = false).
  { apply str_in_In in Hresp. apply str_in_false. intros Hin.
    cbn [In] in Hresp, Hin.
    destruct Hresp as [E|[E|[E|[E|[]]]]]; rewrite <- E in Hin;
      destruct Hin as [E'|[E'|[]]]; discriminate E'. }
  split; [|split; [exact Hsin|]].
  - intros Ha. destruct (Hav Ha) as (fp & Hfp & Hel & ->).
    rewrite Hp in Hfp. injection Hfp as <-.
    cbn [preguntar]. rewrite (print_true _ Hel). cbn [bind].
    now rewrite Hno, Hresp.
  - cbn [year month day tod]. split; [reflexivity|]. split; [reflexivity|].
    split; [reflexivity|].
    assert (Hvf : valid_datetime
                    (mkdt y m (Z.min (day fecha_actual) (_days_in_month y m)) 0)
                  = true).
    { unfold fecha_proximo_de in Hp.
      destruct (month ahora + 1 =? 13); now apply safe_date_Ok in Hp. }
    split; [exact Hvf|]. apply date_lt_iff. unfold lex_lt.
    cbn [year month day].
    destruct (Z.eqb_spec (month ahora) 12); injection Hms as -> ->; lia.
Qed.

Lemma pedir_proximo_witness :
  exists f,
    _pedir_confirmacion_fecha (py "ayer") (mkdt 2026 1 31 0) domingo_1_marzo
      [py "  Siguiente "; py "este"] = Ok (f, [py "este"])
    /\ (year f, month f) = (2026, 4)
    /\ day f = 30.
Proof.
  destruct (pedir_proximo latin1 sin_fechas utf8 (py "ayer") (mkdt 2026 1 31 0)
              domingo_1_marzo (py "  Siguiente ") [py "este"]
              eq_refl ltac:(vm_compute; discriminate) eq_refl eq_refl)
    as (f & _ & Hp & _ & Hm & Hd & _).
  exists f. split; [apply Hp; vm_compute; reflexivity|]. split; [exact Hm|].
  rewrite Hd. injection Hm as -> ->. reflexivity.
Defined.

(** ** The fields of the record *)

Section Campos.
Context `{Unicode}.

Lemma capitalize_ascii_str (s : str) :
  forallb is_ascii s = true ->
  str_capitalize s = match s with
                     | [] => []
                     | c :: r => ascii_upper c :: map ascii_lower r
                     end.
Proof.
  destruct s as [|c r]; intros Ha; [apply capitalize_nil|].
  now apply capitalize_ascii.
Qed.

Lemma buscar_In (entrada : str) (opciones : list str) (umbral : Q) (o : str) :
  buscar_concepto_fuzzy entrada opciones umbral = Some o -> In o opciones.
Proof.
  intros E. destruct (buscar_Some _ _ _ _ E) as (pre & post & -> & _).
  apply in_or_app. right. now left.
Qed.

Lemma capitalize_tipo (x : str) :
  In x tipos_disponibles ->
  In (str_capitalize x)
     (map py ["Deber"; "Examen"; "Proyecto"; "Entrega"; "Taller"]%string).
Proof.
  intros Hin. cbn [tipos_disponibles map In] in Hin.
  destruct Hin as [<-|[<-|[<-|[<-|[<-|[]]]]]];
    rewrite capitalize_ascii_str by reflexivity;
    vm_compute; tauto.
Qed.

Lemma tipo_clave_cerrado (tokens_clean : list str) :
  In (tipo_clave tipos_palabras_clave tokens_clean)
     (map py ["Deber"; "Examen"; "Proyecto"; "Entrega"; "Taller"]%string).
Proof.
  unfold tipos_palabras_clave. cbn [tipo_clave].
  repeat match goal with
         | |- In (if ?c then _ else _) _ =>
             destruct c;
             [apply capitalize_tipo; vm_compute; tauto|]
         end.
  vm_compute; tauto.
Qed.

Lemma tipo_fuzzy_cerrado (tokens_clean : list str) :
  In (tipo_fuzzy tokens_clean)
     (map py ["Deber"; "Examen"; "Proyecto"; "Entrega"; "Taller"]%string).
Proof.
  induction tokens_clean as [|token resto IH]; cbn [tipo_fuzzy].
  - vm_compute; tauto.
  - destruct (buscar_concepto_fuzzy token tipos_disponibles umbral_defecto)
      as [e|] eqn:E; [|exact IH].
    destruct (truthy e); [|exact IH].
    apply capitalize_tipo. exact (buscar_In _ _ _ _ E).
Qed.

Lemma materia_exacta_cerrada (dic : list (str * (str * list str)))
    (tokens_clean : list str) :
  In (materia_exacta dic tokens_clean) ([] :: map (fun e => fst (snd e)) dic).
Proof.
  induction dic as [|[k [n v]] dic IH]; cbn [materia_exacta map fst snd].
  - now left.
  - destruct (alguna_en v tokens_clean).
    + right. now left.
    + destruct IH as [IH|IH]; [now left | right; now right].
Qed.

Lemma materia_de_variante_cerrada (dic : list (str * (str * list str)))
    (encontrado : str) :
  In (materia_de_variante dic encontrado)
     ([] :: map (fun e => fst (snd e)) dic).
Proof.
  induction dic as [|[k [n v]] dic IH]; cbn [materia_de_variante map fst snd].
  - now left.
  - destruct (str_in encontrado v).
    + right. now left.
    + destruct IH as [IH|IH]; [now left | right; now right].
Qed.

Lemma materia_fuzzy_cerrada (tokens_clean : list str) :
  In (materia_fuzzy tokens_clean)
     ([] :: map (fun e => fst (snd e)) DICCIONARIO_MATERIAS_MEJORADO).
Proof.
  induction tokens_clean as [|token resto IH]; cbn [materia_fuzzy]; [now left|].
  match goal with
  | |- In (if truthy ?m then _ else _) _ =>
      assert (Hm : In m ([] :: map (fun e => fst (snd e))
                                   DICCIONARIO_MATERIAS_MEJORADO));
      [|destruct (truthy m); [exact Hm | exact IH]]
  end.
  destruct (buscar_concepto_fuzzy token todas_variantes umbral_defecto)
    as [e|]; [|now left].
  destruct (truthy e); [apply materia_de_variante_cerrada | now left].
Qed.

Lemma prioridad_de_cerrada (tokens tokens_clean : list str) :
  In (prioridad_de tokens tokens_clean)
     (map py ["Alta"; "Media"; "Baja"]%string).
Proof.
  unfold prioridad_de.
  destruct (alguna_en palabras_urgentes tokens_clean);
    [destruct (negb _ && negb _)|];
    destruct (alguna_en palabras_bajas tokens_clean);
    vm_compute; tauto.
Qed.

Lemma tipo_de_cerrado (tokens_clean : list str) :
  In (tipo_de tokens_clean)
     (map py ["Deber"; "Examen"; "Proyecto"; "Entrega"; "Taller"]%string).
Proof.
  unfold tipo_de.
  destruct (str_eqb _ (py "Deber"));
    [apply tipo_fuzzy_cerrado | apply tipo_clave_cerrado].
Qed.

Lemma materia_de_cerrada (tokens_clean : list str) :
  In (materia_de tokens_clean)
     ([] :: map py ["Aplicaciones Web y Móviles";
                    "Inteligencia de negocios"; "Realidad Nacional";
                    "Aplicaciones distribuidas";
                    "Gestión de prueba e implantación";
                    "Inglés B1+"]%string).
Proof.
  assert (E : [] :: map py ["Aplicaciones Web y Móviles";
                            "Inteligencia de negocios"; "Realidad Nacional";
                            "Aplicaciones distribuidas";
                            "Gestión de prueba e implantación";
                            "Inglés B1+"]%string
              = [] :: map (fun e => fst (snd e))
                        DICCIONARIO_MATERIAS_MEJORADO)
    by (vm_compute; reflexivity).
  rewrite E. unfold materia_de.
  destruct (negb _);
    [apply materia_fuzzy_cerrada | apply materia_exacta_cerrada].
Qed.
End Campos.

(** X15: the type of a record is one of "Deber", "Examen", "Proyecto",
    "Entrega" and "Taller", its priority one of "Alta", "Media" and
    "Baja", and its subject is empty or one of the six names of
    [DICCIONARIO_MATERIAS_MEJORADO]. *)
Theorem campos_cerrados (U : Unicode) (P : DateParser) (S : Stdout)
    (texto : str) (ahora : datetime) (entrada : list str)
    (t : tarea) (resto : list str) :
  procesar_logica_negocio texto ahora entrada = Ok (t, resto) ->
  In (tipo t)
     (map py ["Deber"; "Examen"; "Proyecto"; "Entrega"; "Taller"]%string)
  /\ In (prioridad t) (map py ["Alta"; "Media"; "Baja"]%string)
  /\ In (materia t)
        ([] :: map py ["Aplicaciones Web y Móviles";
                       "Inteligencia de negocios"; "Realidad Nacional";
                       "Aplicaciones distribuidas";
                       "Gestión de prueba e implantación";
                       "Inglés B1+"]%string).
Proof.
  intros Hp. apply procesar_campos in Hp as (Ht & Hpr & Hm).
  rewrite Ht, Hpr, Hm. split; [|split].
  - apply tipo_de_cerrado.
  - apply prioridad_de_cerrada.
  - apply materia_de_cerrada.
Qed.

Lemma campos_cerrados_witness :
  exists t,
    procesar_logica_negocio (py "Taller de kubernets urgente") domingo_1_marzo []
      = Ok (t, [])
    /\ In (tipo t)
          (map py ["Deber"; "Examen"; "Proyecto"; "Entrega"; "Taller"]%string)
    /\ In (prioridad t) (map py ["Alta"; "Media"; "Baja"]%string).
Proof.
  eexists. split; [vm_compute; reflexivity|].
  refine (let H := campos_cerrados latin1 sin_fechas utf8
                     (py "Taller de kubernets urgente") domingo_1_marzo []
                     _ [] _ in conj (proj1 H) (proj1 (proj2 H))).
  vm_compute. reflexivity.
Defined.

(** ** Priority *)

Section Prioridad.
Context `{Unicode}.

(** X16: the priority is "Alta" exactly when a clean token is an urgency
    word and neither "urgente" nor "importante" has a negation in its
    window; otherwise it is "Baja" when a clean token is a mildness
    word and "Media" when none is.  Negation is looked for around
    "urgente" and "importante" only: with neither of them among the
    tokens any other urgency word gives "Alta", as "critico" does in
    "no es critico y es facil", negated and next to a mildness word. *)
Theorem prioridad_de_casos (tokens tokens_clean : list str) :
  let alta :=
    alguna_en palabras_urgentes tokens_clean
    && negb (tiene_negacion tokens (py "urgente") 3)
    && negb (tiene_negacion tokens (py "importante") 3) in
  let baja := alguna_en palabras_bajas tokens_clean in
  (prioridad_de tokens tokens_clean = py "Alta" <-> alta = true)
  /\ (prioridad_de tokens tokens_clean = py "Baja" <->
      alta = false /\ baja = true)
  /\ (prioridad_de tokens tokens_clean = py "Media" <->
      alta = false /\ baja = false)
  /\ (alguna_en palabras_urgentes tokens_clean = true ->
      str_in (py "urgente") tokens = false ->
      str_in (py "importante") tokens = false ->
      prioridad_de tokens tokens_clean = py "Alta")
  /\ prioridad_de (tokenizar (py "no es critico y es facil"))
       (remover_stopwords (tokenizar (py "no es critico y es facil")))
     = py "Alta".
Proof.
  intros alta baja.
  assert (Hdef : prioridad_de tokens tokens_clean
                 = if alta then py "Alta"
                   else if baja then py "Baja" else py "Media").
  { subst alta baja. unfold prioridad_de.
    destruct (alguna_en palabras_urgentes tokens_clean); cbn [andb].
    - destruct (negb _ && negb _); [reflexivity|].
      now destruct (alguna_en palabras_bajas tokens_clean).
    - now destruct (alguna_en palabras_bajas tokens_clean). }
  split; [|split; [|split; [|split]]].
  - rewrite Hdef. destruct alta, baja; split; (reflexivity || discriminate).
  - rewrite Hdef. destruct alta, baja; split;
      try discriminate; try (intros [? ?]; discriminate); auto.
  - rewrite Hdef. destruct alta, baja; split;
      try discriminate; try (intros [? ?]; discriminate); auto.
  - intros Hu Hn1 Hn2. rewrite Hdef. subst alta.
    rewrite Hu, (tiene_negacion_ausente tokens _ 3 Hn1),
      (tiene_negacion_ausente tokens _ 3 Hn2).
    reflexivity.
  - rewrite tokenizar_ascii by reflexivity. reflexivity.
Qed.
End Prioridad.

(** ** Keywords *)

Lemma alguna_en_incl (palabras a b : list str) :
  forallb (fun t => str_in t b) a = true ->
  alguna_en palabras a = true -> alguna_en palabras b = true.
Proof.
  intros Hab. unfold alguna_en. rewrite !existsb_exists.
  intros (p & Hp & Hin). exists p. split; [exact Hp|].
  apply str_in_In in Hin. rewrite forallb_forall in Hab. now apply Hab.
Qed.

Lemma alguna_en_conjunto (palabras a b : list str) :
  forallb (fun t => str_in t b) a = true ->
  forallb (fun t => str_in t a) b = true ->
  alguna_en palabras a = alguna_en palabras b.
Proof.
  intros Hab Hba.
  destruct (alguna_en palabras a) eqn:Ea, (alguna_en palabras b) eqn:Eb;
    try reflexivity.
  - now rewrite (alguna_en_incl palabras a b Hab Ea) in Eb.
  - now rewrite (alguna_en_incl palabras b a Hba Eb) in Ea.
Qed.

(** X17: the keyword phases look at the clean tokens as a set: two token
    lists with the same elements, in whatever order and number, give
    the same subject by variants, the same type by keywords and the
    same answers about urgency and mildness words. *)
Theorem claves_por_conjunto (U : Unicode) (a b : list str) :
  forallb (fun t => str_in t b) a = true ->
  forallb (fun t => str_in t a) b = true ->
  materia_exacta DICCIONARIO_MATERIAS_MEJORADO a
  = materia_exacta DICCIONARIO_MATERIAS_MEJORADO b
  /\ tipo_clave tipos_palabras_clave a = tipo_clave tipos_palabras_clave b
  /\ alguna_en palabras_urgentes a = alguna_en palabras_urgentes b
  /\ alguna_en palabras_bajas a = alguna_en palabras_bajas b.
Proof.
  intros Hab Hba.
  pose proof (fun p => alguna_en_conjunto p a b Hab Hba) as E.
  split; [|split; [|split]]; try apply E.
  - generalize DICCIONARIO_MATERIAS_MEJORADO.
    induction l as [|[k [n v]] dic IH]; cbn [materia_exacta]; [reflexivity|].
    now rewrite E, IH.
  - generalize tipos_palabras_clave.
    induction l as [|[n v] dic IH]; cbn [tipo_clave]; [reflexivity|].
    now rewrite E, IH.
Qed.

Lemma claves_por_conjunto_witness :
  materia_exacta DICCIONARIO_MATERIAS_MEJORADO (map py ["examen"; "web"]%string)
  = materia_exacta DICCIONARIO_MATERIAS_MEJORADO
      (map py ["web"; "examen"; "web"]%string)
  /\ @tipo_clave latin1 tipos_palabras_clave (map py ["examen"; "web"]%string)
     = @tipo_clave latin1 tipos_palabras_clave
         (map py ["web"; "examen"; "web"]%string).
Proof.
  destruct (claves_por_conjunto latin1 (map py ["examen"; "web"]%string)
              (map py ["web"; "examen"; "web"]%string) eq_refl eq_refl)
    as (Hm & Ht & _).
  split; [exact Hm | exact Ht].
Defined.

(** ** The threshold of the fuzzy search *)

Section Umbral.
Context `{Unicode}.

(** the first of the largest is unique *)
Lemma primero_mayor_unico {A} (f : A -> Q) (l pre post pre' post' : list A)
    (o o' : A) :
  l = pre ++ o :: post -> l = pre' ++ o' :: post' ->
  (forall x, In x pre -> (f x < f o)%Q) ->
  (forall x, In x post -> (f x <= f o)%Q) ->
  (forall x, In x pre' -> (f x < f o')%Q) ->
  (forall x, In x post' -> (f x <= f o')%Q) ->
  o = o'.
Proof.
  intros -> E Hpre Hpost Hpre' Hpost'.
  revert pre' E Hpre'. induction pre as [|p pre IH]; intros pre' E Hpre'.
  - destruct pre' as [|p' pre']; cbn in E.
    + now injection E.
    + injection E as -> Hr. exfalso.
      assert (Ho' : In o' post) by (rewrite Hr; apply in_or_app; right; now left).
      pose proof (Hpost _ Ho') as H1.
      pose proof (Hpre' p' (or_introl eq_refl)) as H2.
      exact (Qlt_not_le _ _ H2 H1).
  - destruct pre' as [|p' pre']; cbn in E.
    + injection E as -> Hr. exfalso.
      assert (Ho : In o post') by (rewrite <- Hr; apply in_or_app; right; now left).
      pose proof (Hpost' _ Ho) as H1.
      pose proof (Hpre o' (or_introl eq_refl)) as H2.
      exact (Qlt_not_le _ _ H2 H1).
    + injection E as -> Hr. apply (IH (fun x Hx => Hpre x (or_intror Hx)) pre' Hr).
      intros x Hx. apply Hpre'. now right.
Qed.

(** X5: the threshold decides whether the fuzzy search has a result,
    not which: above 1 there is none, at 0 or below there is one for
    any non-empty list of candidates, an empty list gives none; a
    result at a threshold is also the result at every lower one. *)
Theorem buscar_umbral (entrada : str) (opciones : list str) (umbral : Q) :
  buscar_concepto_fuzzy entrada [] umbral = None
  /\ ((1 < umbral)%Q -> buscar_concepto_fuzzy entrada opciones umbral = None)
  /\ ((umbral <= 0)%Q ->
      forall o, exists o',
        buscar_concepto_fuzzy entrada (o :: opciones) umbral = Some o')
  /\ (forall umbral' o,
        (umbral' <= umbral)%Q ->
        buscar_concepto_fuzzy entrada opciones umbral = Some o ->
        buscar_concepto_fuzzy entrada opciones umbral' = Some o).
Proof.
  split; [reflexivity|]. split; [|split].
  - intros Hu. apply buscar_None. intros o _.
    apply Qle_lt_trans with 1%Q; [|exact Hu]. apply ratio_range.
  - intros Hu o.
    destruct (buscar_concepto_fuzzy entrada (o :: opciones) umbral) as [o'|] eqn:E;
      [now exists o'|].
    exfalso. pose proof (proj1 (buscar_None _ _ _) E o (or_introl eq_refl)) as Hlt.
    apply (Qlt_not_le _ _ Hlt). apply Qle_trans with 0%Q; [exact Hu|].
    apply ratio_range.
  - intros umbral' o Hle Hs.
    destruct (buscar_Some _ _ _ _ Hs) as (pre & post & Heq & Hu & Hpre & Hpost).
    destruct (buscar_concepto_fuzzy entrada opciones umbral') as [o'|] eqn:E.
    + destruct (buscar_Some _ _ _ _ E) as (pre' & post' & Heq' & _ & Hpre' & Hpost').
      f_equal. symmetry.
      exact (primero_mayor_unico (similitud (normalizar_texto entrada))
               opciones pre post pre' post' o o' Heq Heq' Hpre Hpost Hpre' Hpost').
    + exfalso.
      assert (Hin : In o opciones)
        by (rewrite Heq; apply in_or_app; right; now left).
      pose proof (proj1 (buscar_None _ _ _) E o Hin) as Hlt.
      apply (Qlt_not_le _ _ Hlt). now apply Qle_trans with umbral.
Qed.
End Umbral.

(** ** [SequenceMatcher] on equal sequences *)

Local Open Scope nat_scope.

Lemma popular_corta (b : str) (y : N) : length b < 200 -> popular b y = false.
Proof.
  intros Hl. unfold popular.
  replace (200 <=? length b) with false; [reflexivity|].
  symmetry. apply Nat.leb_gt. exact Hl.
Qed.

Lemma nth_tl {A} (n : nat) (l : list A) (d : A) : nth n (tl l) d = nth (S n) l d.
Proof. destruct l; [now destruct n | reflexivity]. Qed.

(** the best block only grows along a row *)
Lemma lm_row_crece (b0 : str) (x : N) (i blo bhi : nat) :
  forall (bs : str) (j : nat) (prev : list nat) (pm1 : nat) best,
    snd best <= snd (snd (lm_row b0 x i blo bhi j bs prev pm1 best)).
Proof.
  induction bs as [|y bs IH]; intros j prev pm1 best; [cbn; lia|].
  cbn [lm_row].
  destruct ((y =? x)%N && negb (popular b0 y) && (blo <=? j) && (j <? bhi)).
  - match goal with
    | |- context [lm_row b0 x i blo bhi (S j) bs (tl prev) (hd 0 prev) ?B] =>
        specialize (IH (S j) (tl prev) (hd 0 prev) B);
        destruct (lm_row b0 x i blo bhi (S j) bs (tl prev) (hd 0 prev) B)
          as [row out]
    end.
    cbn [fst snd] in *. destruct best as [[bi bj] bk]. cbn [snd] in *.
    destruct (Nat.ltb_spec bk (pm1 + 1)); cbn [snd] in IH; lia.
  - specialize (IH (S j) (tl prev) (hd 0 prev) best).
    destruct (lm_row b0 x i blo bhi (S j) bs (tl prev) (hd 0 prev) best)
      as [row out]. exact IH.
Qed.

(** on the diagonal the run of equal elements grows by one *)
Lemma lm_row_diagonal (b0 : str) (x : N) (i blo bhi : nat) :
  popular b0 x = false -> blo <= i -> i < bhi ->
  forall (bs : str) (j : nat) (prev : list nat) (pm1 : nat) best (d : nat),
    j <= i -> nth_error bs (i - j) = Some x ->
    (if j =? i then pm1 = d else nth (i - j - 1) prev 0 = d) ->
    d + 1 <= snd (snd (lm_row b0 x i blo bhi j bs prev pm1 best))
    /\ nth (i - j) (fst (lm_row b0 x i blo bhi j bs prev pm1 best)) 0 = d + 1.
Proof.
  intros Hpop Hlo Hhi.
  induction bs as [|y bs IH]; intros j prev pm1 best d Hj Hx Hd.
  - destruct (i - j); discriminate.
  - cbn [lm_row]. destruct (Nat.eqb_spec j i) as [->|Hne].
    + rewrite Nat.sub_diag in *. cbn in Hx. injection Hx as ->. subst pm1.
      rewrite N.eqb_refl, Hpop. cbn [negb andb].
      replace (blo <=? i) with true by (symmetry; now apply Nat.leb_le).
      replace (i <? bhi) with true by (symmetry; now apply Nat.ltb_lt).
      cbn [andb].
      match goal with
      | |- context [lm_row b0 x i blo bhi (S i) bs (tl prev) (hd 0 prev) ?B] =>
          pose proof (lm_row_crece b0 x i blo bhi bs (S i) (tl prev)
                        (hd 0 prev) B) as Hm;
          destruct (lm_row b0 x i blo bhi (S i) bs (tl prev) (hd 0 prev) B)
            as [row out]
      end.
      cbn [fst snd nth] in *. split; [|reflexivity].
      destruct best as [[bi bj] bk].
      destruct (Nat.ltb_spec bk (d + 1)); cbn [snd] in Hm; lia.
    + assert (Hrec : forall B,
                 d + 1 <= snd (snd (lm_row b0 x i blo bhi (S j) bs (tl prev)
                                      (hd 0 prev) B))
                 /\ nth (i - S j)
                      (fst (lm_row b0 x i blo bhi (S j) bs (tl prev)
                              (hd 0 prev) B)) 0 = d + 1).
      { intros B. apply IH; [lia| |].
        - replace (i - j) with (S (i - S j)) in Hx by lia. exact Hx.
        - destruct (Nat.eqb_spec (S j) i) as [E|E].
          + replace (i - j - 1) with 0 in Hd by lia.
            destruct prev; cbn in *; exact Hd.
          + rewrite nth_tl. replace (S (i - S j - 1)) with (i - j - 1) by lia.
            exact Hd. }
      replace (i - j) with (S (i - S j)) by lia.
      destruct ((y =? x)%N && negb (popular b0 y) && (blo <=? j) && (j <? bhi)).
      * match goal with
        | |- context [lm_row b0 x i blo bhi (S j) bs (tl prev) (hd 0 prev) ?B] =>
            specialize (Hrec B);
            destruct (lm_row b0 x i blo bhi (S j) bs (tl prev) (hd 0 prev) B)
              as [row out]
        end.
        exact Hrec.
      * specialize (Hrec best).
        destruct (lm_row b0 x i blo bhi (S j) bs (tl prev) (hd 0 prev) best)
          as [row out].
        exact Hrec.
Qed.

Lemma lm_rows_diagonal (b : str) :
  length b < 200 ->
  forall (n i : nat) (prev : list nat) best,
    i + n <= length b ->
    (i = 0 \/ nth (i - 1) prev 0 = i) -> i <= snd best ->
    i + n <= snd (lm_rows b 0 (length b) i n (skipn i b) prev best).
Proof.
  intros Hl. induction n as [|n IH]; intros i prev best Hn Hp Hb.
  - cbn. lia.
  - cbn [lm_rows]. destruct (skipn i b) as [|x as_] eqn:Es.
    + assert (Hlen : length (skipn i b) = 0) by now rewrite Es.
      rewrite length_skipn in Hlen. lia.
    + assert (Hx : nth_error b i = Some x).
      { rewrite <- (firstn_skipn i b) at 1. rewrite nth_error_app2;
          rewrite length_firstn; [|lia].
        replace (i - Nat.min i (length b)) with 0 by lia. now rewrite Es. }
      assert (Ht : skipn (S i) b = as_).
      { replace (S i) with (1 + i) by lia. rewrite <- skipn_skipn, Es.
        reflexivity. }
      pose proof (lm_row_diagonal b x i 0 (length b) (popular_corta b x Hl)
                    (Nat.le_0_l _) ltac:(lia) b 0 prev 0 best i
                    (Nat.le_0_l _)) as Hd.
      rewrite Nat.sub_0_r in Hd. specialize (Hd Hx).
      destruct (lm_row b x i 0 (length b) 0 b prev 0 best) as [row out].
      cbn [fst snd] in Hd. destruct Hd as [H1 H2].
      { destruct (Nat.eqb_spec 0 i) as [<-|Hne]; [reflexivity|].
        destruct Hp as [->|Hp]; [now elim Hne|exact Hp]. }
      rewrite <- Ht. replace (i + S n) with (S i + n) by lia.
      apply IH; [lia | right | lia].
      replace (S i - 1) with i by lia. lia.
Qed.

(** the longest match of a sequence with itself is the whole of it *)
Lemma find_longest_match_igual (a : str) :
  length a < 200 ->
  find_longest_match a a 0 (length a) 0 (length a) = (0, 0, length a).
Proof.
  intros Hl. unfold find_longest_match.
  pose proof (lm_rows_diagonal a Hl (length a) 0 [] (0, 0, 0)
                (Nat.le_refl _) (or_introl eq_refl) (Nat.le_refl _)) as Hd.
  pose proof (lm_rows_inv a 0 (length a) 0 (length a) (length a) 0 (skipn 0 a)
                [] (0, 0, 0) (Nat.le_refl _) (Nat.le_refl _)
                (row_in_nil _ _ _) ltac:(cbn; lia)) as Hin.
  rewrite Nat.sub_0_r. cbn [skipn] in *.
  destruct (lm_rows a 0 (length a) 0 (length a) a [] (0, 0, 0)) as [[i j] k].
  cbn in Hd, Hin.
  assert (i = 0) as -> by lia. assert (j = 0) as -> by lia.
  assert (k = length a) as -> by lia.
  cbn [extend_left]. rewrite Nat.add_0_l, Nat.sub_diag. reflexivity.
Qed.

Lemma matches_igual (a : str) : length a < 200 -> matches a a = length a.
Proof.
  intros Hl. pose proof (find_longest_match_igual a Hl) as F.
  unfold matches. destruct (length a) as [|n]; [reflexivity|].
  cbn [matching_size]. rewrite F. cbn [Nat.eqb]. rewrite Nat.ltb_irrefl. cbn [andb].
  rewrite Nat.add_0_l, Nat.ltb_irrefl. cbn [andb]. lia.
Qed.

Local Close Scope nat_scope.

Lemma ratio_igual (a : str) : (length a < 200)%nat -> (ratio a a == 1)%Q.
Proof.
  intros Hl. unfold ratio. rewrite (matches_igual a Hl).
  destruct (length a + length a)%nat as [|n] eqn:E; [reflexivity|].
  unfold Qeq. cbn [Qnum Qden]. rewrite Z.mul_1_r, Z.mul_1_l.
  assert (Hp : Z.pos (Pos.of_nat (S n)) = Z.of_nat (S n)).
  { rewrite <- positive_nat_Z. now rewrite Nat2Pos.id. }
  rewrite Hp, <- E. lia.
Qed.

Section Exacto.
Context `{Unicode}.

(** X20: a candidate that normalises to the same text as the input
    (shorter than 200 characters, where [SequenceMatcher] drops no
    popular element) has similarity 1; so for a threshold of at most 1
    the search has a result, and its similarity is 1. *)
Theorem buscar_exacto (entrada : str) (opciones : list str) (umbral : Q)
    (o : str) :
  In o opciones ->
  normalizar_texto o = normalizar_texto entrada ->
  (length (normalizar_texto entrada) < 200)%nat ->
  (umbral <= 1)%Q ->
  (similitud (normalizar_texto entrada) o == 1)%Q
  /\ exists o',
       buscar_concepto_fuzzy entrada opciones umbral = Some o'
       /\ In o' opciones
       /\ (similitud (normalizar_texto entrada) o' == 1)%Q.
Proof.
  intros Hin Hn Hl Hu.
  assert (Ho : (similitud (normalizar_texto entrada) o == 1)%Q).
  { unfold similitud. rewrite Hn. now apply ratio_igual. }
  split; [exact Ho|].
  destruct (buscar_concepto_fuzzy entrada opciones umbral) as [o'|] eqn:E.
  - exists o'. split; [reflexivity|].
    destruct (buscar_Some _ _ _ _ E) as (pre & post & Heq & _ & Hpre & Hpost).
    split; [rewrite Heq; apply in_or_app; right; now left|].
    assert (Hle : (similitud (normalizar_texto entrada) o
                   <= similitud (normalizar_texto entrada) o')%Q).
    { rewrite Heq in Hin. apply in_app_or in Hin as [Hi|[<-|Hi]].
      - apply Qlt_le_weak. now apply Hpre.
      - apply Qle_refl.
      - now apply Hpost. }
    apply Qle_antisym.
    + apply ratio_range.
    + now rewrite <- Ho.
  - exfalso. pose proof (proj1 (buscar_None _ _ _) E o Hin) as Hlt.
    rewrite Ho in Hlt. exact (Qlt_not_le _ _ Hlt Hu).
Qed.
End Exacto.

Lemma buscar_exacto_witness :
  exists o',
    buscar_concepto_fuzzy (py " EXAMEN! ")
      (map py ["proyecto"; "examen"]%string) umbral_defecto = Some o'
    /\ In o' (map py ["proyecto"; "examen"]%string).
Proof.
  destruct (proj2 (buscar_exacto (py " EXAMEN! ")
                     (map py ["proyecto"; "examen"]%string) umbral_defecto
                     (py "examen")
                     ltac:(right; left; reflexivity)
                     ltac:(rewrite !normalizar_ascii by reflexivity;
                           vm_compute; reflexivity)
                     ltac:(rewrite normalizar_ascii by reflexivity;
                           vm_compute; lia)
                     ltac:(vm_compute; discriminate)))
    as (o' & Hs & Hin & _).
  exists o'. split; [exact Hs | exact Hin].
Defined.

(** ** The explicit pattern *)

Section Explicita.
Context `{Unicode} `{DateParser}.

Lemma fecha_explicita_None (texto : str) (ahora : datetime) :
  re_search patron_explicita (str_lower texto) = None ->
  fecha_explicita texto ahora = Ok None.
Proof.
  intros Hn. unfold fecha_explicita, extraer_fechas_mejorado.
  pose proof (primer_patron_no_explicita _ Hn) as Hp.
  destruct (primer_patron patrones (str_lower texto)) as [[g t]|];
    [|reflexivity].
  destruct t; try reflexivity. now elim (Hp g).
Qed.

(** a text without decimal digits has no explicit date *)
Lemma sin_digitos_None (s : str) :
  forallb (fun c => negb (cmatch CDigit c)) s = true ->
  re_search patron_explicita s = None.
Proof.
  intros Hs. destruct (re_search patron_explicita s) as [caps|] eqn:E;
    [|reflexivity].
  apply explicita_first_digit in E as (x & Hx & Hd).
  rewrite forallb_forall in Hs. specialize (Hs x Hx). now rewrite Hd in Hs.
Qed.

(** X11: the first strategy raises nothing: when the explicit pattern
    is the one that matches, both groups are bound and the first is
    one or two decimal digits, so [int(grupos[0])] is a number from 0
    to 99; the strategy then yields no date or a calendar date at
    midnight in the year of [ahora] or the next.  When the explicit
    pattern matches nowhere the strategy yields no date. *)
Theorem fecha_explicita_sin_error (texto : str) (ahora : datetime) :
  (exists o, fecha_explicita texto ahora = Ok o
             /\ forall f, o = Some f ->
                  valid_datetime f = true /\ tod f = 0
                  /\ year ahora <= year f <= year ahora + 1)
  /\ (forall g,
        extraer_fechas_mejorado texto = Some (g, explicita) ->
        exists caps g0 g1 n,
          re_search patron_explicita (str_lower texto) = Some caps
          /\ g = [Some g0; Some g1]
          /\ (1 <= length g0 <= 2)%nat
          /\ py_int g0 = Some n /\ 0 <= n <= 99)
  /\ (re_search patron_explicita (str_lower texto) = None ->
      fecha_explicita texto ahora = Ok None).
Proof.
  assert (Hg : forall g,
             extraer_fechas_mejorado texto = Some (g, explicita) ->
             exists caps g0 g1 n,
               re_search patron_explicita (str_lower texto) = Some caps
               /\ g = [Some g0; Some g1]
               /\ (1 <= length g0 <= 2)%nat
               /\ py_int g0 = Some n /\ 0 <= n <= 99).
  { intros g E. unfold extraer_fechas_mejorado in E.
    apply primer_patron_explicita in E as (caps & Hs & ->).
    destruct (explicita_groups _ _ Hs) as (g0 & g1 & Hgr & Hl & Hd).
    destruct (py_int_digits g0 Hl Hd) as (n & Hn & Hr).
    exists caps, g0, g1, n. auto. }
  split; [|split; [exact Hg|]].
  - unfold fecha_explicita.
    destruct (extraer_fechas_mejorado texto) as [[g t]|] eqn:E;
      [|exists None; split; [reflexivity | intros ? [=]]].
    destruct t; try (exists None; split; [reflexivity | intros ? [=]]).
    destruct (Hg g eq_refl) as (caps & g0 & g1 & n & _ & -> & _ & Hn & _).
    cbn [nth]. rewrite Hn.
    destruct (assoc g1 meses_es) as [mes|];
      [|exists None; split; [reflexivity | intros ? [=]]].
    eexists. split; [reflexivity|]. intros f Hf. unfold attempt in Hf.
    destruct (_safe_date _ mes n) as [f'|] eqn:Es; [|discriminate].
    injection Hf as <-. apply safe_date_Ok in Es as (_ & -> & Hv).
    split; [exact Hv|]. cbn [tod year]. split; [reflexivity|].
    destruct (_ || _); lia.
  - apply fecha_explicita_None.
Qed.
End Explicita.

(** ** The first entry wins *)

Section Primera.
Context `{Unicode}.

Lemma materia_exacta_primera (pre post : list (str * (str * list str)))
    (k n : str) (v tokens_clean : list str) :
  forallb (fun e => negb (alguna_en (snd (snd e)) tokens_clean)) pre = true ->
  alguna_en v tokens_clean = true ->
  materia_exacta (pre ++ (k, (n, v)) :: post) tokens_clean = n.
Proof.
  intros Hpre Hv. induction pre as [|[k' [n' v']] pre IH]; cbn [app materia_exacta].
  - now rewrite Hv.
  - cbn [forallb snd] in Hpre. apply andb_true_iff in Hpre as [Hn Hpre].
    apply negb_true_iff in Hn. rewrite Hn. now apply IH.
Qed.

Lemma tipo_clave_primera (pre post : list (str * list str))
    (k : str) (v tokens_clean : list str) :
  forallb (fun e => negb (alguna_en (snd e) tokens_clean)) pre = true ->
  alguna_en v tokens_clean = true ->
  tipo_clave (pre ++ (k, v) :: post) tokens_clean = str_capitalize k.
Proof.
  intros Hpre Hv. induction pre as [|[k' v'] pre IH]; cbn [app tipo_clave].
  - now rewrite Hv.
  - cbn [forallb snd] in Hpre. apply andb_true_iff in Hpre as [Hn Hpre].
    apply negb_true_iff in Hn. rewrite Hn. now apply IH.
Qed.

(** X21: the subject is the name of the first entry of
    [DICCIONARIO_MATERIAS_MEJORADO], in the order of the dictionary,
    that has a variant among the clean tokens, wherever in the text
    that token stands, and the type is the capitalised first key of
    [tipos_palabras_clave] that has a keyword among them; in both
    cases the fuzzy search is not consulted. *)
Theorem primera_coincidencia (tokens_clean : list str) :
  (forall pre k n v post,
     DICCIONARIO_MATERIAS_MEJORADO = pre ++ (k, (n, v)) :: post ->
     forallb (fun e => negb (alguna_en (snd (snd e)) tokens_clean)) pre = true ->
     alguna_en v tokens_clean = true ->
     materia_de tokens_clean = n)
  /\ (forall pre k v post,
        tipos_palabras_clave = pre ++ (k, v) :: post ->
        forallb (fun e => negb (alguna_en (snd e) tokens_clean)) pre = true ->
        alguna_en v tokens_clean = true ->
        tipo_de tokens_clean = str_capitalize k)
  /\ (alguna_en (map py ["web"; "móvil"; "mobile"; "app"; "webapp";
                         "aplicación"; "frontend"; "backend"; "react";
                         "angular"]%string) tokens_clean = true ->
      materia_de tokens_clean = py "Aplicaciones Web y Móviles")
  /\ (alguna_en (map py ["examen"; "prueba"; "test"; "parcial"; "final";
                         "evaluación"; "quiz"; "exam"]%string)
                tokens_clean = true ->
      tipo_de tokens_clean = py "Examen").
Proof.
  assert (Hm : forall pre k n v post,
             DICCIONARIO_MATERIAS_MEJORADO = pre ++ (k, (n, v)) :: post ->
             forallb (fun e => negb (alguna_en (snd (snd e)) tokens_clean)) pre
             = true ->
             alguna_en v tokens_clean = true ->
             materia_de tokens_clean = n).
  { intros pre k n v post Hd Hpre Hv. unfold materia_de. rewrite Hd.
    rewrite (materia_exacta_primera pre post k n v tokens_clean Hpre Hv).
    assert (Hin : In (k, (n, v)) DICCIONARIO_MATERIAS_MEJORADO)
      by (rewrite Hd; apply in_or_app; right; now left).
    assert (Hn : truthy n = true).
    { unfold DICCIONARIO_MATERIAS_MEJORADO in Hin. cbn [In] in Hin.
      destruct Hin as [E|[E|[E|[E|[E|[E|[]]]]]]]; injection E as _ <- _;
        reflexivity. }
    now rewrite Hn. }
  assert (Ht : forall pre k v post,
             tipos_palabras_clave = pre ++ (k, v) :: post ->
             forallb (fun e => negb (alguna_en (snd e) tokens_clean)) pre = true ->
             alguna_en v tokens_clean = true ->
             tipo_de tokens_clean = str_capitalize k).
  { intros pre k v post Hd Hpre Hv. unfold tipo_de. rewrite Hd.
    rewrite (tipo_clave_primera pre post k v tokens_clean Hpre Hv).
    assert (Hin : In (k, v) tipos_palabras_clave)
      by (rewrite Hd; apply in_or_app; right; now left).
    assert (Hn : str_eqb (str_capitalize k) (py "Deber") = false).
    { unfold tipos_palabras_clave in Hin. cbn [In] in Hin.
      destruct Hin as [E|[E|[E|[E|[]]]]]; injection E as <- _;
        rewrite capitalize_ascii_str by reflexivity; reflexivity. }
    now rewrite Hn. }
  split; [exact Hm|]. split; [exact Ht|]. split.
  - intros Hv.
    exact (Hm [] _ _ _ _ eq_refl eq_refl Hv).
  - intros Hv.
    rewrite (Ht [] _ _ _ eq_refl eq_refl Hv).
    rewrite capitalize_ascii_str by reflexivity. reflexivity.
Qed.
End Primera.

(** ** The date of the record *)

(** below the year 1000 the text of a date is shorter than YYYY-MM-DD *)
Lemma strftime_corta (f : datetime) :
  year f < 1000 ->
  (length (strftime_ymd f) < 10)%nat /\ formato_iso (strftime_ymd f) = false.
Proof.
  intros Hy. unfold strftime_ymd, strftime_Y.
  destruct (year f <? 10); [split; [cbn; lia | reflexivity]|].
  destruct (year f <? 100); [split; [cbn; lia | reflexivity]|].
  destruct (Z.ltb_spec (year f) 1000); [split; [cbn; lia | reflexivity] | lia].
Qed.

(** X22: with a clock reading in a supported year the [fecha] of every
    record the interpreter returns, the confirmation step included, is
    [strftime("%Y-%m-%d")] of a calendar date of the years 1 to 9999:
    the date of the strategies when it is not before today, the one of
    the confirmation step otherwise.  For a date from the year 1000 on
    it is in the format YYYY-MM-DD and shows that date; for a date
    before the year 1000, which only the confirmation step can give
    when the clock reads the year 1000 or later, the year is not
    padded and the text is shorter. *)
Theorem fecha_del_registro (U : Unicode) (P : DateParser) (S : Stdout)
    (texto : str) (ahora : datetime) (entrada : list str)
    (t : tarea) (resto : list str) :
  valid_datetime ahora = true -> year ahora <= 9998 ->
  procesar_logica_negocio texto ahora entrada = Ok (t, resto) ->
  exists f0 f,
    resolver_fecha texto ahora = Ok f0
    /\ (if date_lt f0 ahora
        then _pedir_confirmacion_fecha texto f0 ahora entrada = Ok (f, resto)
        else f = f0 /\ resto = entrada)
    /\ fecha t = strftime_ymd f
    /\ valid_datetime f = true
    /\ (1000 <= year f ->
        formato_iso (fecha t) = true
        /\ campos_iso (fecha t) = (year f, month f, day f))
    /\ (year f < 1000 ->
        (length (fecha t) < 10)%nat /\ formato_iso (fecha t) = false)
    /\ (1000 <= year ahora -> date_lt f0 ahora = false -> 1000 <= year f).
Proof.
  intros Hv Hy Hp.
  destruct (resolver_fecha_ok ahora Hv Hy texto) as (f0 & Hr & Hv0).
  exists f0. unfold procesar_logica_negocio in Hp. rewrite Hr in Hp.
  cbn [bind] in Hp. destruct (date_lt f0 ahora) eqn:El.
  - destruct (_pedir_confirmacion_fecha texto f0 ahora entrada)
      as [[f r]|e] eqn:Ep; [|discriminate].
    cbn [bind] in Hp. injection Hp as <- <-. exists f.
    pose proof (pedir_valid ahora Hv Hy texto f0 entrada f r Hv0 Ep) as Hvf.
    cbn [fecha]. split; [exact Hr|]. split; [reflexivity|].
    split; [reflexivity|]. split; [exact Hvf|].
    split; [now apply strftime_formato|].
    split; [apply strftime_corta | discriminate].
  - cbn [bind] in Hp. injection Hp as <- <-. exists f0.
    cbn [fecha]. split; [exact Hr|]. split; [split; reflexivity|].
    split; [reflexivity|]. split; [exact Hv0|].
    split; [now apply strftime_formato|].
    split; [apply strftime_corta|].
    intros Hk _. pose proof (date_ge_year _ _ El). lia.
Qed.

Lemma fecha_del_registro_witness :
  @procesar_logica_negocio latin1 parser_ayer utf8 (py "ayer") domingo_1_marzo
    [py "0999-01-01"]
  = Ok ({| nombre := py "Ayer"; fecha := py "999-01-01";
           tipo := py "Deber"; prioridad := py "Media"; materia := [] |}, [])
  /\ formato_iso (py "999-01-01") = false
  /\ exists f,
       valid_datetime f = true
       /\ formato_iso (py "2020-01-01") = true
       /\ campos_iso (py "2020-01-01") = (year f, month f, day f).
Proof.
  assert (E1 : @procesar_logica_negocio latin1 parser_ayer utf8 (py "ayer")
                 domingo_1_marzo [py "0999-01-01"]
               = Ok ({| nombre := py "Ayer"; fecha := py "999-01-01";
                        tipo := py "Deber"; prioridad := py "Media";
                        materia := [] |}, []))
    by (vm_compute; reflexivity).
  split; [exact E1|]. split.
  - destruct (fecha_del_registro latin1 parser_ayer utf8 (py "ayer")
                domingo_1_marzo [py "0999-01-01"] _ _
                eq_refl ltac:(vm_compute; discriminate) E1)
      as (f0 & f & Hr & Hc & _ & _ & _ & Hs & _).
    assert (E0 : Ok f0 = Ok (mkdt 2026 2 28 0)) by (rewrite <- Hr; reflexivity).
    injection E0 as ->.
    assert (Ef : Ok (f, @nil str) = Ok (mkdt 999 1 1 0, []))
      by (rewrite <- Hc; vm_compute; reflexivity).
    injection Ef as ->. apply Hs. cbn. lia.
  - destruct (fecha_del_registro latin1 parser_ayer utf8 (py "ayer")
                domingo_1_marzo [py "2020-01-01"]
                {| nombre := py "Ayer"; fecha := py "2020-01-01";
                   tipo := py "Deber"; prioridad := py "Media";
                   materia := [] |}
                [] eq_refl ltac:(vm_compute; discriminate)
                ltac:(vm_compute; reflexivity))
      as (f0 & f & Hr & Hc & _ & Hvf & Hi & _).
    assert (E0 : Ok f0 = Ok (mkdt 2026 2 28 0)) by (rewrite <- Hr; reflexivity).
    injection E0 as ->.
    assert (Ef : Ok (f, @nil str) = Ok (mkdt 2020 1 1 0, []))
      by (rewrite <- Hc; vm_compute; reflexivity).
    injection Ef as ->. exists (mkdt 2020 1 1 0).
    split; [exact Hvf|]. cbn [fecha] in Hi. apply Hi. cbn. lia.
Defined.

(** ** Texts without a date *)

(** X23: a text that, lower-cased, holds no decimal digit and no
    weekday name of [dias_es] is dated by the fallback alone: when
    [dateparser] finds no date in it the record carries tomorrow's
    date, whatever else the text says; no line of input is read. *)
Theorem sin_digitos_manana (U : Unicode) (P : DateParser) (S : Stdout)
    (texto : str) (ahora : datetime) (entrada : list str) :
  valid_datetime ahora = true -> year ahora <= 9998 ->
  forallb (fun c => negb (cmatch CDigit c)) (str_lower texto) = true ->
  forallb (fun dia => negb (contains dia (str_lower texto))) dias_es = true ->
  dateparser_parse true (str_lower texto) ahora = None ->
  fecha_explicita texto ahora = Ok None
  /\ exists f t,
       add_days ahora 1 = Ok f
       /\ toordinal f = toordinal ahora + 1
       /\ valid_datetime f = true
       /\ date_lt ahora f = true
       /\ resolver_fecha texto ahora = Ok f
       /\ procesar_logica_negocio texto ahora entrada = Ok (t, entrada)
       /\ fecha t = strftime_ymd f.
Proof.
  intros Hv Hy Hdig Hdia Hn.
  pose proof (fecha_explicita_None texto ahora
                (sin_digitos_None _ Hdig)) as He.
  split; [exact He|].
  assert (Hf : find (fun dia => contains dia (str_lower texto)) dias_es = None).
  { destruct (find _ dias_es) as [dia|] eqn:E; [|reflexivity].
    apply find_some in E as [Hin Hc]. rewrite forallb_forall in Hdia.
    specialize (Hdia dia Hin). now rewrite Hc in Hdia. }
  pose proof (resolver_sin_dia texto ahora He Hf) as Hr. rewrite Hn in Hr.
  destruct (add_days_ahora ahora Hv Hy 1 ltac:(lia)) as (f & Hadd & Hvf & Ho & _).
  rewrite Hadd in Hr.
  assert (Hlt : date_lt ahora f = true)
    by (apply date_lt_toordinal; try assumption; lia).
  assert (Hge : date_lt f ahora = false).
  { destruct (date_lt f ahora) eqn:E; [|reflexivity].
    apply date_lt_toordinal in E; try assumption. lia. }
  exists f. eexists. repeat split; try eassumption.
  - apply procesar_sin_escalada; eassumption.
  - reflexivity.
Qed.

Lemma sin_digitos_manana_witness :
  exists t,
    procesar_logica_negocio (py "Paper de inteligencia de negocios, critico!")
      domingo_1_marzo [] = Ok (t, [])
    /\ fecha t = py "2026-03-02".
Proof.
  destruct (sin_digitos_manana latin1 sin_fechas utf8
              (py "Paper de inteligencia de negocios, critico!")
              domingo_1_marzo []
              eq_refl ltac:(vm_compute; discriminate)
              ltac:(vm_compute; reflexivity) ltac:(vm_compute; reflexivity)
              eq_refl)
    as (_ & f & t & Hadd & _ & _ & _ & _ & Hp & Hf).
  exists t. split; [exact Hp|]. rewrite Hf.
  assert (E : Ok f = Ok (mkdt 2026 3 2 36000000000))
    by (rewrite <- Hadd; reflexivity).
  injection E as ->. reflexivity.
Defined.

(** ** [strptime] reads what [strftime] writes *)

Lemma digit_ascii (k : Z) :
  0 <= k <= 9 ->
  ascii_digit (digit k) = Some (Z.to_N k) /\ isspace (digit k) = false
  /\ latin1_lower (digit k) = digit k.
Proof.
  intros Hk. unfold digit.
  assert (Hc : k = 0 \/ k = 1 \/ k = 2 \/ k = 3 \/ k = 4 \/ k = 5 \/ k = 6
               \/ k = 7 \/ k = 8 \/ k = 9) by lia.
  destruct Hc as [->|[->|[->|[->|[->|[->|[->|[->|[->| ->]]]]]]]]];
    repeat split.
Qed.

(** [int] of the four digits of a year *)
Lemma py_int_anio (y : Z) :
  0 <= y <= 9999 ->
  @py_int latin1 [digit (y / 1000); digit (y / 100 mod 10);
                  digit (y / 10 mod 10); digit (y mod 10)] = Some y.
Proof.
  intros Hy.
  destruct (digit_ascii (y / 1000)) as (A1 & S1 & _);
    [Z.div_mod_to_equations; lia|].
  destruct (digit_ascii (y / 100 mod 10)) as (A2 & _ & _);
    [Z.div_mod_to_equations; lia|].
  destruct (digit_ascii (y / 10 mod 10)) as (A3 & _ & _);
    [Z.div_mod_to_equations; lia|].
  destruct (digit_ascii (y mod 10)) as (A4 & S4 & _);
    [Z.div_mod_to_equations; lia|].
  unfold py_int, strip, rstrip. cbn [lstrip]. rewrite S1.
  cbn [rev app lstrip]. rewrite S4. cbn [rev app int_digits decimal_value latin1].
  rewrite A1, A2, A3, A4. f_equal.
  rewrite !Z2N.id by (Z.div_mod_to_equations; lia).
  Z.div_mod_to_equations. lia.
Qed.

(** [int] of two digits *)
Lemma py_int_dos (k : Z) :
  0 <= k <= 99 -> @py_int latin1 [digit (k / 10); digit (k mod 10)] = Some k.
Proof.
  intros Hk.
  destruct (digit_ascii (k / 10)) as (A1 & S1 & _);
    [Z.div_mod_to_equations; lia|].
  destruct (digit_ascii (k mod 10)) as (A2 & S2 & _);
    [Z.div_mod_to_equations; lia|].
  unfold py_int, strip, rstrip. cbn [lstrip]. rewrite S1.
  cbn [rev app lstrip]. rewrite S2. cbn [rev app int_digits decimal_value latin1].
  rewrite A1, A2. f_equal.
  rewrite !Z2N.id by (Z.div_mod_to_equations; lia).
  Z.div_mod_to_equations. lia.
Qed.

(** the pattern of [strptime] on the four digits of the year *)
Lemma strptime_anio (a b c d : N) (r : regex) (rest : str) :
  ascii_digit a <> None -> ascii_digit b <> None -> ascii_digit c <> None ->
  ascii_digit d <> None ->
  @re_match latin1
    (Seq (Group 1 (seqs [Chr CDigit; Chr CDigit; Chr CDigit; Chr CDigit])) r)
    (a :: b :: c :: d :: rest)
  = @rmatch latin1 _ r (Some d) rest [(1%nat, [a; b; c; d])]
      (fun _ s' c => Some (c, s')).
Proof.
  intros Ha Hb Hc Hd. unfold re_match, seqs.
  cbn [fold_right rmatch cmatch decimal_value latin1].
  destruct (ascii_digit a); [|congruence]. destruct (ascii_digit b); [|congruence].
  destruct (ascii_digit c); [|congruence]. destruct (ascii_digit d); [|congruence].
  cbn [length].
  replace (S (S (S (S (length rest)))) - length rest)%nat with 4%nat by lia.
  reflexivity.
Qed.

(** the rest of the pattern on the month and the day *)
Lemma strptime_mes_dia (g : str) (p : option N) (m d : Z) :
  1 <= m <= 12 -> 1 <= d <= 31 ->
  match strptime_re with
  | Seq _ r =>
      @rmatch latin1 _ r p
        [45%N; digit (m / 10); digit (m mod 10); 45%N;
         digit (d / 10); digit (d mod 10)]
        [(1%nat, g)] (fun _ s' c => Some (c, s'))
  | _ => None
  end
  = Some ([(3%nat, [digit (d / 10); digit (d mod 10)]);
           (2%nat, [digit (m / 10); digit (m mod 10)]); (1%nat, g)], []).
Proof.
  intros Hm Hd.
  assert (Im : In m (range 1 13)) by (apply In_range; lia).
  assert (Id : In d (range 1 32)) by (apply In_range; lia).
  clear Hm Hd. vm_compute in Im. vm_compute in Id.
  repeat (destruct Im as [<-|Im];
          [repeat (destruct Id as [<-|Id]; [vm_compute; reflexivity|]);
           destruct Id|]).
  destruct Im.
Qed.

(** [datetime] takes the fields of a calendar date *)
Lemma datetime_new_valid (f : datetime) :
  valid_datetime f = true ->
  datetime_new (year f) (month f) (day f)
  = Ok (mkdt (year f) (month f) (day f) 0).
Proof.
  intros Hv. pose proof Hv as Hv'.
  apply valid_datetime_iff in Hv' as [Hyr [Hm Hd]].
  pose proof (month_tables (_is_leap (year f)) (month f) Hm) as (_ & Hdim & _).
  unfold dim_l in Hdim. fold (_days_in_month (year f) (month f)) in Hdim.
  unfold datetime_new.
  replace (c_int (year f) && c_int (month f) && c_int (day f)) with true
    by (symmetry; unfold c_int;
        rewrite !andb_true_iff, !Z.leb_le, !Z.ltb_lt; lia).
  unfold valid_datetime in Hv. now rewrite Hv.
Qed.

Lemma strptime_de_strftime (f : datetime) :
  valid_datetime f = true -> 1000 <= year f ->
  @strptime_ymd latin1 (strftime_ymd f)
  = Ok (mkdt (year f) (month f) (day f) 0).
Proof.
  intros Hv Hk. pose proof Hv as Hv'.
  apply valid_datetime_iff in Hv' as [Hyr [Hm Hd]].
  pose proof (month_tables (_is_leap (year f)) (month f) Hm) as (_ & Hdim & _).
  unfold dim_l in Hdim. fold (_days_in_month (year f) (month f)) in Hdim.
  rewrite strftime_ymd_4 by exact Hk. unfold strptime_ymd.
  assert (E : strptime_re
              = Seq (Group 1 (seqs [Chr CDigit; Chr CDigit; Chr CDigit;
                                    Chr CDigit]))
                    match strptime_re with Seq _ r => r | _ => Eps end)
    by reflexivity.
  rewrite E at 1. clear E.
  rewrite strptime_anio;
    try (match goal with
         | |- ascii_digit (digit ?k) <> None =>
             destruct (digit_ascii k) as (-> & _);
             [Z.div_mod_to_equations; lia | discriminate]
         end).
  pose proof (strptime_mes_dia
                [digit (year f / 1000); digit (year f / 100 mod 10);
                 digit (year f / 10 mod 10); digit (year f mod 10)]
                (Some (digit (year f mod 10))) (month f) (day f)
                Hm ltac:(lia)) as Hmd.
  change strptime_re with
    (Seq (Group 1 (seqs [Chr CDigit; Chr CDigit; Chr CDigit; Chr CDigit]))
         match strptime_re with Seq _ r => r | _ => Eps end) in Hmd.
  cbv iota in Hmd.
  match type of Hmd with
  | ?L = _ =>
      match goal with
      | |- context [rmatch ?r ?p ?s ?c ?k] => change (rmatch r p s c k) with L
      end
  end.
  rewrite Hmd. cbn [group Nat.eqb].
  rewrite py_int_anio by lia. rewrite !py_int_dos by lia.
  now apply datetime_new_valid.
Qed.

(** X10: [datetime.strptime(s, "%Y-%m-%d")] reads the text
    [strftime("%Y-%m-%d")] writes for a date of the years 1000 to 9999
    back as midnight of that date, and that, formatted again, gives the
    same text: ten characters, digits around two hyphens, that show
    the year, the month and the day. *)
Theorem strptime_strftime (f : datetime) :
  valid_datetime f = true -> 1000 <= year f ->
  exists g,
    @strptime_ymd latin1 (strftime_ymd f) = Ok g
    /\ g = mkdt (year f) (month f) (day f) 0
    /\ valid_datetime g = true
    /\ strftime_ymd g = strftime_ymd f
    /\ formato_iso (strftime_ymd f) = true
    /\ campos_iso (strftime_ymd f) = (year g, month g, day g).
Proof.
  intros Hv Hy. exists (mkdt (year f) (month f) (day f) 0).
  split; [now apply strptime_de_strftime|]. split; [reflexivity|].
  split; [exact Hv|]. split; [reflexivity|].
  exact (strftime_formato f Hv Hy).
Qed.

Lemma strptime_strftime_witness :
  @strptime_ymd latin1 (py "2026-03-28") = Ok (mkdt 2026 3 28 0).
Proof.
  destruct (strptime_strftime (mkdt 2026 3 28 36000000000) eq_refl
              ltac:(vm_compute; discriminate)) as (g & Hs & -> & _).
  exact Hs.
Defined.

(** ** A date typed at the confirmation step *)

Lemma strftime_digitos (g : datetime) :
  valid_datetime g = true ->
  0 <= year g / 1000 <= 9 /\ 0 <= year g / 100 mod 10 <= 9
  /\ 0 <= year g / 10 mod 10 <= 9 /\ 0 <= year g mod 10 <= 9
  /\ 0 <= month g / 10 <= 9 /\ 0 <= month g mod 10 <= 9
  /\ 0 <= day g / 10 <= 9 /\ 0 <= day g mod 10 <= 9.
Proof.
  intros Hv. apply valid_datetime_iff in Hv as [Hy [Hm Hd]].
  pose proof (month_tables (_is_leap (year g)) (month g) Hm) as (_ & Hdim & _).
  unfold dim_l in Hdim. fold (_days_in_month (year g) (month g)) in Hdim.
  repeat split; Z.div_mod_to_equations; lia.
Qed.

(** [strip()] and [lower()] leave a date in ISO format alone *)
Lemma strftime_strip_lower (g : datetime) :
  valid_datetime g = true -> 1000 <= year g ->
  @str_lower latin1 (strip (strftime_ymd g)) = strftime_ymd g.
Proof.
  intros Hv Hk. rewrite strftime_ymd_4 by exact Hk.
  destruct (strftime_digitos g Hv) as (H1 & H2 & H3 & H4 & H5 & H6 & H7 & H8).
  destruct (digit_ascii _ H1) as (_ & S1 & L1).
  destruct (digit_ascii _ H2) as (_ & _ & L2).
  destruct (digit_ascii _ H3) as (_ & _ & L3).
  destruct (digit_ascii _ H4) as (_ & _ & L4).
  destruct (digit_ascii _ H5) as (_ & _ & L5).
  destruct (digit_ascii _ H6) as (_ & _ & L6).
  destruct (digit_ascii _ H7) as (_ & _ & L7).
  destruct (digit_ascii _ H8) as (_ & S8 & L8).
  unfold strip, rstrip. cbn [lstrip]. rewrite S1.
  cbn [rev app lstrip]. rewrite S8. cbn [rev app str_lower latin1 map].
  rewrite L1, L2, L3, L4, L5, L6, L7, L8. reflexivity.
Qed.

(** a text that starts with a digit is none of the words of a list of
    words that start with letters *)
Lemma str_in_digito (k : Z) (r : str) (l : list str) :
  0 <= k <= 9 ->
  forallb (fun w => match w with
                    | c :: _ => negb (is_digit_char c)
                    | [] => true
                    end) l = true ->
  str_in (digit k :: r) l = false.
Proof.
  intros Hk Hl. apply str_in_false. intros Hin.
  rewrite forallb_forall in Hl. specialize (Hl _ Hin). cbv beta iota in Hl.
  destruct (digit_char k Hk) as [Hd _]. now rewrite Hd in Hl.
Qed.

(** X9: the confirmation step takes a date typed in ISO format as it
    is: on a standard output that writes the first lines of the step
    and the prompt, an answer that is the text of a date of the years
    1000 to 9999 is returned as midnight of that date, whether or not
    it is before today; the record then carries the typed text as its
    [fecha]. *)
Theorem pedir_fecha_iso (P : DateParser) (S : Stdout)
    (texto : str) (fecha_actual ahora g : datetime) (resto : list str) :
  valid_datetime ahora = true -> year ahora <= 9998 ->
  valid_datetime fecha_actual = true ->
  valid_datetime g = true -> 1000 <= year g ->
  forallb stdout_encodes (avisos texto fecha_actual ahora) = true ->
  @_pedir_confirmacion_fecha latin1 P S texto fecha_actual ahora
    (strftime_ymd g :: resto)
  = Ok (mkdt (year g) (month g) (day g) 0, resto)
  /\ (@resolver_fecha latin1 P texto ahora = Ok fecha_actual ->
      date_lt fecha_actual ahora = true ->
      exists t,
        @procesar_logica_negocio latin1 P S texto ahora
          (strftime_ymd g :: resto)
        = Ok (t, resto)
        /\ fecha t = strftime_ymd g).
Proof.
  intros Hv Hy Hfa Hg Hyg Ha.
  assert (Hp : @_pedir_confirmacion_fecha latin1 P S texto fecha_actual ahora
                 (strftime_ymd g :: resto)
               = Ok (mkdt (year g) (month g) (day g) 0, resto)).
  { destruct (pedir_avisos ahora Hv Hy texto fecha_actual
                (strftime_ymd g :: resto) Hfa Ha) as (fp & _ & Hel & ->).
    cbn [preguntar]. rewrite (print_true _ Hel). cbn [bind].
    rewrite (strftime_strip_lower g Hg Hyg).
    destruct (strftime_digitos g Hg) as (H1 & _).
    assert (Hs : forall l,
               forallb (fun w => match w with
                                 | c :: _ => negb (is_digit_char c)
                                 | [] => true
                                 end) l = true ->
               str_in (strftime_ymd g) l = false).
    { intros l Hl. rewrite strftime_ymd_4 by exact Hyg.
      now apply str_in_digito. }
    rewrite !Hs by reflexivity.
    now rewrite (strptime_de_strftime g Hg Hyg). }
  split; [exact Hp|]. intros Hr Hl.
  eexists. split.
  - apply (procesar_con_escalada texto ahora _ fecha_actual _ resto Hr Hl Hp).
  - reflexivity.
Qed.

Lemma pedir_fecha_iso_witness :
  exists t,
    @procesar_logica_negocio latin1 parser_ayer utf8 (py "ayer") domingo_1_marzo
      [py "2020-01-01"] = Ok (t, [])
    /\ fecha t = py "2020-01-01"
    /\ date_lt (mkdt 2020 1 1 0) domingo_1_marzo = true.
Proof.
  destruct (proj2 (pedir_fecha_iso parser_ayer utf8 (py "ayer")
                     (mkdt 2026 2 28 0)
                     domingo_1_marzo (mkdt 2020 1 1 0) []
                     eq_refl ltac:(vm_compute; discriminate) eq_refl eq_refl
                     ltac:(vm_compute; discriminate)
                     ltac:(vm_compute; reflexivity))
              eq_refl eq_refl)
    as (t & Hp & Hf).
  exists t. split; [exact Hp|]. split; [exact Hf | reflexivity].
Defined.

(** ** The page sent to Notion *)

(** X19: the properties [enviar_a_notion] sends for a record of the
    interpreter are the title (the capitalised text), the date, a
    priority and a type of the closed lists and, exactly when the
    subject is not empty, a "Materia" that is one of the six names of
    the dictionary; a record without subject has no "Materia" key. *)
Theorem propiedades_notion (U : Unicode) (P : DateParser) (S : Stdout)
    (texto : str) (ahora : datetime) (entrada : list str)
    (t : tarea) (resto : list str) :
  procesar_logica_negocio texto ahora entrada = Ok (t, resto) ->
  assoc (py "Nombre") (propiedades t) = Some (title (str_capitalize texto))
  /\ assoc (py "Fecha de Entrega") (propiedades t) = Some (date (fecha t))
  /\ assoc (py "Prioridad") (propiedades t) = Some (select (prioridad t))
  /\ In (prioridad t) (map py ["Alta"; "Media"; "Baja"]%string)
  /\ assoc (py "Tipo") (propiedades t) = Some (select (tipo t))
  /\ In (tipo t)
        (map py ["Deber"; "Examen"; "Proyecto"; "Entrega"; "Taller"]%string)
  /\ (materia t = [] ->
      map fst (propiedades t)
      = map py ["Nombre"; "Fecha de Entrega"; "Prioridad"; "Tipo"]%string
      /\ assoc (py "Materia") (propiedades t) = None)
  /\ (materia t <> [] ->
      map fst (propiedades t)
      = map py ["Nombre"; "Fecha de Entrega"; "Prioridad"; "Tipo";
                "Materia"]%string
      /\ assoc (py "Materia") (propiedades t) = Some (select (materia t))
      /\ In (materia t)
            (map py ["Aplicaciones Web y Móviles";
                     "Inteligencia de negocios"; "Realidad Nacional";
                     "Aplicaciones distribuidas";
                     "Gestión de prueba e implantación";
                     "Inglés B1+"]%string)).
Proof.
  intros Hp. pose proof (procesar_nombre _ _ _ _ _ Hp) as Hn.
  apply procesar_campos in Hp as (Ht & Hpr & Hm).
  pose proof (tipo_de_cerrado (remover_stopwords (tokenizar texto))) as Ct.
  pose proof (prioridad_de_cerrada (tokenizar texto)
                (remover_stopwords (tokenizar texto))) as Cp.
  pose proof (materia_de_cerrada (remover_stopwords (tokenizar texto))) as Cm.
  rewrite <- Ht in Ct. rewrite <- Hpr in Cp. rewrite <- Hm in Cm.
  rewrite <- Hn. clear Ht Hpr Hm Hn.
  destruct t as [n f ti pr m]. cbn [nombre fecha tipo prioridad materia] in *.
  unfold propiedades. cbn [nombre fecha tipo prioridad materia].
  destruct m as [|c m]; cbn [truthy].
  - repeat split; try assumption; try reflexivity; congruence.
  - repeat split; try assumption; try reflexivity; try congruence.
    destruct Cm as [E|Cm]; [discriminate | exact Cm].
Qed.

Lemma propiedades_notion_witness :
  exists t,
    procesar_logica_negocio (py "examen de Web") domingo_1_marzo [] = Ok (t, [])
    /\ assoc (py "Nombre") (propiedades t) = Some (title (py "Examen de web"))
    /\ assoc (py "Tipo") (propiedades t) = Some (select (tipo t)).
Proof.
  eexists. split; [vm_compute; reflexivity|].
  refine (let H := propiedades_notion latin1 sin_fechas utf8
                     (py "examen de Web") domingo_1_marzo [] _ [] _ in
          conj (proj1 H) (proj1 (proj2 (proj2 (proj2 (proj2 H)))))).
  vm_compute. reflexivity.
Defined.
